(** * Invitation and verification lifecycle of the ClickUp-alternative backend

    A shallow embedding of the Mongoose models [OTP], [TeamInvitation],
    [TemporaryUser], [User] and [Workspace], of the auth and invitation
    controllers and of the remove-member route, with the properties of the
    lifecycle specification stated and settled against them; then of the
    cleanup, the auth router, the email service, the add-member and delete
    routes and the mock database, with further properties of the code.

    Conventions.
    - A collection is the list of its documents in natural order. [findOne]
      is [list_find] (first match), a loaded document is the pair of its
      position and its value, and [doc.save()] on a loaded document writes
      that position back.
    - A [Date] is its number of milliseconds ([Z]); every operation receives
      the instant [now] at which it reads the clock.
    - An [ObjectId] is its hexadecimal string, so that [toString()] is the
      identity and [equals] is equality of strings. A string of a request
      becomes an ObjectId by a cast ([castObjectId]), made explicit in
      [createInvitation], [getStats] and [sendInvitation]. The other
      handlers take identifiers that are ObjectIds as stored, on which the
      cast is the identity.
    - A request field that is absent is the empty string (both are falsy).
    - A number is an integer; on the instants a [Date] can hold the
      arithmetic of the code is exact.
    - Of Mongoose: [save] validates the document against its schema
      (required strings, enumerations, maxima) and runs the pre-save hooks;
      a unique index rejects an insertion; on a new document every path set
      through the constructor counts as modified; the setters of a path run
      on documents and on query filters alike. *)

From Stdlib Require Import Ascii String.
From stdpp Require Import base tactics decidable option numbers strings pretty list.

Abbreviation ObjectId := string (only parsing).
Abbreviation Date := Z (only parsing).

(** The time values a [Date] can hold. [new Date(t)] for a number beyond
    them is an Invalid Date, which the cast of a path of type [Date] refuses,
    so that [save] fails validation. *)
Definition max_time : Z := 8640000000000000.

Definition valid_date (t : Z) : Prop := (- max_time ≤ t ≤ max_time)%Z.

Global Instance valid_date_dec t : Decision (valid_date t).
Proof. unfold valid_date. apply _. Defined.

(** ** Exceptions and state *)

(** The outcome of an [async] function: a value, or a thrown [Error] with its
    message. *)
Inductive result (A : Type) : Type :=
| Ok (a : A)
| Throw (message : string).
Arguments Ok {A} a.
Arguments Throw {A} message.

(** Code that runs against a mutable store [S]. *)
Definition M (S A : Type) : Type := S → result A * S.

Global Instance M_ret {S} : MRet (M S) := λ A a s, (Ok a, s).

Global Instance M_bind {S} : MBind (M S) := λ A B f m s,
  match m s with
  | (Ok a, s') => f a s'
  | (Throw e, s') => (Throw e, s')
  end.

Definition throw {S A} (message : string) : M S A := λ s, (Throw message, s).

Definition try_catch {S A} (body : M S A) (handler : string → M S A) : M S A :=
  λ s, match body s with
       | (Ok a, s') => (Ok a, s')
       | (Throw e, s') => handler e s'
       end.

Definition get {S} : M S S := λ s, (Ok s, s).
Definition put {S} (s : S) : M S unit := λ _, (Ok tt, s).

(** A call to a collaborator whose outcome is given. *)
Definition call {S A} (outcome : result A) : M S A := λ s, (outcome, s).

(** Run code on one part of a larger store. *)
Definition zoom {S T A} (proj : T → S) (upd : S → T → T) (m : M S A) : M T A :=
  λ t, let '(r, s) := m (proj t) in (r, upd s t).

(** ** Schema options and configuration *)

(** The setters of a [String] path declared [lowercase: true, trim: true].
    Mongoose runs them when a document is built and when a query filter is
    cast, so stored and queried values go through the same function. *)
Class SchemaSetters := { lowercase_trim : string → string }.

(** [String.prototype.toLowerCase]. *)
Class StringOps := { toLowerCase : string → string }.

(** The cast of a string to an [ObjectId], which Mongoose makes on a path of
    a document and on a member of a query filter, and
    [new mongoose.Types.ObjectId(s)] on its argument: the ObjectId the
    string spells, as [toString()] prints it (hexadecimal digits of either
    case are read, lower case is printed), or [None] where the cast throws.
    A string [s] is an ObjectId as stored when [castObjectId s = Some s]. *)
Class ObjectIdCast := { castObjectId : string → option ObjectId }.

(** [process.env] after [parseInt]: [None] is [NaN]. *)
Record Env := {
  OTP_LENGTH : option Z;
  OTP_EXPIRY_MINUTES : option Z;
  INVITATION_EXPIRY_HOURS : option Z
}.

(** [parseInt(v) || d]: [NaN] and [0] are falsy. *)
Definition or_default (parsed : option Z) (d : Z) : Z :=
  match parsed with
  | Some n => if decide (n = 0%Z) then d else n
  | None => d
  end.

(** Insertion under unique indexes: [clash d x] holds when [d] and a stored
    [x] agree on some uniquely indexed path. *)
Definition insertOne {D} (clash : D → D → Prop) `{!∀ d x, Decision (clash d x)}
    (d : D) : M (list D) unit :=
  λ coll, if decide (Exists (clash d) coll)
          then (Throw "E11000 duplicate key error", coll)
          else (Ok tt, coll ++ [d]).

(** ** models/OTP.js *)

Module OTP.

Record Doc := {
  email : string;
  otp : string;
  purpose : string;
  attempts : Z;
  isUsed : bool;
  expiresAt : Date
}.

Global Instance Doc_eq_dec : EqDecision Doc.
Proof. solve_decision. Defined.

Definition purposes : list string := ["email_verification"; "password_reset"].

Definition set_isUsed (b : bool) (d : Doc) : Doc :=
  {| email := email d; otp := otp d; purpose := purpose d;
     attempts := attempts d; isUsed := b; expiresAt := expiresAt d |}.

Definition inc_attempts (d : Doc) : Doc :=
  {| email := email d; otp := otp d; purpose := purpose d;
     attempts := attempts d + 1; isUsed := isUsed d; expiresAt := expiresAt d |}.

(** Query filters. *)
Definition for_pair (e p : string) (d : Doc) : Prop :=
  email d = e ∧ purpose d = p.

Definition matches (e o p : string) (d : Doc) : Prop :=
  email d = e ∧ otp d = o ∧ purpose d = p.

Definition active (now : Date) (d : Doc) : Prop :=
  isUsed d = false ∧ (now < expiresAt d)%Z.

(** Schema validation: the required strings, the [purpose] enumeration and
    the maximum of [attempts]. *)
Definition valid (d : Doc) : Prop :=
  email d ≠ "" ∧ otp d ≠ "" ∧ purpose d ∈ purposes ∧ (attempts d ≤ 5)%Z.

Global Instance valid_dec d : Decision (valid d).
Proof. unfold valid. apply _. Defined.
Global Instance for_pair_dec e p d : Decision (for_pair e p d).
Proof. unfold for_pair. apply _. Defined.
Global Instance matches_dec e o p d : Decision (matches e o p d).
Proof. unfold matches. apply _. Defined.
Global Instance active_dec now d : Decision (active now d).
Proof. unfold active. apply _. Defined.

Definition digits : string := "0123456789".

(** [digits[k]]; an index past the end reads [undefined], which [+=]
    appends as text. *)
Definition digit_at (k : nat) : string :=
  match String.get k digits with
  | Some c => String c ""
  | None => "undefined"
  end.

(** The loop of [generateOTP]; [random i] is the value of
    [Math.floor(Math.random() * digits.length)] at the [i]-th draw. *)
Fixpoint generateOTP_from (random : nat → nat) (i n : nat) (acc : string) : string :=
  match n with
  | O => acc
  | S n' => generateOTP_from random (S i) n' (acc +:+ digit_at (random i))
  end.

Definition generateOTP (random : nat → nat) (length : Z) : string :=
  generateOTP_from random 0 (Z.to_nat length) "".

Section Statics.
Context {setters : SchemaSetters}.

(** [new this({...}).save()]: validation, with the cast of the expiry to a
    [Date], then the insertion. *)
Definition save_new (d : Doc) : M (list Doc) unit :=
  if decide (valid d ∧ valid_date (expiresAt d))
  then λ coll, (Ok tt, coll ++ [d])
  else throw "OTP validation failed".

(** [otpDoc.save()] on the loaded document at position [i]. *)
Definition save (i : nat) (d : Doc) : M (list Doc) unit :=
  if decide (valid d)
  then coll ← get; put (<[i := d]> coll)
  else throw "OTP validation failed".

Definition createOTP (env : Env) (random : nat → nat) (now : Date)
    (email0 purpose0 : string) : M (list Doc) string :=
  let otpLength := or_default (OTP_LENGTH env) 6 in
  let expiryMinutes := or_default (OTP_EXPIRY_MINUTES env) 10 in
  let e := lowercase_trim email0 in
  (* deleteMany({ email, purpose }) *)
  coll ← get;
  put (filter (λ d, ¬ for_pair e purpose0 d) coll);;
  let code := generateOTP random otpLength in
  let expires := (now + expiryMinutes * 60 * 1000)%Z in
  let otpDoc := {| email := e; otp := code; purpose := purpose0;
                   attempts := 0; isUsed := false; expiresAt := expires |} in
  save_new otpDoc;;
  mret code.

Definition verifyOTP (now : Date) (email0 otp0 purpose0 : string)
    : M (list Doc) bool :=
  let e := lowercase_trim email0 in
  coll ← get;
  match list_find (λ d, matches e otp0 purpose0 d ∧ active now d) coll with
  | None =>
      match list_find (matches e otp0 purpose0) coll with
      | Some (_, expiredOTP) =>
          if isUsed expiredOTP
          then throw "OTP has already been used"
          else throw "OTP has expired"
      | None => throw "Invalid OTP"
      end
  | Some (i, otpDoc) =>
      if decide (5 ≤ attempts otpDoc)%Z
      then throw "Too many failed attempts. Please request a new OTP"
      else
        save i (set_isUsed true otpDoc);;
        mret true
  end.

(** [updateOne(filter, { $inc: { attempts: 1 } })]: the first match, no
    validators. *)
Definition incrementAttempts (email0 otp0 purpose0 : string)
    : M (list Doc) unit :=
  let e := lowercase_trim email0 in
  coll ← get;
  match list_find (matches e otp0 purpose0) coll with
  | Some (i, d) => put (<[i := inc_attempts d]> coll)
  | None => mret tt
  end.

End Statics.

(** At most one stored code for each (email, purpose). *)
Definition pair_of (d : Doc) : string * string := (email d, purpose d).

Definition one_per_pair (coll : list Doc) : Prop := NoDup (pair_of <$> coll).

(** Every code whose attempt counter has moved is used or expired. *)
Definition attempted_spent (now : Date) (coll : list Doc) : Prop :=
  ∀ d, d ∈ coll → (0 < attempts d)%Z → ¬ active now d.

End OTP.

(** ** models/User.js *)

(** [bcrypt.hash(data, salt)]. The salt of [bcrypt.genSalt(10)] is random and
    is an input of every operation that saves a user. *)
Class Bcrypt := { bcrypt_hash : string → string → string }.

Record Preferences := { theme : string; timezone : string }.

Global Instance Preferences_eq_dec : EqDecision Preferences.
Proof. solve_decision. Defined.

Definition default_preferences : Preferences :=
  {| theme := "light"; timezone := "UTC" |}.

Module User.

Record Doc := {
  _id : ObjectId;
  name : string;
  email : string;
  password : string;
  avatar : string;
  status : string;
  emailVerified : bool;
  emailVerifiedAt : option Date;
  preferences : Preferences;
  workspaces : list ObjectId
}.

Global Instance Doc_eq_dec : EqDecision Doc.
Proof. solve_decision. Defined.

Definition statuses : list string := ["active"; "inactive"; "pending"].

(** The object literal handed to [new User(...)]: a path is [Some] when the
    literal has that key. *)
Record Init := {
  i_name : option string;
  i_email : option string;
  i_password : option string;
  i_avatar : option string;
  i_preferences : option Preferences;
  i_status : option string;
  i_emailVerified : option bool;
  i_emailVerifiedAt : option Date
}.

(** A document in memory: its value, whether it was ever stored, the paths
    Mongoose tracks as modified, and its position in the collection once it
    is stored. *)
Record Model := {
  doc : Doc;
  isNew : bool;
  modifiedPaths : list string;
  slot : nat
}.

Definition set_password (pw : string) (d : Doc) : Doc :=
  {| _id := _id d; name := name d; email := email d; password := pw;
     avatar := avatar d; status := status d; emailVerified := emailVerified d;
     emailVerifiedAt := emailVerifiedAt d; preferences := preferences d;
     workspaces := workspaces d |}.

Definition set_verified (at_ : Date) (d : Doc) : Doc :=
  {| _id := _id d; name := name d; email := email d; password := password d;
     avatar := avatar d; status := "active"; emailVerified := true;
     emailVerifiedAt := Some at_; preferences := preferences d;
     workspaces := workspaces d |}.

Definition set_workspaces (ws : list ObjectId) (d : Doc) : Doc :=
  {| _id := _id d; name := name d; email := email d; password := password d;
     avatar := avatar d; status := status d; emailVerified := emailVerified d;
     emailVerifiedAt := emailVerifiedAt d; preferences := preferences d;
     workspaces := ws |}.

Definition with_doc (d : Doc) (paths : list string) (m : Model) : Model :=
  {| doc := d; isNew := isNew m; modifiedPaths := modifiedPaths m ++ paths;
     slot := slot m |}.

Definition key {A} (path : string) (o : option A) : list string :=
  match o with Some _ => [path] | None => [] end.

(** [new User(obj)]: schema defaults fill the missing paths, and every path
    set through the constructor of a new document is marked modified. *)
Definition new (id : ObjectId) (o : Init) : Model :=
  {| doc := {| _id := id;
               name := default "" (i_name o);
               email := default "" (i_email o);
               password := default "" (i_password o);
               avatar := default "/images/default-avatar.png" (i_avatar o);
               status := default "pending" (i_status o);
               emailVerified := default false (i_emailVerified o);
               emailVerifiedAt := i_emailVerifiedAt o;
               preferences := default default_preferences (i_preferences o);
               workspaces := [] |};
     isNew := true;
     modifiedPaths :=
       key "name" (i_name o) ++ key "email" (i_email o)
       ++ key "password" (i_password o) ++ key "avatar" (i_avatar o)
       ++ key "preferences" (i_preferences o) ++ key "status" (i_status o)
       ++ key "emailVerified" (i_emailVerified o)
       ++ key "emailVerifiedAt" (i_emailVerifiedAt o);
     slot := 0 |}.

(** A document returned by a query. *)
Definition loaded (i : nat) (d : Doc) : Model :=
  {| doc := d; isNew := false; modifiedPaths := []; slot := i |}.

Definition markModified (path : string) (m : Model) : Model :=
  with_doc (doc m) [path] m.

Definition isModified (path : string) (m : Model) : Prop :=
  path ∈ modifiedPaths m.

Global Instance isModified_dec path m : Decision (isModified path m).
Proof. unfold isModified. apply _. Defined.

(** The unique indexes: [_id] and [email]. *)
Definition clash (d x : Doc) : Prop := _id d = _id x ∨ email d = email x.

Global Instance clash_dec d x : Decision (clash d x).
Proof. unfold clash. apply _. Defined.

(** Schema validation: the required strings and the [status] enumeration. *)
Definition valid (d : Doc) : Prop :=
  name d ≠ "" ∧ email d ≠ "" ∧ password d ≠ "" ∧ status d ∈ statuses.

Global Instance valid_dec d : Decision (valid d).
Proof. unfold valid. apply _. Defined.

Section Methods.
Context {bcrypt : Bcrypt}.

(** [userSchema.pre('save', ...)]. *)
Definition pre_save (salt : string) (m : Model) : Model :=
  if decide (¬ isModified "password" m)
  then m
  else with_doc (set_password (bcrypt_hash (password (doc m)) salt) (doc m)) [] m.

(** [doc.save(options)]: validation unless [validateBeforeSave] is false, the
    pre-save hook, then an insertion for a new document and a write to its
    position otherwise. *)
Definition save (validateBeforeSave : bool) (salt : string) (m : Model)
    : M (list Doc) Model :=
  if decide (validateBeforeSave = true ∧ ¬ valid (doc m))
  then throw "User validation failed"
  else
    let m' := pre_save salt m in
    coll ← get;
    (if isNew m'
     then insertOne clash (doc m')
     else put (<[slot m' := doc m']> coll));;
    mret {| doc := doc m'; isNew := false; modifiedPaths := [];
            slot := if isNew m' then length coll else slot m' |}.

Definition create (salt : string) (id : ObjectId) (o : Init)
    : M (list Doc) Model :=
  save true salt (new id o).

End Methods.

Definition findOne (email0 : string) : M (list Doc) (option Model) :=
  coll ← get;
  mret (match list_find (λ d, email d = email0) coll with
        | Some (i, d) => Some (loaded i d)
        | None => None
        end).

Definition findById (id : ObjectId) : M (list Doc) (option Model) :=
  coll ← get;
  mret (match list_find (λ d, _id d = id) coll with
        | Some (i, d) => Some (loaded i d)
        | None => None
        end).

Definition findByIdAndDelete (id : ObjectId) : M (list Doc) unit :=
  coll ← get;
  match list_find (λ d, _id d = id) coll with
  | Some (i, _) => put (delete i coll)
  | None => mret tt
  end.

(** [findByIdAndUpdate(id, { $pull: { workspaces: w } })], for an [id]
    that is an ObjectId as stored. *)
Definition pullWorkspace (id w : ObjectId) : M (list Doc) unit :=
  coll ← get;
  match list_find (λ d, _id d = id) coll with
  | Some (i, d) =>
      put (<[i := set_workspaces (filter (λ x, x ≠ w) (workspaces d)) d]> coll)
  | None => mret tt
  end.

End User.

(** ** models/Workspace.js *)

Module Workspace.

Record Member := { user : ObjectId; role : string }.

Global Instance Member_eq_dec : EqDecision Member.
Proof. solve_decision. Defined.

(** The paths the lifecycle reads; colour, icon, spaces and settings are
    never touched by it and are left out. The schema has no [joinedAt] path,
    so that key of a pushed member is dropped. *)
Record Doc := {
  _id : ObjectId;
  name : string;
  description : string;
  owner : ObjectId;
  members : list Member
}.

Global Instance Doc_eq_dec : EqDecision Doc.
Proof. solve_decision. Defined.

Definition roles : list string := ["admin"; "member"; "guest"].

Definition set_members (ms : list Member) (d : Doc) : Doc :=
  {| _id := _id d; name := name d; description := description d;
     owner := owner d; members := ms |}.

Definition valid (d : Doc) : Prop :=
  name d ≠ "" ∧ Forall (λ m, role m ∈ roles) (members d).

Global Instance valid_dec d : Decision (valid d).
Proof. unfold valid. apply _. Defined.

Definition clash (d x : Doc) : Prop := _id d = _id x.

Global Instance clash_dec d x : Decision (clash d x).
Proof. unfold clash. apply _. Defined.

Definition create (d : Doc) : M (list Doc) Doc :=
  if decide (valid d)
  then insertOne clash d;; mret d
  else throw "Workspace validation failed".

(** [workspace.save()] on a loaded workspace. *)
Definition save (i : nat) (d : Doc) : M (list Doc) unit :=
  if decide (valid d)
  then coll ← get; put (<[i := d]> coll)
  else throw "Workspace validation failed".

Definition findById (id : ObjectId) : M (list Doc) (option (nat * Doc)) :=
  coll ← get; mret (list_find (λ d, _id d = id) coll).

Definition findByIdAndDelete (id : ObjectId) : M (list Doc) unit :=
  coll ← get;
  match list_find (λ d, _id d = id) coll with
  | Some (i, _) => put (delete i coll)
  | None => mret tt
  end.

End Workspace.

(** ** models/TeamInvitation.js *)

Module TeamInvitation.

Inductive Status := pending | accepted | declined | expired.

Global Instance Status_eq_dec : EqDecision Status.
Proof. solve_decision. Defined.

Record Metadata := {
  inviterName : string;
  workspaceName : string;
  personalMessage : string
}.

Global Instance Metadata_eq_dec : EqDecision Metadata.
Proof. solve_decision. Defined.

Record Doc := {
  _id : ObjectId;
  email : string;
  workspaceId : ObjectId;
  invitedBy : ObjectId;
  role : string;
  token : string;
  status : Status;
  acceptedBy : option ObjectId;
  acceptedAt : option Date;
  expiresAt : Date;
  metadata : Metadata
}.

Global Instance Doc_eq_dec : EqDecision Doc.
Proof. solve_decision. Defined.

Definition roles : list string := ["member"; "manager"; "admin"].

Definition set_status (s : Status) (d : Doc) : Doc :=
  {| _id := _id d; email := email d; workspaceId := workspaceId d;
     invitedBy := invitedBy d; role := role d; token := token d; status := s;
     acceptedBy := acceptedBy d; acceptedAt := acceptedAt d;
     expiresAt := expiresAt d; metadata := metadata d |}.

Definition set_accepted (userId : ObjectId) (at_ : Date) (d : Doc) : Doc :=
  {| _id := _id d; email := email d; workspaceId := workspaceId d;
     invitedBy := invitedBy d; role := role d; token := token d;
     status := accepted; acceptedBy := Some userId; acceptedAt := Some at_;
     expiresAt := expiresAt d; metadata := metadata d |}.

(** The argument of [createInvitation]. *)
Record InvitationData := {
  d_email : string;
  d_workspaceId : ObjectId;
  d_invitedBy : ObjectId;
  d_role : option string;
  d_inviterName : string;
  d_workspaceName : string;
  d_personalMessage : string
}.

(** Query filters. *)
Definition pending_for (e : string) (w : ObjectId) (now : Date) (d : Doc) : Prop :=
  email d = e ∧ workspaceId d = w ∧ status d = pending ∧ (now < expiresAt d)%Z.

Definition valid_token (t : string) (now : Date) (d : Doc) : Prop :=
  token d = t ∧ status d = pending ∧ (now < expiresAt d)%Z.

Global Instance pending_for_dec e w now d : Decision (pending_for e w now d).
Proof. unfold pending_for. apply _. Defined.
Global Instance valid_token_dec t now d : Decision (valid_token t now d).
Proof. unfold valid_token. apply _. Defined.

(** The unique indexes: [_id] and [token]. *)
Definition clash (d x : Doc) : Prop := _id d = _id x ∨ token d = token x.

Global Instance clash_dec d x : Decision (clash d x).
Proof. unfold clash. apply _. Defined.

(** Schema validation of a loaded document: the required [email] and
    [token] and the [role] enumeration. Its [workspaceId], [invitedBy] and
    [expiresAt] were validated when the document was created ([valid_new]
    below) and no operation assigns them again. *)
Definition valid (d : Doc) : Prop :=
  email d ≠ "" ∧ role d ∈ roles ∧ token d ≠ "".

Global Instance valid_dec d : Decision (valid d).
Proof. unfold valid. apply _. Defined.

(** The validation of a new document: with the above, the required
    [workspaceId] and [invitedBy] and the required [expiresAt], a [Date]. *)
Definition valid_new (d : Doc) : Prop :=
  valid d ∧ workspaceId d ≠ "" ∧ invitedBy d ≠ "" ∧ valid_date (expiresAt d).

Global Instance valid_new_dec d : Decision (valid_new d).
Proof. unfold valid_new. apply _. Defined.

Section Statics.
Context {setters : SchemaSetters} {ids : ObjectIdCast}.

(** The cast of an ObjectId member of a query filter. An absent member is
    left as it is and selects the documents without the path; a string that
    spells no ObjectId makes the query throw a CastError. *)
Definition cast_filter (id : string) : option ObjectId :=
  if decide (id = "") then Some "" else castObjectId id.

(** The cast of an ObjectId path of a new document. An absent value and a
    string that spells no ObjectId leave the path unset, for the validation
    of [save] to refuse. *)
Definition cast_path (id : string) : ObjectId :=
  default "" (cast_filter id).

(** [generated_token] is the value of [generateToken()], 32 random bytes in
    hexadecimal, and [new_id] the [_id] Mongoose gives the new document. *)
Definition createInvitation (env : Env) (now : Date)
    (generated_token : string) (new_id : ObjectId)
    (invitationData : InvitationData) : M (list Doc) Doc :=
  let e := lowercase_trim (d_email invitationData) in
  let role0 := default "member" (d_role invitationData) in
  let expiryHours := or_default (INVITATION_EXPIRY_HOURS env) 72 in
  let expires := (now + expiryHours * 60 * 60 * 1000)%Z in
  match cast_filter (d_workspaceId invitationData) with
  | None => throw "Cast to ObjectId failed"
  | Some w =>
      coll ← get;
      match list_find (pending_for e w now) coll with
      | Some _ =>
          throw "An invitation has already been sent to this email for this workspace"
      | None =>
          let invitation :=
            {| _id := new_id; email := e; workspaceId := w;
               invitedBy := cast_path (d_invitedBy invitationData); role := role0;
               token := generated_token; status := pending;
               acceptedBy := None; acceptedAt := None; expiresAt := expires;
               metadata := {| inviterName := d_inviterName invitationData;
                              workspaceName := d_workspaceName invitationData;
                              personalMessage := d_personalMessage invitationData |} |} in
          (if decide (valid_new invitation)
           then insertOne clash invitation
           else throw "TeamInvitation validation failed");;
          mret invitation
      end
  end.

End Statics.

(** [findByToken]; the populated references are read by the callers from
    their own collections. *)
Definition findByToken (now : Date) (t : string) : M (list Doc) (nat * Doc) :=
  coll ← get;
  match list_find (valid_token t now) coll with
  | None => throw "Invalid or expired invitation"
  | Some invitation => mret invitation
  end.

(** [this.save()] on the loaded invitation at position [i]. *)
Definition save (i : nat) (d : Doc) : M (list Doc) unit :=
  if decide (valid d)
  then coll ← get; put (<[i := d]> coll)
  else throw "TeamInvitation validation failed".

(** The instance methods, on a loaded invitation [(i, this)]. *)
Definition accept (now : Date) (i : nat) (this : Doc) (userId : ObjectId)
    : M (list Doc) Doc :=
  if decide (status this ≠ pending)
  then throw "Invitation is no longer pending"
  else if decide (expiresAt this < now)%Z
  then
    save i (set_status expired this);;
    throw "Invitation has expired"
  else
    let this' := set_accepted userId now this in
    save i this';;
    mret this'.

Definition decline (i : nat) (this : Doc) : M (list Doc) Doc :=
  if decide (status this ≠ pending)
  then throw "Invitation is no longer pending"
  else
    let this' := set_status declined this in
    save i this';;
    mret this'.

Definition findByIdAndDelete (id : ObjectId) : M (list Doc) unit :=
  coll ← get;
  match list_find (λ d, _id d = id) coll with
  | Some (i, _) => put (delete i coll)
  | None => mret tt
  end.

(** [cleanupExpired]: [updateMany] turns every pending invitation past its
    expiry into an expired one, without validation; the result is
    [modifiedCount]. *)
Definition overdue (now : Date) (d : Doc) : Prop :=
  status d = pending ∧ (expiresAt d < now)%Z.

Global Instance overdue_dec now d : Decision (overdue now d).
Proof. unfold overdue. apply _. Defined.

Definition cleanupExpired (now : Date) : M (list Doc) nat :=
  coll ← get;
  put ((λ d, if decide (overdue now d) then set_status expired d else d) <$> coll);;
  mret (length (filter (overdue now) coll)).

(** [getStats]: [new mongoose.Types.ObjectId(workspaceId)] on the string
    the route passes, which throws a BSONError when the string spells no
    ObjectId; the [$match] on the workspace, the [$group] by status with its
    count (one group for each status that occurs), and the loop that writes
    the groups into the object of zeros. *)
Record Stats := {
  n_pending : nat;
  n_accepted : nat;
  n_declined : nat;
  n_expired : nat
}.

Definition set_stat (result : Stats) (stat : Status * nat) : Stats :=
  match stat.1 with
  | pending =>
      {| n_pending := stat.2; n_accepted := n_accepted result;
         n_declined := n_declined result; n_expired := n_expired result |}
  | accepted =>
      {| n_pending := n_pending result; n_accepted := stat.2;
         n_declined := n_declined result; n_expired := n_expired result |}
  | declined =>
      {| n_pending := n_pending result; n_accepted := n_accepted result;
         n_declined := stat.2; n_expired := n_expired result |}
  | expired =>
      {| n_pending := n_pending result; n_accepted := n_accepted result;
         n_declined := n_declined result; n_expired := stat.2 |}
  end.

Definition aggregate (w : ObjectId) (coll : list Doc) : list (Status * nat) :=
  let matched := filter (λ d, workspaceId d = w) coll in
  filter (λ stat, stat.2 ≠ 0)
    ((λ s, (s, length (filter (λ d, status d = s) matched)))
       <$> [pending; accepted; declined; expired]).

Definition getStats {ids : ObjectIdCast} (workspaceId0 : string)
    : M (list Doc) Stats :=
  match castObjectId workspaceId0 with
  | None =>
      throw "input must be a 24 character hex string, 12 byte Uint8Array, or an integer"
  | Some w =>
      coll ← get;
      let stats := aggregate w coll in
      let result := {| n_pending := 0; n_accepted := 0;
                       n_declined := 0; n_expired := 0 |} in
      mret (foldl set_stat result stats)
  end.

(** At most one pending, unexpired invitation for each (email, workspace). *)
Definition one_live_per_pair (now : Date) (coll : list Doc) : Prop :=
  ∀ i j d1 d2, coll !! i = Some d1 → coll !! j = Some d2 →
    email d1 = email d2 → workspaceId d1 = workspaceId d2 →
    status d1 = pending → status d2 = pending →
    (now < expiresAt d1)%Z → (now < expiresAt d2)%Z → i = j.

End TeamInvitation.

(** ** models/TemporaryUser.js *)

Module TemporaryUser.

Record Doc := {
  name : string;
  email : string;
  password : string;
  avatar : string;
  preferences : Preferences;
  expiresAt : Date
}.

Global Instance Doc_eq_dec : EqDecision Doc.
Proof. solve_decision. Defined.

Section Statics.
Context {setters : SchemaSetters} {bcrypt : Bcrypt}.

(** [promoteToUser] works on the pending registrations and, through
    [mongoose.model('User')], on the accounts. *)
Definition promoteToUser (now : Date) (salt : string) (new_id : ObjectId)
    (email0 : string) : M (list Doc * list User.Doc) User.Model :=
  let e := lowercase_trim email0 in
  found ← zoom fst (λ c s, (c, s.2)) get;
  match list_find (λ t, email t = e) found with
  | None => throw "Temporary user not found"
  | Some (_, tempUser) =>
      let userData :=
        {| User.i_name := Some (name tempUser);
           User.i_email := Some (email tempUser);
           User.i_password := Some (password tempUser);
           User.i_avatar := Some (avatar tempUser);
           User.i_preferences := Some (preferences tempUser);
           User.i_status := Some "active";
           User.i_emailVerified := Some true;
           User.i_emailVerifiedAt := Some now |} in
      let user := User.new new_id userData in
      let user := User.markModified "name" user in
      let user := User.markModified "email" user in
      let user := User.markModified "avatar" user in
      let user := User.markModified "preferences" user in
      let user := User.markModified "status" user in
      let user := User.markModified "emailVerified" user in
      let user := User.markModified "emailVerifiedAt" user in
      user ← zoom snd (λ c s, (s.1, c)) (User.save false salt user);
      (* deleteOne({ email }) *)
      zoom fst (λ c s, (c, s.2))
        (coll ← get;
         match list_find (λ t, email t = e) coll with
         | Some (i, _) => put (delete i coll)
         | None => mret tt
         end);;
      mret user
  end.

(** The argument of [createTemporaryUser]. *)
Record UserData := {
  u_name : string;
  u_email : string;
  u_password : string;
  u_avatar : option string;
  u_preferences : option Preferences;
  u_expiresAt : option Date
}.

(** Schema validation: the required strings. *)
Definition valid (d : Doc) : Prop :=
  name d ≠ "" ∧ email d ≠ "" ∧ password d ≠ "".

Global Instance valid_dec d : Decision (valid d).
Proof. unfold valid. apply _. Defined.

(** The unique index on [email]. *)
Definition clash (d x : Doc) : Prop := email d = email x.

Global Instance clash_dec d x : Decision (clash d x).
Proof. unfold clash. apply _. Defined.

(** [createTemporaryUser]. The document is new, so its password counts as
    modified and the pre-save hook hashes it; [expiresAt] defaults to
    [Date.now]; [email] is uniquely indexed. *)
Definition createTemporaryUser (now : Date) (salt : string)
    (userData : UserData) : M (list Doc) Doc :=
  let e := lowercase_trim (u_email userData) in
  (* deleteMany({ email: userData.email }) *)
  coll ← get;
  put (filter (λ t, email t ≠ e) coll);;
  let tempUser :=
    {| name := u_name userData; email := e; password := u_password userData;
       avatar := default "/images/default-avatar.png" (u_avatar userData);
       preferences := default default_preferences (u_preferences userData);
       expiresAt := default now (u_expiresAt userData) |} in
  if decide (valid tempUser)
  then
    let stored :=
      {| name := name tempUser; email := email tempUser;
         password := bcrypt_hash (password tempUser) salt;
         avatar := avatar tempUser; preferences := preferences tempUser;
         expiresAt := expiresAt tempUser |} in
    insertOne clash stored;;
    mret stored
  else throw "TemporaryUser validation failed".

End Statics.

End TemporaryUser.

(** ** utils/cleanup.js *)

Module Cleanup.

Section Functions.
Context {setters : SchemaSetters}.

(** [cleanupExpiredData], on the pending registrations and the codes. Its
    [catch] only logs. *)
Definition cleanupExpiredData (now : Date)
    : M (list TemporaryUser.Doc * list OTP.Doc) unit :=
  try_catch
    (temps ← zoom fst (λ c s, (c, s.2)) get;
     let expiredTempUsers :=
       filter (λ t, (TemporaryUser.expiresAt t < now)%Z) temps in
     (if decide (0 < length expiredTempUsers)
      then
        let expiredEmails := TemporaryUser.email <$> expiredTempUsers in
        zoom fst (λ c s, (c, s.2))
          (put (filter (λ t, ¬ (TemporaryUser.expiresAt t < now)%Z) temps));;
        zoom snd (λ c s, (s.1, c))
          (coll ← get;
           put (filter (λ d, ¬ (OTP.email d ∈ lowercase_trim <$> expiredEmails
                                ∧ OTP.purpose d = "email_verification")) coll))
      else mret tt);;
     zoom snd (λ c s, (s.1, c))
       (coll ← get;
        put (filter (λ d, ¬ (OTP.expiresAt d < now)%Z) coll)))
    (λ _, mret tt).

(** [cleanupUserData]. *)
Definition cleanupUserData (email0 : string)
    : M (list TemporaryUser.Doc * list OTP.Doc) unit :=
  let e := lowercase_trim email0 in
  try_catch
    (zoom fst (λ c s, (c, s.2))
       (coll ← get; put (filter (λ t, TemporaryUser.email t ≠ e) coll));;
     zoom snd (λ c s, (s.1, c))
       (coll ← get;
        put (filter (λ d, ¬ OTP.for_pair e "email_verification" d) coll)))
    (λ _, mret tt).

End Functions.

End Cleanup.

(** ** The database and the request context *)

Record DB := {
  otps : list OTP.Doc;
  users : list User.Doc;
  workspaces : list Workspace.Doc;
  invitations : list TeamInvitation.Doc
}.

(** What a handler works on: the database and [res.statusCode]. A thrown
    error reaches the error middleware, which answers with that status and
    the error's message. *)
Record Ctx := { db : DB; statusCode : Z }.

Definition set_otps (c : list OTP.Doc) (s : Ctx) : Ctx :=
  {| db := {| otps := c; users := users (db s);
              workspaces := workspaces (db s);
              invitations := invitations (db s) |};
     statusCode := statusCode s |}.

Definition set_users (c : list User.Doc) (s : Ctx) : Ctx :=
  {| db := {| otps := otps (db s); users := c;
              workspaces := workspaces (db s);
              invitations := invitations (db s) |};
     statusCode := statusCode s |}.

Definition set_workspaces (c : list Workspace.Doc) (s : Ctx) : Ctx :=
  {| db := {| otps := otps (db s); users := users (db s);
              workspaces := c;
              invitations := invitations (db s) |};
     statusCode := statusCode s |}.

Definition set_invitations (c : list TeamInvitation.Doc) (s : Ctx) : Ctx :=
  {| db := {| otps := otps (db s); users := users (db s);
              workspaces := workspaces (db s);
              invitations := c |};
     statusCode := statusCode s |}.

Definition onOTPs {A} : M (list OTP.Doc) A → M Ctx A :=
  zoom (λ s, otps (db s)) set_otps.
Definition onUsers {A} : M (list User.Doc) A → M Ctx A :=
  zoom (λ s, users (db s)) set_users.
Definition onWorkspaces {A} : M (list Workspace.Doc) A → M Ctx A :=
  zoom (λ s, workspaces (db s)) set_workspaces.
Definition onInvitations {A} : M (list TeamInvitation.Doc) A → M Ctx A :=
  zoom (λ s, invitations (db s)) set_invitations.

(** [res.status(code)]. *)
Definition res_status (code : Z) : M Ctx unit :=
  λ s, (Ok tt, {| db := db s; statusCode := code |}).

(** [throw new AppError(message, code)]: the error middleware answers with
    the error's own status. *)
Definition AppError {A} (message : string) (code : Z) : M Ctx A :=
  res_status code;; throw message.

(** The body of a successful answer; its [data] member repeats fields of the
    stored documents and is left out. *)
Record Reply := { success : bool; message : string }.

(** What the email service returns. *)
Module Email.
Record Result := { success : bool }.
End Email.

(** ** services/emailService.js

    Each sender builds its message and hands it to the transport inside a
    [try]; [transport] is the outcome of that body, the message id or the
    error of [createTransport] or [sendMail]. *)

Module EmailService.

Definition sendOTPEmail (transport : result string) : result Email.Result :=
  match transport with
  | Ok _ => Ok {| Email.success := true |}
  | Throw _ => Ok {| Email.success := false |}
  end.

Definition sendTeamInvitationEmail (transport : result string)
    : result Email.Result :=
  match transport with
  | Ok _ => Ok {| Email.success := true |}
  | Throw _ => Ok {| Email.success := false |}
  end.

End EmailService.

(** [bcrypt.compare(data, hash)]. *)
Class BcryptCompare := { bcrypt_compare : string → string → bool }.

(** ** controllers/authController.js *)

Module AuthController.

Record RegisterBody := { name : string; email : string; password : string }.
Record VerifyBody := { v_email : string; v_otp : string }.

Section Handlers.
Context {setters : SchemaSetters} {bcrypt : Bcrypt}.

(** [sendOTPEmail] is the outcome of the call to the email service. *)
Definition registerUser (env : Env) (random : nat → nat) (now : Date)
    (salt : string) (new_id : ObjectId) (sendOTPEmail : result Email.Result)
    (body : RegisterBody) : M Ctx Reply :=
  if decide (name body = "" ∨ email body = "" ∨ password body = "")
  then res_status 400;; throw "Please provide name, email, and password"
  else if decide (String.length (password body) < 6)
  then res_status 400;; throw "Password must be at least 6 characters long"
  else
    userExists ← onUsers (User.findOne (email body));
    match userExists with
    | Some u =>
        if User.emailVerified (User.doc u)
        then res_status 400;; throw "User already exists with this email"
        else onUsers (User.findByIdAndDelete (User._id (User.doc u)))
    | None => mret tt
    end;;
    user ← onUsers (User.create salt new_id
              {| User.i_name := Some (name body);
                 User.i_email := Some (email body);
                 User.i_password := Some (password body);
                 User.i_avatar := None;
                 User.i_preferences := None;
                 User.i_status := Some "pending";
                 User.i_emailVerified := Some false;
                 User.i_emailVerifiedAt := None |});
    try_catch
      (otp ← onOTPs (OTP.createOTP env random now (email body) "email_verification");
       emailResult ← call sendOTPEmail;
       (* a failed delivery is only logged *)
       res_status 201;;
       mret {| success := true;
               message := "Registration successful. Please check your email for verification code." |})
      (λ error,
         onUsers (User.findByIdAndDelete (User._id (User.doc user)));;
         res_status 500;;
         throw "Failed to send verification email. Please try again.").

(** [new_workspace_id] is the [_id] of the default workspace; the welcome
    email is sent inside its own [try] and cannot change the outcome. *)
Definition verifyEmail (now : Date) (salt : string) (new_workspace_id : ObjectId)
    (body : VerifyBody) : M Ctx Reply :=
  let email := v_email body in
  let otp := v_otp body in
  if decide (email = "" ∨ otp = "")
  then res_status 400;; throw "Please provide email and OTP"
  else
    try_catch
      (onOTPs (OTP.verifyOTP now email otp "email_verification");;
       found ← onUsers (User.findOne email);
       match found with
       | None => res_status 404;; throw "User not found"
       | Some user =>
           if User.emailVerified (User.doc user)
           then res_status 400;; throw "Email is already verified"
           else
             let user :=
               User.with_doc (User.set_verified now (User.doc user))
                 ["emailVerified"; "emailVerifiedAt"; "status"] user in
             user ← onUsers (User.save true salt user);
             workspace ← onWorkspaces (Workspace.create
               {| Workspace._id := new_workspace_id;
                  Workspace.name := User.name (User.doc user) +:+ "'s Workspace";
                  Workspace.description := "Your personal workspace";
                  Workspace.owner := User._id (User.doc user);
                  Workspace.members :=
                    [{| Workspace.user := User._id (User.doc user);
                        Workspace.role := "admin" |}] |});
             let user :=
               User.with_doc
                 (User.set_workspaces
                    (User.workspaces (User.doc user) ++ [Workspace._id workspace])
                    (User.doc user))
                 ["workspaces"] user in
             onUsers (User.save true salt user);;
             mret {| success := true; message := "Email verified successfully" |}
       end)
      (λ error,
         try_catch
           (onOTPs (OTP.incrementAttempts email otp "email_verification"))
           (λ _, mret tt);;
         res_status 400;;
         throw error).

(** [authUser]; the [populate] of the workspaces only reads, and
    [generateToken] is the outcome of the call that signs the token of the
    reply. [password0] is the password of a body that holds one: without
    one [bcrypt.compare] throws. *)
Definition authUser `{BcryptCompare} (generateToken : result string)
    (email0 password0 : string) : M Ctx Reply :=
  found ← onUsers (User.findOne email0);
  match found with
  | None => res_status 401;; throw "Invalid email or password"
  | Some user =>
      if negb (User.emailVerified (User.doc user))
      then res_status 401;;
           throw "Please verify your email address before logging in"
      else
        (* user.matchPassword(password) *)
        let isMatch := bcrypt_compare password0 (User.password (User.doc user)) in
        if isMatch
        then
          token ← call generateToken;
          mret {| success := true; message := "" |}
        else res_status 401;; throw "Invalid email or password"
  end.

(** [resendOTP]; [sendOTPEmail] is the outcome of the call to the email
    service. *)
Definition resendOTP (env : Env) (random : nat → nat) (now : Date)
    (sendOTPEmail : result Email.Result) (email0 : string) : M Ctx Reply :=
  if decide (email0 = "")
  then res_status 400;; throw "Please provide email address"
  else
    found ← onUsers (User.findOne email0);
    match found with
    | None => res_status 404;; throw "User not found"
    | Some user =>
        if User.emailVerified (User.doc user)
        then res_status 400;; throw "Email is already verified"
        else
          try_catch
            (otp ← onOTPs (OTP.createOTP env random now email0 "email_verification");
             emailResult ← call sendOTPEmail;
             if Email.success emailResult
             then mret {| success := true;
                          message := "OTP sent successfully to your email address" |}
             else res_status 500;; throw "Failed to send OTP email")
            (λ error,
               res_status 500;;
               throw (if decide (error = "") then "Failed to resend OTP" else error))
    end.

End Handlers.

End AuthController.

(** ** routes/auth.js *)

Module AuthRoutes.

Inductive Request :=
| login (email password : string)
| register (body : AuthController.RegisterBody)
| verify_email (body : AuthController.VerifyBody)
| resend_otp (email : string).

(** What a request meets outside the database: the clock, the random draws
    of the code, the salt of bcrypt, the [_id] given to a new document, and
    the outcomes of the email service and of [generateToken]. *)
Record World := {
  now : Date;
  random : nat → nat;
  salt : string;
  new_id : ObjectId;
  sendOTPEmail : result Email.Result;
  generateToken : result string
}.

Section Router.
Context {setters : SchemaSetters} {bcrypt : Bcrypt} {compare : BcryptCompare}.

Definition handle (env : Env) (w : World) (req : Request) : M Ctx Reply :=
  match req with
  | login email password =>
      AuthController.authUser (generateToken w) email password
  | register body =>
      AuthController.registerUser env (random w) (now w) (salt w) (new_id w)
        (sendOTPEmail w) body
  | verify_email body =>
      AuthController.verifyEmail (now w) (salt w) (new_id w) body
  | resend_otp email =>
      AuthController.resendOTP env (random w) (now w) (sendOTPEmail w) email
  end.

(** Requests served one after the other, each with a response object of its
    own, whose status is 200 until the handler sets it. *)
Fixpoint serve (env : Env) (reqs : list (World * Request)) (ctx : Ctx)
    : list (result Reply) * Ctx :=
  match reqs with
  | [] => ([], ctx)
  | (w, req) :: rest =>
      let '(r, ctx') := handle env w req {| db := db ctx; statusCode := 200 |} in
      let '(rs, ctx'') := serve env rest ctx' in
      (r :: rs, ctx'')
  end.

End Router.

(** The clock does not run backwards from one request to the next. *)
Fixpoint chronological (t : Date) (reqs : list (World * Request)) : Prop :=
  match reqs with
  | [] => True
  | (w, _) :: rest => (t ≤ now w)%Z ∧ chronological (now w) rest
  end.

End AuthRoutes.

(** ** controllers/invitationController.js *)

Module InvitationController.

Record SendBody := {
  email : string;
  workspaceId : ObjectId;
  role : option string;
  personalMessage : string
}.

Section Handlers.
Context {setters : SchemaSetters} {strings : StringOps} {bcrypt : Bcrypt}
  {ids : ObjectIdCast}.

(** [reqUser] is [req.user], the authenticated account;
    [sendTeamInvitationEmail] is the outcome of the call to the email
    service. [Workspace.findById] casts the string of the body; its
    CastError is thrown before any status is set. *)
Definition sendInvitation (env : Env) (now : Date) (generated_token : string)
    (new_id : ObjectId) (sendTeamInvitationEmail : result Email.Result)
    (reqUser : User.Doc) (body : SendBody) : M Ctx Reply :=
  let role0 := default "member" (role body) in
  let inviterId := User._id reqUser in
  if decide (email body = "" ∨ workspaceId body = "")
  then res_status 400;; throw "Please provide email and workspace ID"
  else
    found ← match castObjectId (workspaceId body) with
            | None => throw "Cast to ObjectId failed"
            | Some w => onWorkspaces (Workspace.findById w)
            end;
    match found with
    | None => res_status 404;; throw "Workspace not found"
    | Some (_, workspace) =>
        match list_find (λ m, Workspace.user m = inviterId)
                (Workspace.members workspace) with
        | None => res_status 403;; throw "You are not a member of this workspace"
        | Some (_, userMembership) =>
            if decide (Workspace.role userMembership ∉ ["admin"; "manager"])
            then res_status 403;;
                 throw "You do not have permission to invite members to this workspace"
            else if decide (toLowerCase (email body) = toLowerCase (User.email reqUser))
            then res_status 400;; throw "You cannot invite yourself"
            else
              existingUser ← onUsers (User.findOne (toLowerCase (email body)));
              match existingUser with
              | Some u =>
                  if decide (Exists (λ m, Workspace.user m = User._id (User.doc u))
                               (Workspace.members workspace))
                  then res_status 400;;
                       throw "User is already a member of this workspace"
                  else mret tt
              | None => mret tt
              end;;
              try_catch
                (invitation ← onInvitations
                   (TeamInvitation.createInvitation env now generated_token new_id
                      {| TeamInvitation.d_email := toLowerCase (email body);
                         TeamInvitation.d_workspaceId := workspaceId body;
                         TeamInvitation.d_invitedBy := inviterId;
                         TeamInvitation.d_role := Some role0;
                         TeamInvitation.d_inviterName := User.name reqUser;
                         TeamInvitation.d_workspaceName := Workspace.name workspace;
                         TeamInvitation.d_personalMessage := personalMessage body |});
                 emailResult ← call sendTeamInvitationEmail;
                 if Email.success emailResult
                 then res_status 201;;
                      mret {| success := true;
                              message := "Invitation sent successfully" |}
                 else
                   onInvitations
                     (TeamInvitation.findByIdAndDelete (TeamInvitation._id invitation));;
                   res_status 500;;
                   throw "Failed to send invitation email")
                (λ error, res_status 400;; throw error)
        end
    end.

(** [userId] is the optional member of the request body. *)
Definition acceptInvitation (now : Date) (salt : string) (token : string)
    (userId : ObjectId) : M Ctx Reply :=
  if decide (token = "")
  then res_status 400;; throw "Invitation token is required"
  else
    try_catch
      ('(i, invitation) ← onInvitations (TeamInvitation.findByToken now token);
       user ← (if decide (userId ≠ "")
               then
                 found ← onUsers (User.findById userId);
                 match found with
                 | None => res_status 404;; throw "User not found"
                 | Some user =>
                     if decide (toLowerCase (User.email (User.doc user))
                                ≠ toLowerCase (TeamInvitation.email invitation))
                     then res_status 403;;
                          throw "This invitation is not for your email address"
                     else mret user
                 end
               else
                 found ← onUsers (User.findOne (TeamInvitation.email invitation));
                 match found with
                 | None => res_status 400;;
                           throw "Please register or login first to accept this invitation"
                 | Some user => mret user
                 end);
       if negb (User.emailVerified (User.doc user))
       then res_status 400;;
            throw "Please verify your email address before accepting invitations"
       else
         invitation ← onInvitations
           (TeamInvitation.accept now i invitation (User._id (User.doc user)));
         found ← onWorkspaces
           (Workspace.findById (TeamInvitation.workspaceId invitation));
         match found with
         | None => throw "Cannot read properties of null (reading 'members')"
         | Some (j, workspace) =>
             let workspace :=
               Workspace.set_members
                 (Workspace.members workspace
                  ++ [{| Workspace.user := User._id (User.doc user);
                         Workspace.role := TeamInvitation.role invitation |}])
                 workspace in
             onWorkspaces (Workspace.save j workspace);;
             (if decide (Workspace._id workspace ∉ User.workspaces (User.doc user))
              then
                onUsers (User.save true salt
                  (User.with_doc
                     (User.set_workspaces
                        (User.workspaces (User.doc user) ++ [Workspace._id workspace])
                        (User.doc user))
                     ["workspaces"] user));;
                mret tt
              else mret tt);;
             mret {| success := true;
                     message := "Invitation accepted successfully" |}
         end)
      (λ error, res_status 400;; throw error).

Definition declineInvitation (now : Date) (token : string) : M Ctx Reply :=
  if decide (token = "")
  then res_status 400;; throw "Invitation token is required"
  else
    try_catch
      ('(i, invitation) ← onInvitations (TeamInvitation.findByToken now token);
       onInvitations (TeamInvitation.decline i invitation);;
       mret {| success := true; message := "Invitation declined successfully" |})
      (λ error, res_status 400;; throw error).

End Handlers.

End InvitationController.

(** ** routes/workspaces.js *)

(** The checks of express-validator the routes use: [isEmail] and the
    sanitizer [normalizeEmail]. *)
Class Validator := { isEmail : string → bool; normalizeEmail : string → string }.

Module WorkspaceRoutes.

(** [DELETE /:id/members/:userId]; [reqUserId] is [req.user._id]. The
    [catch] hands the error to the error middleware unchanged. The route
    parameters [id] and [userId] are ObjectIds as stored: the casts of
    [findById] and [findByIdAndUpdate] are left out. *)
Definition removeMember (reqUserId : ObjectId) (id userId : string)
    : M Ctx Reply :=
  try_catch
    (found ← onWorkspaces (Workspace.findById id);
     match found with
     | None => AppError "Workspace not found" 404
     | Some (i, workspace) =>
         let isOwner := bool_decide (Workspace.owner workspace = reqUserId) in
         let isAdmin :=
           bool_decide (Exists (λ m, Workspace.user m = reqUserId
                                     ∧ Workspace.role m = "admin")
                          (Workspace.members workspace)) in
         let isRemovingSelf := bool_decide (userId = reqUserId) in
         if negb isOwner && negb isAdmin && negb isRemovingSelf
         then AppError "Access denied" 403
         else if decide (Workspace.owner workspace = userId)
         then AppError "Cannot remove workspace owner" 400
         else
           let workspace :=
             Workspace.set_members
               (filter (λ m, Workspace.user m ≠ userId) (Workspace.members workspace))
               workspace in
           onWorkspaces (Workspace.save i workspace);;
           onUsers (User.pullWorkspace userId (Workspace._id workspace));;
           mret {| success := true; message := "Member removed successfully" |}
     end)
    (λ error, throw error).

(** [DELETE /:id], the handler behind the [roleCheck] middleware. The
    workspace is deleted and nothing else: the accounts keep their link to
    it and its invitations stay stored. *)
Definition deleteWorkspace (reqUserId : ObjectId) (id : string) : M Ctx Reply :=
  try_catch
    (found ← onWorkspaces (Workspace.findById id);
     match found with
     | None => AppError "Workspace not found" 404
     | Some (_, workspace) =>
         if decide (Workspace.owner workspace ≠ reqUserId)
         then AppError "Only workspace owner can delete workspace" 403
         else
           onWorkspaces (Workspace.findByIdAndDelete id);;
           mret {| success := true; message := "Workspace deleted successfully" |}
     end)
    (λ error, throw error).

(** [workspace.members.some(member => member.user._id.equals(...) && ...)]
    on the members populated from [accounts]: a member whose account is
    missing is populated as [null], and reading its [_id] throws. *)
Fixpoint some_populated (accounts : list User.Doc) (test : Workspace.Member → bool)
    (members : list Workspace.Member) : result bool :=
  match members with
  | [] => Ok false
  | member :: rest =>
      if decide (Exists (λ u, User._id u = Workspace.user member) accounts)
      then if test member then Ok true else some_populated accounts test rest
      else Throw "Cannot read properties of null (reading '_id')"
  end.

Record AddMemberBody := { email : string; role : option string }.

(** [body('role').optional().isIn(['admin', 'member', 'guest'])]. *)
Definition role_rejected (role : option string) : Prop :=
  match role with
  | Some r => r ∉ ["admin"; "member"; "guest"]
  | None => False
  end.

Global Instance role_rejected_dec role : Decision (role_rejected role).
Proof. destruct role; simpl; apply _. Defined.

Section AddMember.
Context {validator : Validator} {bcrypt : Bcrypt}.

(** [POST /:id/members]. The validation chain checks [isEmail] on the
    address and, when a role is given, that it is one of the three roles;
    [normalizeEmail] rewrites the address of the body. *)
Definition addMember (salt : string) (reqUserId : ObjectId) (id : string)
    (body : AddMemberBody) : M Ctx Reply :=
  try_catch
    (if decide (isEmail (email body) = false ∨ role_rejected (role body))
     then
       res_status 400;;
       mret {| success := false; message := "Validation Error" |}
     else
       found ← onWorkspaces (Workspace.findById id);
       match found with
       | None => AppError "Workspace not found" 404
       | Some (i, workspace) =>
           accounts ← onUsers get;
           let isOwner := bool_decide (Workspace.owner workspace = reqUserId) in
           isAdmin ← call (some_populated accounts
                             (λ member,
                                bool_decide (Workspace.user member = reqUserId)
                                && bool_decide (Workspace.role member = "admin"))
                             (Workspace.members workspace));
           if negb isOwner && negb isAdmin
           then AppError "Access denied" 403
           else
             let email0 := normalizeEmail (email body) in
             let role0 := default "member" (role body) in
             found ← onUsers (User.findOne email0);
             match found with
             | None => AppError "User not found" 404
             | Some userToAdd =>
                 isAlreadyMember ←
                   call (some_populated accounts
                           (λ member,
                              bool_decide (Workspace.user member
                                           = User._id (User.doc userToAdd)))
                           (Workspace.members workspace));
                 if (isAlreadyMember : bool)
                 then AppError "User is already a member of this workspace" 400
                 else
                   let workspace :=
                     Workspace.set_members
                       (Workspace.members workspace
                        ++ [{| Workspace.user := User._id (User.doc userToAdd);
                               Workspace.role := role0 |}])
                       workspace in
                   onUsers (User.save true salt
                     (User.with_doc
                        (User.set_workspaces
                           (User.workspaces (User.doc userToAdd)
                            ++ [Workspace._id workspace])
                           (User.doc userToAdd))
                        ["workspaces"] userToAdd));;
                   onWorkspaces (Workspace.save i workspace);;
                   mret {| success := true; message := "Member added successfully" |}
             end
       end)
    (λ error, throw error).

End AddMember.

End WorkspaceRoutes.

(** ** mockDb.js

    The in-memory database of the mock routes, its users and workspaces.
    A [Map] is the list of its entries in insertion order. An object is
    shared by reference between the [Map] and the callers; each object is
    stored under one key, which stands for the reference. The counters are
    JavaScript numbers: [++] is exact below 2^53 and leaves 2^53 as it
    is. The paths no operation below reads ([createdAt], [updatedAt],
    avatar, status, preferences, colour, icon, spaces) are left out. *)

Module MockDatabase.

Section Map.
Context {V : Type}.

(** [Map.prototype.get]. *)
Definition map_get (k : string) (m : list (string * V)) : option V :=
  (λ found, found.2.2) <$> list_find (λ kv, kv.1 = k) m.

(** [Map.prototype.set]: an existing key keeps its place. *)
Fixpoint map_set (k : string) (v : V) (m : list (string * V))
    : list (string * V) :=
  match m with
  | [] => [(k, v)]
  | (k', v') :: rest =>
      if decide (k' = k) then (k, v) :: rest else (k', v') :: map_set k v rest
  end.

(** [Map.prototype.delete]. *)
Definition map_delete (k : string) (m : list (string * V)) : list (string * V) :=
  filter (λ kv, kv.1 ≠ k) m.

End Map.

Module User.
Record Doc := {
  _id : string;
  name : string;
  email : string;
  password : string;
  workspaces : list string
}.
(** The object handed to [createUser]; its [_id] key is optional. *)
Record Data := {
  d_id : option string;
  d_name : string;
  d_email : string;
  d_password : string
}.
End User.

Module Workspace.
Record Member := { user : string; role : string }.
Record Doc := {
  _id : string;
  name : string;
  owner : string;
  members : list Member
}.
(** The object handed to [createWorkspace]; its [_id] key is optional. *)
Record Data := {
  d_id : option string;
  d_name : string;
  d_owner : string;
  d_members : list Member
}.
End Workspace.

Inductive Collection := users_ | workspaces_.

Definition collection_name (c : Collection) : string :=
  match c with users_ => "users" | workspaces_ => "workspaces" end.

Record State := {
  users : list (string * User.Doc);
  workspaces : list (string * Workspace.Doc);
  counters_users : N;
  counters_workspaces : N
}.

(** [n++] on a JavaScript number. *)
Definition incr (n : N) : N :=
  if decide (n < 2 ^ 53)%N then (n + 1)%N else n.

Definition generateId (collection : Collection) : M State string :=
  λ s,
    match collection with
    | users_ =>
        (Ok ("users_" +:+ pretty (counters_users s)),
         {| users := users s; workspaces := workspaces s;
            counters_users := incr (counters_users s);
            counters_workspaces := counters_workspaces s |})
    | workspaces_ =>
        (Ok ("workspaces_" +:+ pretty (counters_workspaces s)),
         {| users := users s; workspaces := workspaces s;
            counters_users := counters_users s;
            counters_workspaces := incr (counters_workspaces s) |})
    end.

Definition set_users (m : list (string * User.Doc)) (s : State) : State :=
  {| users := m; workspaces := workspaces s;
     counters_users := counters_users s;
     counters_workspaces := counters_workspaces s |}.

Definition set_workspaces (m : list (string * Workspace.Doc)) (s : State) : State :=
  {| users := users s; workspaces := m;
     counters_users := counters_users s;
     counters_workspaces := counters_workspaces s |}.

(** [createUser]: in [{ _id: id, ...userData, ..., workspaces: [] }] an
    [_id] of [userData] replaces the generated one, while the key of the
    [Map] is the generated one. The result is the key of the stored object
    and the object. *)
Definition createUser (userData : User.Data) : M State (string * User.Doc) :=
  id ← generateId users_;
  let user := {| User._id := default id (User.d_id userData);
                 User.name := User.d_name userData;
                 User.email := User.d_email userData;
                 User.password := User.d_password userData;
                 User.workspaces := [] |} in
  s ← get;
  put (set_users (map_set id user (users s)) s);;
  mret (id, user).

Definition findUserByEmail (email : string) : M State (option User.Doc) :=
  s ← get;
  mret ((λ found, found.2.2)
          <$> list_find (λ kv, User.email kv.2 = email) (users s)).

Definition findUserById (id : string) : M State (option User.Doc) :=
  s ← get; mret (map_get id (users s)).

Definition createWorkspace (workspaceData : Workspace.Data)
    : M State (string * Workspace.Doc) :=
  id ← generateId workspaces_;
  let workspace :=
    {| Workspace._id := default id (Workspace.d_id workspaceData);
       Workspace.name := Workspace.d_name workspaceData;
       Workspace.owner := Workspace.d_owner workspaceData;
       Workspace.members := Workspace.d_members workspaceData |} in
  s ← get;
  put (set_workspaces (map_set id workspace (workspaces s)) s);;
  mret (id, workspace).

Definition findWorkspaceById (id : string) : M State (option Workspace.Doc) :=
  s ← get; mret (map_get id (workspaces s)).

Definition findWorkspacesByUser (userId : string) : M State (list Workspace.Doc) :=
  s ← get;
  mret (filter (λ workspace,
                  Workspace.owner workspace = userId
                  ∨ Exists (λ member, Workspace.user member = userId)
                      (Workspace.members workspace))
          (workspaces s).*2).

Definition deleteWorkspace (id : string) : M State bool :=
  s ← get;
  put (set_workspaces (map_delete id (workspaces s)) s);;
  mret (bool_decide (is_Some (map_get id (workspaces s)))).

(** [clear], and the state in which the constructor calls
    [initializeData]. *)
Definition empty : State :=
  {| users := []; workspaces := [];
     counters_users := 1; counters_workspaces := 1 |}.


(** [initializeData], without the two default spaces. The [push] on
    [defaultUser.workspaces] changes the object stored under the key of the
    default user. *)
Definition initializeData : M State unit :=
  '(userKey, defaultUser) ← createUser
    {| User.d_id := Some "user_1";
       User.d_name := "Test User";
       User.d_email := "test@example.com";
       User.d_password :=
         "$2a$12$y.g.1.2.3.4.5.6.7.8.9.0.1.2.3.4.5.6.7.8.9.0.1.2.3.4.5.6.7.8.9.0" |};
  '(_, defaultWorkspace) ← createWorkspace
    {| Workspace.d_id := Some "workspaces_1";
       Workspace.d_name := "My First Workspace";
       Workspace.d_owner := User._id defaultUser;
       Workspace.d_members :=
         [{| Workspace.user := User._id defaultUser;
             Workspace.role := "admin" |}] |};
  s ← get;
  put (set_users
         (map_set userKey
            {| User._id := User._id defaultUser;
               User.name := User.name defaultUser;
               User.email := User.email defaultUser;
               User.password := User.password defaultUser;
               User.workspaces :=
                 User.workspaces defaultUser ++ [Workspace._id defaultWorkspace] |}
            (users s)) s).

(** [new MockDatabase()]. *)
Definition new : State := (initializeData empty).2.

(** Every key of the users was generated: it is [users_n] for an [n] the
    counter has passed. *)
Definition keys_generated (s : State) : Prop :=
  ∀ k, k ∈ (users s).*1 →
    ∃ n, (n < counters_users s)%N ∧ k = "users_" +:+ pretty n.

(** The same of the workspaces. *)
Definition workspace_keys_generated (s : State) : Prop :=
  ∀ k, k ∈ (workspaces s).*1 →
    ∃ n, (n < counters_workspaces s)%N ∧ k = "workspaces_" +:+ pretty n.

End MockDatabase.

(** ** Executable instances

    The string functions on ASCII text and a stand-in for bcrypt (the salt,
    a separator, the data) on which the operations can be evaluated. *)

Module Concrete.

Definition lower_char (c : ascii) : ascii :=
  let n := nat_of_ascii c in
  if decide (65 ≤ n ≤ 90) then ascii_of_nat (n + 32) else c.

Fixpoint lower (s : string) : string :=
  match s with
  | EmptyString => EmptyString
  | String c s' => String (lower_char c) (lower s')
  end.

Fixpoint trim_start (s : string) : string :=
  match s with
  | EmptyString => EmptyString
  | String c s' => if decide (c = " "%char) then trim_start s' else s
  end.

Definition trim (s : string) : string :=
  String.rev (trim_start (String.rev (trim_start s))).

Definition setters : SchemaSetters := {| lowercase_trim := λ s, trim (lower s) |}.
Definition ops : StringOps := {| toLowerCase := lower |}.
Definition salted : Bcrypt := {| bcrypt_hash := λ data salt, salt +:+ "$" +:+ data |}.

(** What follows the first dollar sign, the data of a stand-in hash. *)
Fixpoint after_dollar (s : string) : string :=
  match s with
  | EmptyString => EmptyString
  | String c s' => if decide (c = "$"%char) then s' else after_dollar s'
  end.

Definition compare : BcryptCompare :=
  {| bcrypt_compare := λ data hash, bool_decide (after_dollar hash = data) |}.

Fixpoint has_at (s : string) : bool :=
  match s with
  | EmptyString => false
  | String c s' => bool_decide (c = "@"%char) || has_at s'
  end.

(** A stand-in for the validator: an address is one that holds an at sign,
    and normalising it lowers its case. *)
Definition validator : Validator :=
  {| isEmail := has_at; normalizeEmail := lower |}.

Definition is_hex (c : ascii) : bool :=
  let n := nat_of_ascii c in
  bool_decide (48 ≤ n ≤ 57 ∨ 65 ≤ n ≤ 70 ∨ 97 ≤ n ≤ 102).

Fixpoint all_hex (s : string) : bool :=
  match s with
  | EmptyString => true
  | String c s' => is_hex c && all_hex s'
  end.

(** The cast of a string of 24 hexadecimal digits. *)
Definition ids : ObjectIdCast :=
  {| castObjectId := λ s,
       if bool_decide (String.length s = 24) && all_hex s
       then Some (lower s) else None |}.

End Concrete.

(** ** A registration in progress

    Alice has registered and holds the active code 123456; the requests are
    evaluated with the instances of [Concrete]. *)

Module Scenario.

(** No variable of the environment is set. *)
Definition defaults : Env :=
  {| OTP_LENGTH := None; OTP_EXPIRY_MINUTES := None;
     INVITATION_EXPIRY_HOURS := None |}.

Definition alice : User.Doc :=
  {| User._id := "64b000000000000000000001";
     User.name := "Alice";
     User.email := "alice@example.com";
     User.password := "salt0$secret1";
     User.avatar := "/images/default-avatar.png";
     User.status := "pending";
     User.emailVerified := false;
     User.emailVerifiedAt := None;
     User.preferences := default_preferences;
     User.workspaces := [] |}.

Definition alice_code : OTP.Doc :=
  {| OTP.email := "alice@example.com"; OTP.otp := "123456";
     OTP.purpose := "email_verification"; OTP.attempts := 0;
     OTP.isUsed := false; OTP.expiresAt := 600000 |}.

Definition registered : Ctx :=
  {| db := {| otps := [alice_code]; users := [alice];
              workspaces := []; invitations := [] |};
     statusCode := 200 |}.

(** The same store without the account. *)
Definition code_only : Ctx :=
  {| db := {| otps := [alice_code]; users := [];
              workspaces := []; invitations := [] |};
     statusCode := 200 |}.

Definition verify (code : string) : M Ctx Reply :=
  AuthController.verifyEmail (setters := Concrete.setters) (bcrypt := Concrete.salted)
    1000 "salt1" "64b0000000000000000000a1"
    {| AuthController.v_email := "alice@example.com";
       AuthController.v_otp := code |}.

(** The verify-email requests for [codes] one after the other: the answers
    and the final state. *)
Fixpoint verify_all (codes : list string) (ctx : Ctx)
    : list (result Reply) * Ctx :=
  match codes with
  | [] => ([], ctx)
  | code :: rest =>
      let '(r, ctx') := verify code ctx in
      let '(rs, ctx'') := verify_all rest ctx' in
      (r :: rs, ctx'')
  end.

(** Bob registers with a new address while the email service reports that
    the code could not be delivered. *)
Definition register_undelivered : result Reply * Ctx :=
  AuthController.registerUser (setters := Concrete.setters) (bcrypt := Concrete.salted)
    defaults (λ i, i) 1000 "salt2" "64b000000000000000000002"
    (Ok {| Email.success := false |})
    {| AuthController.name := "Bob";
       AuthController.email := "bob@example.com";
       AuthController.password := "hunter22" |}
    {| db := {| otps := []; users := []; workspaces := []; invitations := [] |};
       statusCode := 200 |}.

(** A workspace owned by Olivia with Carol as a member, and a request by
    Mallory, who is not a member, to remove Olivia. *)
Definition team : Workspace.Doc :=
  {| Workspace._id := "64b0000000000000000000b1";
     Workspace.name := "Team";
     Workspace.description := "";
     Workspace.owner := "64b000000000000000000010";
     Workspace.members :=
       [{| Workspace.user := "64b000000000000000000010"; Workspace.role := "admin" |};
        {| Workspace.user := "64b000000000000000000011"; Workspace.role := "member" |}] |}.

Definition team_ctx : Ctx :=
  {| db := {| otps := []; users := []; workspaces := [team]; invitations := [] |};
     statusCode := 200 |}.

Definition outsider_removes_owner : result Reply * Ctx :=
  WorkspaceRoutes.removeMember "64b000000000000000000666"
    "64b0000000000000000000b1" "64b000000000000000000010" team_ctx.

(** Dana's pending registration, its password already hashed when it was
    stored. *)
Definition dana : TemporaryUser.Doc :=
  {| TemporaryUser.name := "Dana";
     TemporaryUser.email := "dana@example.com";
     TemporaryUser.password := "salt0$opensesame";
     TemporaryUser.avatar := "/images/default-avatar.png";
     TemporaryUser.preferences := default_preferences;
     TemporaryUser.expiresAt := 86400000 |}.

(** Olivia invites Erin, a verified account that is not yet a member, and
    Frank, who has no account. *)
Definition olivia : User.Doc :=
  {| User._id := "64b000000000000000000010";
     User.name := "Olivia";
     User.email := "olivia@example.com";
     User.password := "salt0$correcthorse";
     User.avatar := "/images/default-avatar.png";
     User.status := "active";
     User.emailVerified := true;
     User.emailVerifiedAt := Some 0%Z;
     User.preferences := default_preferences;
     User.workspaces := ["64b0000000000000000000b1"] |}.

Definition erin : User.Doc :=
  {| User._id := "64b000000000000000000012";
     User.name := "Erin";
     User.email := "erin@example.com";
     User.password := "salt0$batterystaple";
     User.avatar := "/images/default-avatar.png";
     User.status := "active";
     User.emailVerified := true;
     User.emailVerifiedAt := Some 0%Z;
     User.preferences := default_preferences;
     User.workspaces := [] |}.

Definition invitation_for_erin (role expires : _) : TeamInvitation.Doc :=
  {| TeamInvitation._id := "64b0000000000000000000c1";
     TeamInvitation.email := "erin@example.com";
     TeamInvitation.workspaceId := "64b0000000000000000000b1";
     TeamInvitation.invitedBy := "64b000000000000000000010";
     TeamInvitation.role := role;
     TeamInvitation.token := "5f2c9a7e";
     TeamInvitation.status := TeamInvitation.pending;
     TeamInvitation.acceptedBy := None;
     TeamInvitation.acceptedAt := None;
     TeamInvitation.expiresAt := expires;
     TeamInvitation.metadata :=
       {| TeamInvitation.inviterName := "Olivia";
          TeamInvitation.workspaceName := "Team";
          TeamInvitation.personalMessage := "" |} |}.

Definition data_for_erin : TeamInvitation.InvitationData :=
  {| TeamInvitation.d_email := "Erin@Example.com";
     TeamInvitation.d_workspaceId := "64b0000000000000000000b1";
     TeamInvitation.d_invitedBy := "64b000000000000000000010";
     TeamInvitation.d_role := Some "member";
     TeamInvitation.d_inviterName := "Olivia";
     TeamInvitation.d_workspaceName := "Team";
     TeamInvitation.d_personalMessage := "" |}.

(** The same request with the workspace spelled as [w]. *)
Definition data_for_erin_as (w : string) : TeamInvitation.InvitationData :=
  {| TeamInvitation.d_email := "Erin@Example.com";
     TeamInvitation.d_workspaceId := w;
     TeamInvitation.d_invitedBy := "64b000000000000000000010";
     TeamInvitation.d_role := Some "member";
     TeamInvitation.d_inviterName := "Olivia";
     TeamInvitation.d_workspaceName := "Team";
     TeamInvitation.d_personalMessage := "" |}.

Definition invited_as_manager : Ctx :=
  {| db := {| otps := []; users := [olivia; erin]; workspaces := [team];
              invitations := [invitation_for_erin "manager" 259200000] |};
     statusCode := 200 |}.

Definition olivia_alone : Ctx :=
  {| db := {| otps := []; users := [olivia]; workspaces := [team];
              invitations := [] |};
     statusCode := 200 |}.


Definition invite_frank : InvitationController.SendBody :=
  {| InvitationController.email := "frank@example.com";
     InvitationController.workspaceId := "64b0000000000000000000b1";
     InvitationController.role := None;
     InvitationController.personalMessage := "Welcome" |}.

(** Alice once her address is verified, holding a code issued afterwards. *)
Definition alice_verified : User.Doc :=
  User.set_verified 500 alice.

Definition verified_with_code : Ctx :=
  {| db := {| otps := [alice_code]; users := [alice_verified];
              workspaces := []; invitations := [] |};
     statusCode := 200 |}.

(** Bob's registration and the database before it. *)
Definition bob : AuthController.RegisterBody :=
  {| AuthController.name := "Bob";
     AuthController.email := "bob@example.com";
     AuthController.password := "hunter22" |}.

Definition nobody : Ctx :=
  {| db := {| otps := []; users := []; workspaces := []; invitations := [] |};
     statusCode := 200 |}.

(** What a request of the auth router meets at instant [t]: the draws
    0, 1, 2, ..., an email service that delivers and a token that is
    signed. *)
Definition world (t : Z) (id : string) : AuthRoutes.World :=
  {| AuthRoutes.now := t;
     AuthRoutes.random := λ i, i;
     AuthRoutes.salt := "salt3";
     AuthRoutes.new_id := id;
     AuthRoutes.sendOTPEmail := Ok {| Email.success := true |};
     AuthRoutes.generateToken := Ok "token" |}.

(** Bob registers, guesses a code, asks for a new one, guesses again and
    tries to log in. *)
Definition bob_requests : list (AuthRoutes.World * AuthRoutes.Request) :=
  [(world 1000 "64b000000000000000000002", AuthRoutes.register bob);
   (world 2000 "64b0000000000000000000a2",
    AuthRoutes.verify_email {| AuthController.v_email := "bob@example.com";
                               AuthController.v_otp := "000000" |});
   (world 3000 "64b000000000000000000003", AuthRoutes.resend_otp "bob@example.com");
   (world 4000 "64b0000000000000000000a3",
    AuthRoutes.verify_email {| AuthController.v_email := "bob@example.com";
                               AuthController.v_otp := "999999" |});
   (world 5000 "64b000000000000000000004",
    AuthRoutes.login "bob@example.com" "hunter22")].

(** Erin invited as a member, and the request that adds her directly. *)
Definition invited_as_member : Ctx :=
  {| db := {| otps := []; users := [olivia; erin]; workspaces := [team];
              invitations := [invitation_for_erin "member" 259200000] |};
     statusCode := 200 |}.

(** Carol, the second member of the team. *)
Definition carol : User.Doc :=
  {| User._id := "64b000000000000000000011";
     User.name := "Carol";
     User.email := "carol@example.com";
     User.password := "salt0$tr0ub4dor";
     User.avatar := "/images/default-avatar.png";
     User.status := "active";
     User.emailVerified := true;
     User.emailVerifiedAt := Some 0%Z;
     User.preferences := default_preferences;
     User.workspaces := ["64b0000000000000000000b1"] |}.

Definition team_with_accounts : Ctx :=
  {| db := {| otps := []; users := [olivia; carol; erin]; workspaces := [team];
              invitations := [] |};
     statusCode := 200 |}.

Definition add_erin : WorkspaceRoutes.AddMemberBody :=
  {| WorkspaceRoutes.email := "Erin@Example.com";
     WorkspaceRoutes.role := Some "guest" |}.

(** Dana registers anew. *)
Definition dana_data : TemporaryUser.UserData :=
  {| TemporaryUser.u_name := "Dana";
     TemporaryUser.u_email := " Dana@Example.com";
     TemporaryUser.u_password := "opensesame";
     TemporaryUser.u_avatar := None;
     TemporaryUser.u_preferences := None;
     TemporaryUser.u_expiresAt := None |}.

(** The default user of the mock database. *)
Definition default_user : MockDatabase.User.Data :=
  {| MockDatabase.User.d_id := Some "user_1";
     MockDatabase.User.d_name := "Test User";
     MockDatabase.User.d_email := "test@example.com";
     MockDatabase.User.d_password :=
       "$2a$12$y.g.1.2.3.4.5.6.7.8.9.0.1.2.3.4.5.6.7.8.9.0.1.2.3.4.5.6.7.8.9.0" |}.

(** A second user of the mock database. *)
Definition second_user : MockDatabase.User.Data :=
  {| MockDatabase.User.d_id := None;
     MockDatabase.User.d_name := "Second User";
     MockDatabase.User.d_email := "second@example.com";
     MockDatabase.User.d_password := "$2a$12$second" |}.

(** A second workspace for the default user. *)
Definition second_workspace : MockDatabase.Workspace.Data :=
  {| MockDatabase.Workspace.d_id := None;
     MockDatabase.Workspace.d_name := "Side Project";
     MockDatabase.Workspace.d_owner := "user_1";
     MockDatabase.Workspace.d_members :=
       [{| MockDatabase.Workspace.user := "user_1";
           MockDatabase.Workspace.role := "admin" |}] |}.

End Scenario.

(* ================================================================== *)
(** * Properties *)

Arguments OTP.verifyOTP : simpl never.
Arguments OTP.incrementAttempts : simpl never.
Arguments OTP.createOTP : simpl never.
Arguments TeamInvitation.createInvitation : simpl never.
Arguments TeamInvitation.findByToken : simpl never.
Arguments TeamInvitation.accept : simpl never.
Arguments User.save : simpl never.
Arguments User.create : simpl never.
Arguments Workspace.save : simpl never.

(** Membership in a list given by its elements. *)
Ltac in_list :=
  repeat first [apply list_elem_of_here | apply list_elem_of_further].

(** Case analysis on the innermost scrutinee of the goal. *)
Ltac break_match :=
  match goal with
  | |- context [match ?x with _ => _ end] =>
      lazymatch x with
      | context [match _ with _ => _ end] => fail
      | _ => destruct x eqn:?
      end
  end.

(** Validity of a concrete document for its schema. *)
Ltac valid_doc := repeat split; simpl; try done; try in_list; try lia.

(** Unfolding of the state-passing layer of a handler. *)
Ltac run :=
  unfold onOTPs, onUsers, onWorkspaces, onInvitations, AppError;
  unfold try_catch, zoom, res_status, call, throw, get, put,
    mbind, M_bind, mret, M_ret;
  simpl.

(** ** The one-time code state machine *)

Section OTPProperties.
Context {setters : SchemaSetters}.

Lemma one_per_pair_lookup (coll : list OTP.Doc) i j d1 d2 :
  OTP.one_per_pair coll → coll !! i = Some d1 → coll !! j = Some d2 →
  OTP.email d1 = OTP.email d2 → OTP.purpose d1 = OTP.purpose d2 → i = j.
Proof.
  intros Hnd H1 H2 He Hp.
  apply (NoDup_lookup _ i j (OTP.pair_of d1) Hnd).
  - by rewrite list_lookup_fmap, H1.
  - rewrite list_lookup_fmap, H2. unfold OTP.pair_of. simpl. by rewrite He, Hp.
Qed.

Lemma one_per_pair_insert (coll : list OTP.Doc) i d d' :
  OTP.one_per_pair coll → coll !! i = Some d →
  OTP.pair_of d' = OTP.pair_of d →
  OTP.one_per_pair (<[i := d']> coll).
Proof.
  unfold OTP.one_per_pair. intros Hnd Hi Hk.
  rewrite list_fmap_insert, Hk.
  rewrite list_insert_id; [done|]. by rewrite list_lookup_fmap, Hi.
Qed.

(** Under the invariant the stored code for a triple is the one [findOne]
    returns, with or without the activity filter. *)
Lemma find_matches_unique (coll : list OTP.Doc) i d e o p :
  OTP.one_per_pair coll → coll !! i = Some d → OTP.matches e o p d →
  list_find (OTP.matches e o p) coll = Some (i, d).
Proof.
  intros Hnd Hi (He & Ho & Hp). apply list_find_Some. split_and!; [done..|].
  intros j y Hj Hlt (He' & _ & Hp').
  assert (j = i); [|lia].
  eapply one_per_pair_lookup; eauto; congruence.
Qed.

Lemma find_active_unique (coll : list OTP.Doc) i d e o p now :
  OTP.one_per_pair coll → coll !! i = Some d → OTP.matches e o p d →
  list_find (λ x, OTP.matches e o p x ∧ OTP.active now x) coll =
    if decide (OTP.active now d) then Some (i, d) else None.
Proof.
  intros Hnd Hi Hm. pose proof Hm as (He & Ho & Hp). case_decide as Ha.
  - apply list_find_Some. split_and!; [done..|].
    intros j y Hj Hlt ((He' & _ & Hp') & _).
    assert (j = i); [|lia].
    eapply one_per_pair_lookup; eauto; congruence.
  - apply list_find_None, Forall_forall. intros y Hy ((He' & _ & Hp') & Hact).
    apply list_elem_of_lookup in Hy as [j Hj].
    assert (j = i) as -> by (eapply one_per_pair_lookup; eauto; congruence).
    rewrite Hi in Hj. by simplify_eq.
Qed.

Lemma verifyOTP_invalid (coll : list OTP.Doc) (now : Z) (e o p : string) :
  (∀ d, d ∈ coll → ¬ OTP.matches (lowercase_trim e) o p d) →
  OTP.verifyOTP now e o p coll = (Throw "Invalid OTP", coll).
Proof.
  intros Hnone. unfold OTP.verifyOTP, mbind, M_bind, get, throw.
  set (q := lowercase_trim e) in *.
  assert (list_find (OTP.matches q o p) coll = None) as ->.
  { apply list_find_None, Forall_forall. auto. }
  assert (list_find (λ d, OTP.matches q o p d ∧ OTP.active now d) coll = None)
    as ->; [|done].
  apply list_find_None, Forall_forall. intros d Hd [Hm _]. by eapply Hnone.
Qed.

Lemma verifyOTP_used (coll : list OTP.Doc) (now : Z) (e o p : string) i d :
  OTP.one_per_pair coll → coll !! i = Some d →
  OTP.matches (lowercase_trim e) o p d → OTP.isUsed d = true →
  OTP.verifyOTP now e o p coll = (Throw "OTP has already been used", coll).
Proof.
  intros Hnd Hi Hm Hused. unfold OTP.verifyOTP, mbind, M_bind, get, throw.
  rewrite (find_active_unique coll i d _ o p now Hnd Hi Hm).
  rewrite (find_matches_unique coll i d _ o p Hnd Hi Hm).
  rewrite decide_False; [by rewrite Hused|]. intros [Hu _]. congruence.
Qed.

Lemma verifyOTP_expired (coll : list OTP.Doc) (now : Z) (e o p : string) i d :
  OTP.one_per_pair coll → coll !! i = Some d →
  OTP.matches (lowercase_trim e) o p d →
  OTP.isUsed d = false → (OTP.expiresAt d ≤ now)%Z →
  OTP.verifyOTP now e o p coll = (Throw "OTP has expired", coll).
Proof.
  intros Hnd Hi Hm Hunused Hexp. unfold OTP.verifyOTP, mbind, M_bind, get, throw.
  rewrite (find_active_unique coll i d _ o p now Hnd Hi Hm).
  rewrite (find_matches_unique coll i d _ o p Hnd Hi Hm).
  rewrite decide_False; [by rewrite Hunused|]. intros [_ Hlt]. lia.
Qed.

Lemma verifyOTP_locked (coll : list OTP.Doc) (now : Z) (e o p : string) i d :
  OTP.one_per_pair coll → coll !! i = Some d →
  OTP.matches (lowercase_trim e) o p d →
  OTP.active now d → (5 ≤ OTP.attempts d)%Z →
  OTP.verifyOTP now e o p coll =
    (Throw "Too many failed attempts. Please request a new OTP", coll).
Proof.
  intros Hnd Hi Hm Hact Hatt. unfold OTP.verifyOTP, mbind, M_bind, get, throw.
  rewrite (find_active_unique coll i d _ o p now Hnd Hi Hm).
  rewrite decide_True by done. by rewrite decide_True.
Qed.

Lemma verifyOTP_success (coll : list OTP.Doc) (now : Z) (e o p : string) i d :
  OTP.one_per_pair coll → coll !! i = Some d →
  OTP.matches (lowercase_trim e) o p d →
  OTP.active now d → (OTP.attempts d < 5)%Z → OTP.valid d →
  OTP.verifyOTP now e o p coll = (Ok true, <[i := OTP.set_isUsed true d]> coll).
Proof.
  intros Hnd Hi Hm Hact Hatt Hvalid.
  unfold OTP.verifyOTP, OTP.save, mbind, M_bind, get, put, mret, M_ret, throw.
  rewrite (find_active_unique coll i d _ o p now Hnd Hi Hm).
  rewrite decide_True by done. rewrite decide_False by lia.
  by rewrite decide_True.
Qed.

Lemma incrementAttempts_found (coll : list OTP.Doc) (e o p : string) i d :
  OTP.one_per_pair coll → coll !! i = Some d →
  OTP.matches (lowercase_trim e) o p d →
  OTP.incrementAttempts e o p coll = (Ok tt, <[i := OTP.inc_attempts d]> coll).
Proof.
  intros Hnd Hi Hm. unfold OTP.incrementAttempts, mbind, M_bind, get, put.
  by rewrite (find_matches_unique coll i d _ o p Hnd Hi Hm).
Qed.

Lemma incrementAttempts_missing (coll : list OTP.Doc) (e o p : string) :
  (∀ d, d ∈ coll → ¬ OTP.matches (lowercase_trim e) o p d) →
  OTP.incrementAttempts e o p coll = (Ok tt, coll).
Proof.
  intros Hnone. unfold OTP.incrementAttempts, mbind, M_bind, get, put.
  assert (list_find (OTP.matches (lowercase_trim e) o p) coll = None) as ->;
    [|done].
  apply list_find_None, Forall_forall. auto.
Qed.

(** C4. Outcomes of [verifyOTP] on a store that holds at most one code per
    (email, purpose): no record for the exact (email, code, purpose) triple
    gives 'Invalid OTP'; a matching used record gives 'OTP has already been
    used'; a matching unused record past its expiry gives 'OTP has expired';
    a matching active record with five or more attempts gives 'Too many
    failed attempts'; otherwise the record, valid for its schema, is marked
    used and the call returns true, after which the same call, at any time,
    is rejected as already used. *)
Theorem verifyOTP_outcomes (coll : list OTP.Doc) (now : Z) (e o p : string) :
  OTP.one_per_pair coll →
  let q := lowercase_trim e in
  ((∀ d, d ∈ coll → ¬ OTP.matches q o p d) →
     OTP.verifyOTP now e o p coll = (Throw "Invalid OTP", coll))
  ∧ (∀ d, d ∈ coll → OTP.matches q o p d →
       (OTP.isUsed d = true →
          OTP.verifyOTP now e o p coll = (Throw "OTP has already been used", coll))
     ∧ (OTP.isUsed d = false → (OTP.expiresAt d ≤ now)%Z →
          OTP.verifyOTP now e o p coll = (Throw "OTP has expired", coll))
     ∧ (OTP.active now d → (5 ≤ OTP.attempts d)%Z →
          OTP.verifyOTP now e o p coll =
            (Throw "Too many failed attempts. Please request a new OTP", coll))
     ∧ (OTP.active now d → (OTP.attempts d < 5)%Z → OTP.valid d →
          ∃ i, coll !! i = Some d
             ∧ OTP.verifyOTP now e o p coll =
                 (Ok true, <[i := OTP.set_isUsed true d]> coll)
             ∧ ∀ now', OTP.verifyOTP now' e o p (<[i := OTP.set_isUsed true d]> coll) =
                 (Throw "OTP has already been used",
                  <[i := OTP.set_isUsed true d]> coll))).
Proof.
  intros Hnd q. split; [apply verifyOTP_invalid|].
  intros d Hd Hm. apply list_elem_of_lookup in Hd as [i Hi]. split_and!.
  - by apply (verifyOTP_used coll now e o p i d).
  - by apply (verifyOTP_expired coll now e o p i d).
  - by apply (verifyOTP_locked coll now e o p i d).
  - intros Hact Hatt Hvalid. exists i. split_and!; [done| |].
    + by apply verifyOTP_success.
    + intros now'. apply (verifyOTP_used _ now' e o p i (OTP.set_isUsed true d)).
      * by apply (one_per_pair_insert coll i d).
      * apply list_lookup_insert_eq. by eapply lookup_lt_Some.
      * done.
      * done.
Qed.

(** A code of positive length is not the empty string. *)
Lemma generateOTP_from_nonempty (random : nat → nat) (i n : nat) (acc : string) :
  acc ≠ "" → OTP.generateOTP_from random i n acc ≠ "".
Proof.
  revert i acc. induction n as [|n IH]; intros i acc Hacc; simpl; [done|].
  apply IH. by destruct acc.
Qed.

Lemma generateOTP_nonempty (random : nat → nat) (len : Z) :
  (0 < len)%Z → OTP.generateOTP random len ≠ "".
Proof.
  intros Hlen. unfold OTP.generateOTP.
  destruct (Z.to_nat len) as [|n] eqn:Hn; [lia|]. simpl.
  apply generateOTP_from_nonempty. unfold OTP.digit_at.
  by destruct (String.get _ _).
Qed.

(** Every issuance deletes the codes of the pair; when the expiry is an
    instant a [Date] can hold, it appends one new code. *)
Lemma createOTP_run (env : Env) (random : nat → nat) (now : Z) (e p : string)
    (coll : list OTP.Doc) :
  p ∈ OTP.purposes → lowercase_trim e ≠ "" →
  (0 < or_default (OTP_LENGTH env) 6)%Z →
  valid_date (now + or_default (OTP_EXPIRY_MINUTES env) 10 * 60 * 1000) →
  let code := OTP.generateOTP random (or_default (OTP_LENGTH env) 6) in
  let doc := {| OTP.email := lowercase_trim e; OTP.otp := code; OTP.purpose := p;
                OTP.attempts := 0; OTP.isUsed := false;
                OTP.expiresAt :=
                  (now + or_default (OTP_EXPIRY_MINUTES env) 10 * 60 * 1000)%Z |} in
  OTP.createOTP env random now e p coll =
    (Ok code, filter (λ d, ¬ OTP.for_pair (lowercase_trim e) p d) coll ++ [doc]).
Proof.
  intros Hp He Hlen Hdate code doc.
  unfold OTP.createOTP, OTP.save_new, mbind, M_bind, get, put, mret, M_ret. simpl.
  rewrite decide_True; [done|].
  split; [|done].
  split_and!; simpl; [done|by apply generateOTP_nonempty|done|lia].
Qed.

(** An expiry beyond the instants a [Date] can hold: the codes of the pair
    are deleted, [save] fails and no code is stored. *)
Lemma createOTP_invalid_date (env : Env) (random : nat → nat) (now : Z)
    (e p : string) (coll : list OTP.Doc) :
  ¬ valid_date (now + or_default (OTP_EXPIRY_MINUTES env) 10 * 60 * 1000) →
  OTP.createOTP env random now e p coll =
    (Throw "OTP validation failed",
     filter (λ d, ¬ OTP.for_pair (lowercase_trim e) p d) coll).
Proof.
  intros Hdate.
  unfold OTP.createOTP, OTP.save_new, mbind, M_bind, get, put, mret, M_ret, throw.
  simpl. rewrite decide_False; [done|]. by intros [_ ?].
Qed.

Lemma filter_pair_deleted (e p : string) (coll : list OTP.Doc) :
  filter (OTP.for_pair e p) (filter (λ d, ¬ OTP.for_pair e p d) coll) = [].
Proof.
  induction coll as [|d coll IH]; [done|].
  rewrite filter_cons. case_decide as Hd; [|done].
  rewrite filter_cons. by rewrite decide_False.
Qed.

Lemma createOTP_store_invariant (env : Env) (random : nat → nat) (now : Z)
    (e p : string) (coll : list OTP.Doc) :
  OTP.one_per_pair coll →
  OTP.one_per_pair (OTP.createOTP env random now e p coll).2.
Proof.
  intros Hnd.
  assert (OTP.one_per_pair (filter (λ d, ¬ OTP.for_pair (lowercase_trim e) p d) coll))
    as Hnd'.
  { unfold OTP.one_per_pair in *. apply (sublist_NoDup _ (OTP.pair_of <$> coll)); [done|].
    apply fmap_sublist, sublist_filter. }
  unfold OTP.createOTP, OTP.save_new, mbind, M_bind, get, put, mret, M_ret, throw.
  simpl. case_decide; simpl; [|done].
  unfold OTP.one_per_pair. rewrite fmap_app. apply NoDup_app.
  split_and!; [done| |apply NoDup_singleton].
  intros k Hk Hk'. apply list_elem_of_fmap in Hk as (d & -> & Hd).
  apply list_elem_of_filter in Hd as [Hnp _].
  apply list_elem_of_singleton in Hk'. apply Hnp.
  unfold OTP.pair_of in Hk'. simpl in Hk'. by simplify_eq.
Qed.

(** *** The attempt counter

    The counter of a code moves only when the exact code is presented, and
    presenting the exact code of an active record consumes the record. So
    the records with a positive counter are never active, and the limit of
    five attempts is never what a verification runs into. *)

Lemma attempted_spent_later (t t' : Z) (coll : list OTP.Doc) :
  (t ≤ t')%Z → OTP.attempted_spent t coll → OTP.attempted_spent t' coll.
Proof.
  intros Hle Hinv d Hd Hatt [Hu Hexp]. apply (Hinv d Hd Hatt). split; [done|lia].
Qed.

Lemma attempted_spent_insert (t : Z) (coll : list OTP.Doc) (i : nat) (d : OTP.Doc) :
  OTP.attempted_spent t coll → ¬ OTP.active t d →
  OTP.attempted_spent t (<[i := d]> coll).
Proof.
  intros Hinv Hd x Hx Hatt.
  apply list_elem_of_lookup in Hx as [j Hj].
  apply list_lookup_insert_Some in Hj as [(-> & -> & _)|[_ Hj]]; [done|].
  apply Hinv; [by eapply list_elem_of_lookup_2|done].
Qed.

Lemma createOTP_attempted_spent (env : Env) (random : nat → nat) (now t : Z)
    (e p : string) (coll : list OTP.Doc) :
  OTP.attempted_spent t coll →
  OTP.attempted_spent t (OTP.createOTP env random now e p coll).2.
Proof.
  intros Hinv.
  assert (OTP.attempted_spent t
            (filter (λ d, ¬ OTP.for_pair (lowercase_trim e) p d) coll)) as Hinv'.
  { intros d [_ Hd]%list_elem_of_filter. by apply Hinv. }
  unfold OTP.createOTP, OTP.save_new, mbind, M_bind, get, put, mret, M_ret, throw.
  simpl. case_decide; simpl; [|done].
  intros d [Hd| ->%list_elem_of_singleton]%elem_of_app; [by apply Hinv'|].
  simpl. lia.
Qed.

Lemma incrementAttempts_attempted_spent (t : Z) (e o p : string)
    (coll : list OTP.Doc) :
  OTP.attempted_spent t coll →
  (∀ i d, list_find (OTP.matches (lowercase_trim e) o p) coll = Some (i, d) →
          ¬ OTP.active t d) →
  OTP.attempted_spent t (OTP.incrementAttempts e o p coll).2.
Proof.
  intros Hinv Hfirst.
  unfold OTP.incrementAttempts, mbind, M_bind, get, put, mret, M_ret.
  destruct (list_find _ coll) as [[i d]|] eqn:Hf; simpl; [|done].
  apply attempted_spent_insert; [done|].
  intros [Hu Hexp]. by apply (Hfirst i d).
Qed.

Lemma verifyOTP_never_locked (t : Z) (e o p : string) (coll coll1 : list OTP.Doc)
    (r1 : result bool) :
  o ≠ "" → lowercase_trim e ≠ "" → p ∈ OTP.purposes →
  OTP.attempted_spent t coll →
  OTP.verifyOTP t e o p coll = (r1, coll1) →
  r1 ≠ Throw "Too many failed attempts. Please request a new OTP"
  ∧ OTP.attempted_spent t coll1
  ∧ OTP.attempted_spent t (OTP.incrementAttempts e o p coll1).2.
Proof.
  intros Ho He Hp Hinv.
  unfold OTP.verifyOTP, OTP.save, mbind, M_bind, get, put, mret, M_ret, throw.
  set (q := lowercase_trim e) in *.
  destruct (list_find (λ d, OTP.matches q o p d ∧ OTP.active t d) coll)
    as [[i d]|] eqn:Hf.
  - apply list_find_Some in Hf as (Hi & [Hm Hact] & Hfirst).
    assert (OTP.attempts d ≤ 0)%Z as Hzero.
    { destruct (decide (0 < OTP.attempts d)%Z) as [Hpos|]; [|lia].
      by destruct (Hinv d (list_elem_of_lookup_2 _ _ _ Hi) Hpos). }
    rewrite decide_False by lia.
    rewrite decide_True.
    2:{ destruct Hm as (Hme & Hmo & Hmp). split_and!; simpl; [congruence..|lia]. }
    intros [= <- <-].
    assert (¬ OTP.active t (OTP.set_isUsed true d)) as Hspent by (by intros [??]).
    assert (OTP.attempted_spent t (<[i := OTP.set_isUsed true d]> coll)) as Hinv1
      by (by apply attempted_spent_insert).
    split_and!; [done|done|].
    apply incrementAttempts_attempted_spent; [done|].
    intros j x (Hj & Hmx & Hfirst2)%list_find_Some.
    apply list_lookup_insert_Some in Hj as [(-> & <- & _)|[Hne Hj]]; [done|].
    intros Hax. apply (Hfirst j x Hj); [|done].
    destruct (decide (j < i)) as [|Hge]; [done|].
    destruct (Hfirst2 i (OTP.set_isUsed true d)); [|lia|done].
    apply list_lookup_insert_eq. by eapply lookup_lt_Some.
  - apply list_find_None in Hf. rewrite Forall_forall in Hf.
    assert (OTP.attempted_spent t (OTP.incrementAttempts e o p coll).2) as Hinc.
    { apply incrementAttempts_attempted_spent; [done|].
      intros j x (Hj & Hmx & _)%list_find_Some Hax.
      apply (Hf x); [by eapply list_elem_of_lookup_2|done]. }
    destruct (list_find (OTP.matches q o p) coll) as [[j x]|];
      [destruct (OTP.isUsed x)|]; intros [= <- <-]; done.
Qed.

(** C5. Issuing a code for (e, p) drops every stored code of the pair and
    appends exactly one; after two issuances in sequence the pair has exactly
    one stored code, it is unused and unexpired from the second issuance
    until its expiry, and a store with at most one code per pair keeps that
    property through every issuance. The purpose is one of the schema's, the
    email is not blank, the configured length and expiry are positive, and
    the two instants and the expiries computed from them are instants a
    [Date] can hold. *)
Theorem createOTP_leaves_one_active (env : Env) (random1 random2 : nat → nat)
    (now1 now2 : Z) (e p : string) (coll : list OTP.Doc) :
  p ∈ OTP.purposes →
  lowercase_trim e ≠ "" →
  (0 < or_default (OTP_LENGTH env) 6)%Z →
  (0 < or_default (OTP_EXPIRY_MINUTES env) 10)%Z →
  let q := lowercase_trim e in
  let coll1 := (OTP.createOTP env random1 now1 e p coll).2 in
  let coll2 := (OTP.createOTP env random2 now2 e p coll1).2 in
  let code1 := OTP.generateOTP random1 (or_default (OTP_LENGTH env) 6) in
  let code2 := OTP.generateOTP random2 (or_default (OTP_LENGTH env) 6) in
  let expires1 := (now1 + or_default (OTP_EXPIRY_MINUTES env) 10 * 60 * 1000)%Z in
  let expires2 := (now2 + or_default (OTP_EXPIRY_MINUTES env) 10 * 60 * 1000)%Z in
  let doc2 := {| OTP.email := q; OTP.otp := code2; OTP.purpose := p;
                 OTP.attempts := 0; OTP.isUsed := false;
                 OTP.expiresAt := expires2 |} in
  valid_date now1 → valid_date expires1 →
  valid_date now2 → valid_date expires2 →
  (OTP.createOTP env random1 now1 e p coll).1 = Ok code1
  ∧ (OTP.createOTP env random2 now2 e p coll1).1 = Ok code2
  ∧ filter (OTP.for_pair q p) coll2 = [doc2]
  ∧ (∀ t, (now2 ≤ t < expires2)%Z →
       filter (λ d, OTP.for_pair q p d ∧ OTP.active t d) coll2 = [doc2])
  ∧ (OTP.one_per_pair coll → OTP.one_per_pair coll1 ∧ OTP.one_per_pair coll2).
Proof.
  intros Hp He Hlen Hpos q coll1 coll2 code1 code2 expires1 expires2 doc2
    Hnow1 Hexp1 Hnow2 Hexp2.
  assert (filter (OTP.for_pair q p) coll2 = [doc2]) as Hpair.
  { unfold coll2. rewrite createOTP_run by done. simpl. fold q code2 expires2 doc2.
    rewrite filter_app, filter_pair_deleted. simpl.
    rewrite filter_cons, decide_True by done. done. }
  split_and!.
  - by rewrite createOTP_run.
  - unfold coll2. by rewrite createOTP_run.
  - done.
  - intros t Ht.
    rewrite (list_filter_iff _ (λ d, OTP.active t d ∧ OTP.for_pair q p d))
      by (intros d; split; intros [??]; done).
    rewrite <- list_filter_filter, Hpair. rewrite filter_cons, decide_True; [done|].
    split; simpl; [done|lia].
  - intros Hnd. split.
    + by apply createOTP_store_invariant.
    + by apply createOTP_store_invariant, createOTP_store_invariant.
Qed.

End OTPProperties.

(** ** The invitation state machine *)

Section InvitationProperties.
Context {setters : SchemaSetters} {ids : ObjectIdCast}.

Lemma createInvitation_conflict_iff (env : Env) (now : Z) (tok id : string)
    (data : TeamInvitation.InvitationData) (coll : list TeamInvitation.Doc) :
  (TeamInvitation.createInvitation env now tok id data coll).1 =
    Throw "An invitation has already been sent to this email for this workspace"
  ↔ ∃ w d, TeamInvitation.cast_filter (TeamInvitation.d_workspaceId data) = Some w
         ∧ d ∈ coll
         ∧ TeamInvitation.pending_for
             (lowercase_trim (TeamInvitation.d_email data)) w now d.
Proof.
  unfold TeamInvitation.createInvitation, mbind, M_bind, get, throw, insertOne,
    mret, M_ret.
  destruct (TeamInvitation.cast_filter _) as [w|] eqn:Hw.
  2:{ split; [done|]. by intros (? & ? & ? & _). }
  destruct (list_find _ coll) as [[i d]|] eqn:Hf.
  - split; [|done]. intros _. apply list_find_Some in Hf as (Hi & Hp & _).
    exists w, d. split; [done|]. split; [|done]. by eapply list_elem_of_lookup_2.
  - split.
    + repeat case_decide; simpl; intros [=].
    + intros (w' & d & [= <-] & Hd & Hp).
      apply list_find_None in Hf. rewrite Forall_forall in Hf.
      by destruct (Hf d Hd).
Qed.

Lemma createInvitation_ok (env : Env) (now : Z) (tok id : string)
    (data : TeamInvitation.InvitationData) (coll : list TeamInvitation.Doc)
    (w : string) :
  let e := lowercase_trim (TeamInvitation.d_email data) in
  let inv :=
    {| TeamInvitation._id := id; TeamInvitation.email := e;
       TeamInvitation.workspaceId := w;
       TeamInvitation.invitedBy :=
         TeamInvitation.cast_path (TeamInvitation.d_invitedBy data);
       TeamInvitation.role := default "member" (TeamInvitation.d_role data);
       TeamInvitation.token := tok; TeamInvitation.status := TeamInvitation.pending;
       TeamInvitation.acceptedBy := None; TeamInvitation.acceptedAt := None;
       TeamInvitation.expiresAt :=
         (now + or_default (INVITATION_EXPIRY_HOURS env) 72 * 60 * 60 * 1000)%Z;
       TeamInvitation.metadata :=
         {| TeamInvitation.inviterName := TeamInvitation.d_inviterName data;
            TeamInvitation.workspaceName := TeamInvitation.d_workspaceName data;
            TeamInvitation.personalMessage := TeamInvitation.d_personalMessage data |} |} in
  TeamInvitation.cast_filter (TeamInvitation.d_workspaceId data) = Some w →
  (∀ d, d ∈ coll → ¬ TeamInvitation.pending_for e w now d) →
  TeamInvitation.valid_new inv →
  (∀ d, d ∈ coll → ¬ TeamInvitation.clash inv d) →
  TeamInvitation.createInvitation env now tok id data coll = (Ok inv, coll ++ [inv]).
Proof.
  intros e inv Hw Hnone Hvalid Hfresh.
  unfold TeamInvitation.createInvitation, mbind, M_bind, get, throw, insertOne,
    mret, M_ret.
  rewrite Hw. fold e.
  assert (list_find (TeamInvitation.pending_for e w now) coll = None) as ->.
  { apply list_find_None, Forall_forall. auto. }
  fold inv. rewrite decide_True by done.
  rewrite decide_False; [done|].
  rewrite Exists_exists. intros (d & Hd & Hc). by eapply Hfresh.
Qed.

(** Once the only pending invitation of a pair has left the pending state,
    a new invitation for the pair is stored. *)
Lemma createInvitation_after_resolution (env : Env) (now : Z) (tok id : string)
    (data : TeamInvitation.InvitationData) (coll : list TeamInvitation.Doc)
    (w : string) (i : nat) (d d' : TeamInvitation.Doc) :
  let e := lowercase_trim (TeamInvitation.d_email data) in
  let inv :=
    {| TeamInvitation._id := id; TeamInvitation.email := e;
       TeamInvitation.workspaceId := w;
       TeamInvitation.invitedBy :=
         TeamInvitation.cast_path (TeamInvitation.d_invitedBy data);
       TeamInvitation.role := default "member" (TeamInvitation.d_role data);
       TeamInvitation.token := tok; TeamInvitation.status := TeamInvitation.pending;
       TeamInvitation.acceptedBy := None; TeamInvitation.acceptedAt := None;
       TeamInvitation.expiresAt :=
         (now + or_default (INVITATION_EXPIRY_HOURS env) 72 * 60 * 60 * 1000)%Z;
       TeamInvitation.metadata :=
         {| TeamInvitation.inviterName := TeamInvitation.d_inviterName data;
            TeamInvitation.workspaceName := TeamInvitation.d_workspaceName data;
            TeamInvitation.personalMessage := TeamInvitation.d_personalMessage data |} |} in
  TeamInvitation.cast_filter (TeamInvitation.d_workspaceId data) = Some w →
  coll !! i = Some d →
  (∀ j x, coll !! j = Some x → TeamInvitation.email x = e →
     TeamInvitation.workspaceId x = w →
     TeamInvitation.status x = TeamInvitation.pending → j = i) →
  TeamInvitation.status d' ≠ TeamInvitation.pending →
  TeamInvitation._id d' = TeamInvitation._id d →
  TeamInvitation.token d' = TeamInvitation.token d →
  TeamInvitation.valid_new inv →
  (∀ x, x ∈ coll → ¬ TeamInvitation.clash inv x) →
  TeamInvitation.createInvitation env now tok id data (<[i := d']> coll) =
    (Ok inv, <[i := d']> coll ++ [inv]).
Proof.
  intros e inv Hw Hi Hone Hst Hid Htok Hvalid Hfresh.
  apply createInvitation_ok; [done| |done|].
  - intros x Hx (He & Hw' & Hp & _).
    apply list_elem_of_lookup in Hx as [j Hj].
    apply list_lookup_insert_Some in Hj as [(-> & -> & _)|[Hne Hj]]; [done|].
    apply Hne. symmetry. by eapply Hone.
  - intros x Hx Hc.
    apply list_elem_of_lookup in Hx as [j Hj].
    apply list_lookup_insert_Some in Hj as [(-> & -> & _)|[Hne Hj]].
    + apply (Hfresh d); [by eapply list_elem_of_lookup_2|].
      unfold TeamInvitation.clash in *. by rewrite <- Hid, <- Htok.
    + apply (Hfresh x); [by eapply list_elem_of_lookup_2|done].
Qed.

(** C6. [createInvitation] throws the duplicate-invitation error exactly
    when a pending, unexpired invitation is stored for the email, after the
    setters of its path, and the workspace, after the cast of the query
    filter to an ObjectId (a string that spells no ObjectId makes the query
    throw a CastError instead). And once the pair's pending invitation,
    valid for its schema, has been accepted or declined (accepted at an
    instant that a [Date] can hold, by a user whose [_id] is an ObjectId as
    stored), a request for the pair with a fresh token and identifier, an
    email that is not blank, a role of the schema, a workspace and an
    inviter that are present and spell ObjectIds, made at an instant that a
    [Date] can hold as it can the expiry computed from it, stores a new
    pending invitation carrying that token and that expiry. *)
Theorem createInvitation_conflict_then_fresh (env : Env) (now now2 t : Z)
    (tok id userId : string) (data : TeamInvitation.InvitationData)
    (coll : list TeamInvitation.Doc) (i : nat) (d : TeamInvitation.Doc)
    (w : string) :
  let e := lowercase_trim (TeamInvitation.d_email data) in
  let expires2 :=
    (now2 + or_default (INVITATION_EXPIRY_HOURS env) 72 * 60 * 60 * 1000)%Z in
  TeamInvitation.cast_filter (TeamInvitation.d_workspaceId data) = Some w →
  coll !! i = Some d →
  TeamInvitation.valid_new d →
  TeamInvitation.pending_for e w now d →
  (∀ j x, coll !! j = Some x → TeamInvitation.email x = e →
     TeamInvitation.workspaceId x = w →
     TeamInvitation.status x = TeamInvitation.pending → j = i) →
  castObjectId userId = Some userId → valid_date t →
  e ≠ "" → tok ≠ "" →
  default "member" (TeamInvitation.d_role data) ∈ TeamInvitation.roles →
  w ≠ "" →
  TeamInvitation.cast_path (TeamInvitation.d_invitedBy data) ≠ "" →
  valid_date now2 → valid_date expires2 →
  (∀ x, x ∈ coll → TeamInvitation._id x ≠ id ∧ TeamInvitation.token x ≠ tok) →
  (∀ env' n tok' id' data' c,
     (TeamInvitation.createInvitation env' n tok' id' data' c).1 =
       Throw "An invitation has already been sent to this email for this workspace"
     ↔ ∃ w' x,
         TeamInvitation.cast_filter (TeamInvitation.d_workspaceId data') = Some w'
         ∧ x ∈ c
         ∧ TeamInvitation.pending_for
             (lowercase_trim (TeamInvitation.d_email data')) w' n x)
  ∧ TeamInvitation.createInvitation env now tok id data coll =
      (Throw "An invitation has already been sent to this email for this workspace",
       coll)
  ∧ ∀ coll',
      coll' = (TeamInvitation.accept t i d userId coll).2
      ∨ coll' = (TeamInvitation.decline i d coll).2 →
      ∃ inv,
        TeamInvitation.createInvitation env now2 tok id data coll' =
          (Ok inv, coll' ++ [inv])
        ∧ TeamInvitation.status inv = TeamInvitation.pending
        ∧ TeamInvitation.email inv = e
        ∧ TeamInvitation.workspaceId inv = w
        ∧ TeamInvitation.invitedBy inv =
            TeamInvitation.cast_path (TeamInvitation.d_invitedBy data)
        ∧ TeamInvitation.token inv = tok
        ∧ TeamInvitation.expiresAt inv = expires2.
Proof.
  intros e expires2 Hw Hi [Hvalid _] Hpend Hone _ _ He Htk Hrole Hwne Hby Hnow2
    Hexp2 Hfresh. split_and!.
  - intros. apply createInvitation_conflict_iff.
  - unfold TeamInvitation.createInvitation, mbind, M_bind, get, throw.
    rewrite Hw. fold e.
    destruct (list_find _ coll) as [[j x]|] eqn:Hf; [done|].
    apply list_find_None in Hf. rewrite Forall_forall in Hf.
    destruct (Hf d); [by eapply list_elem_of_lookup_2|done].
  - intros coll' Hcoll'.
    pose proof Hpend as (_ & _ & Hst & _).
    assert (∃ d', coll' = <[i := d']> coll
                  ∧ TeamInvitation.status d' ≠ TeamInvitation.pending
                  ∧ TeamInvitation._id d' = TeamInvitation._id d
                  ∧ TeamInvitation.token d' = TeamInvitation.token d)
      as (d' & -> & Hst' & Hid & Htok).
    { destruct Hcoll' as [->| ->].
      - unfold TeamInvitation.accept, TeamInvitation.save,
          mbind, M_bind, get, put, throw, mret, M_ret.
        rewrite decide_False by (intros Hn; by apply Hn).
        case_decide; rewrite decide_True by done; simpl.
        + by exists (TeamInvitation.set_status TeamInvitation.expired d).
        + by exists (TeamInvitation.set_accepted userId t d).
      - unfold TeamInvitation.decline, TeamInvitation.save,
          mbind, M_bind, get, put, throw, mret, M_ret.
        rewrite decide_False by (intros Hn; by apply Hn).
        rewrite decide_True by done. simpl.
        by exists (TeamInvitation.set_status TeamInvitation.declined d). }
    eexists. split.
    + eapply createInvitation_after_resolution; eauto.
      * split_and!; simpl; done.
      * intros x Hx [Hc|Hc]; simpl in Hc; destruct (Hfresh x Hx); congruence.
    + done.
Qed.

(** C7. Accepting a stored pending invitation, valid for its schema, whose
    expiry has passed stores it as
    expired and throws 'Invitation has expired'; from then on [findByToken]
    on its token throws 'Invalid or expired invitation', at any time; and
    whatever [findByToken] returns is a stored pending, unexpired invitation
    with that token. *)
Theorem accept_expired_then_token_invalid (coll : list TeamInvitation.Doc)
    (i : nat) (d : TeamInvitation.Doc) (now : Z) (userId : string) :
  coll !! i = Some d →
  TeamInvitation.valid d →
  TeamInvitation.status d = TeamInvitation.pending →
  (TeamInvitation.expiresAt d < now)%Z →
  NoDup (TeamInvitation.token <$> coll) →
  let d' := TeamInvitation.set_status TeamInvitation.expired d in
  let coll' := <[i := d']> coll in
  TeamInvitation.accept now i d userId coll = (Throw "Invitation has expired", coll')
  ∧ coll' !! i = Some d'
  ∧ TeamInvitation.status d' = TeamInvitation.expired
  ∧ (∀ now', TeamInvitation.findByToken now' (TeamInvitation.token d) coll' =
               (Throw "Invalid or expired invitation", coll'))
  ∧ (∀ n tk c j x c', TeamInvitation.findByToken n tk c = (Ok (j, x), c') →
       c' = c ∧ c !! j = Some x ∧ TeamInvitation.token x = tk
       ∧ TeamInvitation.status x = TeamInvitation.pending
       ∧ (n < TeamInvitation.expiresAt x)%Z).
Proof.
  intros Hi Hvalid Hst Hexp Hnd d' coll'. split_and!.
  - unfold TeamInvitation.accept, TeamInvitation.save,
      mbind, M_bind, get, put, throw.
    rewrite decide_False by (intros Hn; by apply Hn).
    rewrite decide_True by done. by rewrite decide_True.
  - apply list_lookup_insert_eq. by eapply lookup_lt_Some.
  - done.
  - intros now'. unfold TeamInvitation.findByToken, mbind, M_bind, get, throw.
    destruct (list_find _ coll') as [[j x]|] eqn:Hf; [|done].
    apply list_find_Some in Hf as (Hj & (Htok & Hp & _) & _).
    apply list_lookup_insert_Some in Hj as [(-> & <- & _)|[Hne Hj]]; [done|].
    destruct Hne. apply (NoDup_lookup _ i j (TeamInvitation.token d) Hnd).
    + by rewrite list_lookup_fmap, Hi.
    + by rewrite list_lookup_fmap, Hj, <- Htok.
  - intros n tk c j x c'.
    unfold TeamInvitation.findByToken, mbind, M_bind, get, throw, mret, M_ret.
    destruct (list_find _ c) as [[j' x']|] eqn:Hf; [|done].
    intros [= -> -> <-]. apply list_find_Some in Hf as (Hj & (? & ? & ?) & _).
    done.
Qed.

End InvitationProperties.

(** ** The verify-email handler *)

Section AuthProperties.
Context {setters : SchemaSetters} {bcrypt : Bcrypt}.

(** A guess that matches no stored triple is answered with 'Invalid OTP' and
    changes nothing but the status code: the increment of the [catch] block
    filters on the presented code and so finds no record either. *)
Lemma verifyEmail_wrong_code (now : Z) (salt wsid : string)
    (body : AuthController.VerifyBody) (ctx : Ctx) :
  AuthController.v_email body ≠ "" → AuthController.v_otp body ≠ "" →
  (∀ d, d ∈ otps (db ctx) →
     ¬ OTP.matches (lowercase_trim (AuthController.v_email body))
         (AuthController.v_otp body) "email_verification" d) →
  AuthController.verifyEmail now salt wsid body ctx =
    (Throw "Invalid OTP", {| db := db ctx; statusCode := 400 |}).
Proof.
  intros He Ho Hnone. unfold AuthController.verifyEmail.
  rewrite decide_False by tauto. run.
  rewrite verifyOTP_invalid by done. simpl.
  rewrite incrementAttempts_missing by done. simpl.
  by destruct ctx as [[] ?].
Qed.

(** What a verify-email request does to the codes: the effect of
    [verifyOTP], then, when the request fails, that of [incrementAttempts];
    and it answers with the five-attempts error only when [verifyOTP] threw
    it. *)
Lemma verifyEmail_otps (now : Z) (salt wsid : string)
    (body : AuthController.VerifyBody) (ctx ctx' : Ctx)
    (r1 : result bool) (coll1 : list OTP.Doc) (r : result Reply) :
  AuthController.v_email body ≠ "" → AuthController.v_otp body ≠ "" →
  let e := AuthController.v_email body in
  let o := AuthController.v_otp body in
  OTP.verifyOTP now e o "email_verification" (otps (db ctx)) = (r1, coll1) →
  AuthController.verifyEmail now salt wsid body ctx = (r, ctx') →
  (otps (db ctx') = coll1
   ∨ otps (db ctx') = (OTP.incrementAttempts e o "email_verification" coll1).2)
  ∧ (r = Throw "Too many failed attempts. Please request a new OTP" →
     r1 = Throw "Too many failed attempts. Please request a new OTP").
Proof.
  intros He Ho e o Hv. unfold AuthController.verifyEmail.
  rewrite decide_False by tauto. fold e o. run. rewrite Hv. simpl.
  destruct r1 as [b|m]; simpl.
  2:{ destruct (OTP.incrementAttempts _ _ _ _) as [[[]|m'] coll2]; simpl;
        intros [= <- <-]; simpl; (split; [by right|by intros [= ->]]). }
  unfold User.save, Workspace.create, insertOne. run.
  repeat (break_match; simpl).
  all: intros [= <- <-]; simpl; (split; [auto|intros [=]]).
Qed.

(** Through the verify-email handler the limit of five attempts is out of
    reach: on a store whose attempted codes are all spent, no request is
    answered 'Too many failed attempts', and the store stays such from then
    on. A store of codes issued by [createOTP] is one, see
    [createOTP_attempted_spent]. *)
Lemma verifyEmail_never_locked (now : Z) (salt wsid : string)
    (body : AuthController.VerifyBody) (ctx ctx' : Ctx) (r : result Reply) :
  lowercase_trim (AuthController.v_email body) ≠ "" →
  OTP.attempted_spent now (otps (db ctx)) →
  AuthController.verifyEmail now salt wsid body ctx = (r, ctx') →
  r ≠ Throw "Too many failed attempts. Please request a new OTP"
  ∧ ∀ t, (now ≤ t)%Z → OTP.attempted_spent t (otps (db ctx')).
Proof.
  intros He' Hinv Hrun.
  destruct (decide (AuthController.v_email body = ""
                    ∨ AuthController.v_otp body = "")) as [Hempty|Hfull].
  { revert Hrun. unfold AuthController.verifyEmail.
    rewrite decide_True by done. run. intros [= <- <-]. simpl.
    split; [done|]. intros t Ht. by eapply attempted_spent_later. }
  destruct (OTP.verifyOTP now (AuthController.v_email body)
              (AuthController.v_otp body) "email_verification" (otps (db ctx)))
    as [r1 coll1] eqn:Hv.
  destruct (verifyOTP_never_locked _ _ _ _ _ _ _
              (λ Ho, Hfull (or_intror Ho)) He'
              ltac:(unfold OTP.purposes; in_list) Hinv Hv)
    as (Hr1 & Hinv1 & Hinv2).
  destruct (verifyEmail_otps now salt wsid body ctx ctx' r1 coll1 r
              (λ He, Hfull (or_introl He)) (λ Ho, Hfull (or_intror Ho)) Hv Hrun)
    as [Hotps Hr].
  split; [by intros Hlocked; apply Hr1, Hr|].
  intros t Ht. eapply attempted_spent_later; [done|].
  by destruct Hotps as [-> | ->].
Qed.

(** C10. For an account that is already verified, a verify-email request
    with an active code of its email (stored valid, fewer than five
    attempts) answers 'Email is already verified'
    (status 400); the code is nevertheless stored as used, with its attempt
    counter incremented by the [catch] block, while accounts, workspaces and
    invitations are unchanged; and every later request with the same code is
    answered 'OTP has already been used'. *)
Theorem verifyEmail_verified_account_consumes_code (now : Z) (salt wsid : string)
    (body : AuthController.VerifyBody) (ctx : Ctx)
    (i : nat) (d : OTP.Doc) (j : nat) (u : User.Doc) :
  AuthController.v_email body ≠ "" → AuthController.v_otp body ≠ "" →
  OTP.one_per_pair (otps (db ctx)) →
  otps (db ctx) !! i = Some d →
  OTP.matches (lowercase_trim (AuthController.v_email body))
    (AuthController.v_otp body) "email_verification" d →
  OTP.active now d → (OTP.attempts d < 5)%Z → OTP.valid d →
  list_find (λ x, User.email x = AuthController.v_email body) (users (db ctx))
    = Some (j, u) →
  User.emailVerified u = true →
  let d' := OTP.inc_attempts (OTP.set_isUsed true d) in
  let ctx' := {| db := {| otps := <[i := d']> (otps (db ctx));
                          users := users (db ctx);
                          workspaces := workspaces (db ctx);
                          invitations := invitations (db ctx) |};
                 statusCode := 400 |} in
  AuthController.verifyEmail now salt wsid body ctx =
    (Throw "Email is already verified", ctx')
  ∧ OTP.isUsed d' = true
  ∧ (OTP.attempts d' = OTP.attempts d + 1)%Z
  ∧ ∀ now' salt' wsid',
      (AuthController.verifyEmail now' salt' wsid' body ctx').1 =
        Throw "OTP has already been used".
Proof.
  intros He Ho Hnd Hi Hm Hact Hatt Hvalid Hu Hv d' ctx'.
  assert (i < length (otps (db ctx))) as Hlen by (by eapply lookup_lt_Some).
  assert (OTP.one_per_pair (<[i := OTP.set_isUsed true d]> (otps (db ctx))))
    as Hnd1 by (by apply (one_per_pair_insert _ i d)).
  assert (OTP.one_per_pair (<[i := d']> (otps (db ctx))))
    as Hnd2 by (by apply (one_per_pair_insert _ i d)).
  split_and!; [| done | done |].
  - unfold AuthController.verifyEmail.
    rewrite decide_False by tauto. run.
    rewrite (verifyOTP_success _ _ _ _ _ i d) by done. simpl.
    unfold User.findOne. run. rewrite Hu. simpl. rewrite Hv. simpl.
    rewrite (incrementAttempts_found _ _ _ _ i (OTP.set_isUsed true d));
      [|done|by apply list_lookup_insert_eq|done].
    simpl. by rewrite list_insert_insert_eq.
  - intros now' salt' wsid'. unfold AuthController.verifyEmail.
    rewrite decide_False by tauto. run.
    rewrite (verifyOTP_used _ _ _ _ _ i d');
      [|done|by apply list_lookup_insert_eq|done|done].
    simpl.
    rewrite (incrementAttempts_found _ _ _ _ i d');
      [|done|by apply list_lookup_insert_eq|done].
    done.
Qed.

End AuthProperties.

(** C2. Five failed verify-email requests for Alice's active code, each
    followed by the increment of the [catch] block, do not lock the code:
    with five wrong guesses the increment filters on the guessed code, the
    counter of the active code stays at 0 and the sixth request, with the
    correct code, succeeds; with five requests that present the correct
    code while the account is missing, the first one consumes the code and
    the sixth is answered 'OTP has already been used'. In neither case is
    the sixth answer 'Too many failed attempts'. *)
Theorem verifyEmail_sixth_call_not_locked :
  let wrong := ["000000"; "111111"; "222222"; "333333"; "444444"] in
  let '(answers, ctx5) := Scenario.verify_all wrong Scenario.registered in
  let same := ["123456"; "123456"; "123456"; "123456"; "123456"] in
  let '(answers', ctx5') := Scenario.verify_all same Scenario.code_only in
  answers = replicate 5 (Throw "Invalid OTP")
  ∧ otps (db ctx5) = [Scenario.alice_code]
  ∧ (Scenario.verify "123456" ctx5).1 =
      Ok {| success := true; message := "Email verified successfully" |}
  ∧ answers' = Throw "User not found"
                 :: replicate 4 (Throw "OTP has already been used")
  ∧ OTP.attempts <$> otps (db ctx5') = [5%Z]
  ∧ (Scenario.verify "123456" ctx5').1 = Throw "OTP has already been used".
Proof. vm_compute. done. Qed.

(** ** Failed deliveries *)

Section DeliveryProperties.
Context {setters : SchemaSetters} {strings : StringOps} {bcrypt : Bcrypt}
  {ids : ObjectIdCast}.

Lemma createInvitation_inv (env : Env) (now : Z) (tok id : string)
    (data : TeamInvitation.InvitationData) (coll coll' : list TeamInvitation.Doc)
    (inv : TeamInvitation.Doc) :
  TeamInvitation.createInvitation env now tok id data coll = (Ok inv, coll') →
  coll' = coll ++ [inv] ∧ TeamInvitation._id inv = id
  ∧ ∀ x, x ∈ coll → TeamInvitation._id x ≠ id.
Proof.
  unfold TeamInvitation.createInvitation, mbind, M_bind, get, throw, insertOne,
    mret, M_ret.
  destruct (TeamInvitation.cast_filter _) as [w|]; [|done].
  destruct (list_find _ coll) as [[i d]|]; [done|].
  case_decide; [|done]. case_decide as Hex; [done|].
  intros [= <- <-]. split; [done|]. split; [done|].
  intros x Hx Hid. apply Hex, Exists_exists. exists x. split; [done|].
  left. by simpl.
Qed.

Lemma findByIdAndDelete_last (coll : list TeamInvitation.Doc)
    (inv : TeamInvitation.Doc) :
  (∀ x, x ∈ coll → TeamInvitation._id x ≠ TeamInvitation._id inv) →
  TeamInvitation.findByIdAndDelete (TeamInvitation._id inv) (coll ++ [inv]) =
    (Ok tt, coll).
Proof.
  intros Hfresh. unfold TeamInvitation.findByIdAndDelete, mbind, M_bind, get, put.
  assert (list_find (λ d, TeamInvitation._id d = TeamInvitation._id inv)
            (coll ++ [inv]) = Some (length coll, inv)) as ->.
  { apply list_find_Some. split_and!.
    - by apply list_lookup_middle.
    - done.
    - intros j y Hj Hlt. rewrite lookup_app_l in Hj by done.
      apply Hfresh. by eapply list_elem_of_lookup_2. }
  by rewrite delete_middle, app_nil_r.
Qed.

(** A reported delivery failure does not change what [registerUser] does. *)
Lemma registerUser_ignores_delivery (env : Env) (random : nat → nat) (now : Z)
    (salt id : string) (delivered : bool) (body : AuthController.RegisterBody)
    (ctx : Ctx) :
  AuthController.registerUser env random now salt id
    (Ok {| Email.success := delivered |}) body ctx =
  AuthController.registerUser env random now salt id
    (Ok {| Email.success := true |}) body ctx.
Proof. reflexivity. Qed.

Lemma createInvitation_throw_store (env : Env) (now : Z) (tok id : string)
    (data : TeamInvitation.InvitationData) (coll coll' : list TeamInvitation.Doc)
    (msg : string) :
  TeamInvitation.createInvitation env now tok id data coll = (Throw msg, coll') →
  coll' = coll.
Proof.
  unfold TeamInvitation.createInvitation, mbind, M_bind, get, throw, insertOne,
    mret, M_ret.
  destruct (TeamInvitation.cast_filter _) as [w|]; [|by intros [= _ <-]].
  destruct (list_find _ _) as [[??]|]; [by intros [= _ <-]|].
  repeat case_decide; simpl; by intros [= _ <-].
Qed.

Lemma restore_ctx (ctx : Ctx) :
  set_users (users (db ctx)) (set_workspaces (workspaces (db ctx)) ctx) = ctx.
Proof. by destruct ctx as [[] ?]. Qed.

(** The creation step of [sendInvitation] and, when it succeeded, the
    compensating deletion. *)
Ltac create_then_delete :=
  let Hc := fresh "Hc" in
  destruct (TeamInvitation.createInvitation _ _ _ _ _ _) as [[?inv|?msg] ?coll]
    eqn:Hc; simpl;
  [ let Hid := fresh "Hid" in
    apply createInvitation_inv in Hc as (-> & Hid & ?);
    rewrite findByIdAndDelete_last by (by rewrite Hid); simpl
  | apply createInvitation_throw_store in Hc as -> ].

Lemma sendInvitation_failed_delivery (env : Env) (now : Z) (tok id : string)
    (reqUser : User.Doc) (body : InvitationController.SendBody) (ctx : Ctx)
    (reply : Reply) :
  (InvitationController.sendInvitation env now tok id
     (Ok {| Email.success := true |}) reqUser body ctx).1 = Ok reply →
  InvitationController.sendInvitation env now tok id
    (Ok {| Email.success := false |}) reqUser body ctx =
    (Throw "Failed to send invitation email",
     {| db := db ctx; statusCode := 400 |}).
Proof.
  unfold InvitationController.sendInvitation.
  case_decide; [done|].
  destruct (castObjectId _) as [w|]; [|done]. run.
  destruct (list_find _ (workspaces (db ctx))) as [[k ws]|]; simpl; [|done].
  destruct (list_find _ (Workspace.members ws)) as [[k' m]|]; simpl; [|done].
  case_decide; [done|]. case_decide; [done|]. run.
  destruct (list_find _ (users (db ctx))) as [[k'' eu]|]; simpl;
    [case_decide; simpl; [done|]|];
    rewrite restore_ctx; create_then_delete; try done;
    intros _; by destruct ctx as [[] ?].
Qed.

(** Whatever the request, a failed delivery leaves the invitations as they
    were and the request is answered with an error. *)
Lemma sendInvitation_failed_delivery_store (env : Env) (now : Z) (tok id : string)
    (reqUser : User.Doc) (body : InvitationController.SendBody) (ctx : Ctx) :
  let '(r, ctx') := InvitationController.sendInvitation env now tok id
                      (Ok {| Email.success := false |}) reqUser body ctx in
  (∃ msg, r = Throw msg) ∧ invitations (db ctx') = invitations (db ctx).
Proof.
  unfold InvitationController.sendInvitation.
  case_decide; [run; eauto|].
  destruct (castObjectId _) as [w|]; [|run; eauto]. run.
  destruct (list_find _ (workspaces (db ctx))) as [[k ws]|]; simpl; [|eauto].
  destruct (list_find _ (Workspace.members ws)) as [[k' m]|]; simpl; [|eauto].
  case_decide; [eauto|]. case_decide; [eauto|]. run.
  destruct (list_find _ (users (db ctx))) as [[k'' eu]|]; simpl;
    [case_decide; simpl; [eauto|]|];
    rewrite restore_ctx; create_then_delete; eauto.
Qed.

(** For a new address [registerUser] stores a pending, unverified account,
    its password hashed by the pre-save hook, and an active code, whether
    or not the email service reports a delivery. *)
Lemma registerUser_fresh (env : Env) (random : nat → nat) (now : Z)
    (salt id : string) (delivered : bool) (body : AuthController.RegisterBody)
    (ctx : Ctx) :
  AuthController.name body ≠ "" → AuthController.email body ≠ "" →
  lowercase_trim (AuthController.email body) ≠ "" →
  6 ≤ String.length (AuthController.password body) →
  (0 < or_default (OTP_LENGTH env) 6)%Z →
  valid_date (now + or_default (OTP_EXPIRY_MINUTES env) 10 * 60 * 1000) →
  (∀ u, u ∈ users (db ctx) →
     User.email u ≠ AuthController.email body ∧ User._id u ≠ id) →
  let e := lowercase_trim (AuthController.email body) in
  let code := OTP.generateOTP random (or_default (OTP_LENGTH env) 6) in
  let doc := {| OTP.email := e; OTP.otp := code;
                OTP.purpose := "email_verification";
                OTP.attempts := 0; OTP.isUsed := false;
                OTP.expiresAt :=
                  (now + or_default (OTP_EXPIRY_MINUTES env) 10 * 60 * 1000)%Z |} in
  let account :=
    {| User._id := id;
       User.name := AuthController.name body;
       User.email := AuthController.email body;
       User.password := bcrypt_hash (AuthController.password body) salt;
       User.avatar := "/images/default-avatar.png";
       User.status := "pending";
       User.emailVerified := false;
       User.emailVerifiedAt := None;
       User.preferences := default_preferences;
       User.workspaces := [] |} in
  AuthController.registerUser env random now salt id
    (Ok {| Email.success := delivered |}) body ctx =
  (Ok {| success := true;
         message := "Registration successful. Please check your email for verification code." |},
   {| db := {| otps := filter (λ d, ¬ OTP.for_pair e "email_verification" d)
                         (otps (db ctx)) ++ [doc];
               users := users (db ctx) ++ [account];
               workspaces := workspaces (db ctx);
               invitations := invitations (db ctx) |};
      statusCode := 201 |}).
Proof.
  intros Hn He He' Hp Hlen Hdate Hfresh e code doc account.
  assert (AuthController.password body ≠ "") as Hpw.
  { intros Heq. rewrite Heq in Hp. simpl in Hp. lia. }
  unfold AuthController.registerUser.
  rewrite decide_False by tauto. rewrite decide_False by lia. run.
  assert (list_find (λ d, User.email d = AuthController.email body)
            (users (db ctx)) = None) as ->.
  { apply list_find_None, Forall_forall. intros u Hu. by destruct (Hfresh u Hu). }
  simpl. unfold User.create, User.save. simpl.
  rewrite decide_False.
  2:{ intros [_ Hinv]. apply Hinv. split_and!; simpl; try done.
      unfold User.statuses. in_list. }
  run. unfold insertOne. rewrite decide_False.
  2:{ rewrite Exists_exists. intros (u & Hu & [Hc|Hc]); simpl in Hc;
        destruct (Hfresh u Hu); congruence. }
  simpl. rewrite createOTP_run by (done || (unfold OTP.purposes; in_list)).
  simpl. done.
Qed.

(** C3 (amended). When the email service reports a failed delivery: an
    invitation request that would otherwise be answered 201 is answered with
    'Failed to send invitation email' and the database is as before the
    request, the created invitation deleted; a registration does exactly
    what it does on a successful delivery, and for a new address (not
    blank, with a password of six characters or more, a positive configured
    code length, and the instant of the request and the expiry computed
    from it both instants a [Date] can hold) that is a 201 answer with the
    pending account and the issued code both stored. *)
Theorem delivery_failure_compensation (env : Env) (now : Z) (tok id : string)
    (reqUser : User.Doc) (sbody : InvitationController.SendBody) (ctx : Ctx)
    (reply : Reply) (random : nat → nat) (salt uid : string)
    (rbody : AuthController.RegisterBody) (rctx : Ctx) :
  (InvitationController.sendInvitation env now tok id
     (Ok {| Email.success := true |}) reqUser sbody ctx).1 = Ok reply →
  AuthController.name rbody ≠ "" → AuthController.email rbody ≠ "" →
  lowercase_trim (AuthController.email rbody) ≠ "" →
  6 ≤ String.length (AuthController.password rbody) →
  (0 < or_default (OTP_LENGTH env) 6)%Z →
  valid_date now →
  valid_date (now + or_default (OTP_EXPIRY_MINUTES env) 10 * 60 * 1000) →
  (∀ u, u ∈ users (db rctx) →
     User.email u ≠ AuthController.email rbody ∧ User._id u ≠ uid) →
  let e := lowercase_trim (AuthController.email rbody) in
  let doc := {| OTP.email := e;
                OTP.otp := OTP.generateOTP random (or_default (OTP_LENGTH env) 6);
                OTP.purpose := "email_verification";
                OTP.attempts := 0; OTP.isUsed := false;
                OTP.expiresAt :=
                  (now + or_default (OTP_EXPIRY_MINUTES env) 10 * 60 * 1000)%Z |} in
  let account :=
    {| User._id := uid;
       User.name := AuthController.name rbody;
       User.email := AuthController.email rbody;
       User.password := bcrypt_hash (AuthController.password rbody) salt;
       User.avatar := "/images/default-avatar.png";
       User.status := "pending";
       User.emailVerified := false;
       User.emailVerifiedAt := None;
       User.preferences := default_preferences;
       User.workspaces := [] |} in
  InvitationController.sendInvitation env now tok id
    (Ok {| Email.success := false |}) reqUser sbody ctx =
    (Throw "Failed to send invitation email",
     {| db := db ctx; statusCode := 400 |})
  ∧ AuthController.registerUser env random now salt uid
      (Ok {| Email.success := false |}) rbody rctx =
    AuthController.registerUser env random now salt uid
      (Ok {| Email.success := true |}) rbody rctx
  ∧ AuthController.registerUser env random now salt uid
      (Ok {| Email.success := false |}) rbody rctx =
    (Ok {| success := true;
           message := "Registration successful. Please check your email for verification code." |},
     {| db := {| otps := filter (λ d, ¬ OTP.for_pair e "email_verification" d)
                           (otps (db rctx)) ++ [doc];
                 users := users (db rctx) ++ [account];
                 workspaces := workspaces (db rctx);
                 invitations := invitations (db rctx) |};
        statusCode := 201 |}).
Proof.
  intros Hs Hn He He' Hp Hlen Hnow Hdate Hfresh e doc account. split_and!.
  - by eapply sendInvitation_failed_delivery.
  - apply registerUser_ignores_delivery.
  - by apply registerUser_fresh.
Qed.

End DeliveryProperties.

(** C3 (as stated) fails on registration. Bob's registration with an
    undelivered code is answered 201, and both the active code and the
    unverified account stay in the database. *)
Lemma registerUser_failed_delivery_keeps_records :
  let '(r, ctx') := Scenario.register_undelivered in
  r = Ok {| success := true;
            message := "Registration successful. Please check your email for verification code." |}
  ∧ statusCode ctx' = 201%Z
  ∧ (∃ d, d ∈ otps (db ctx') ∧ OTP.email d = "bob@example.com"
          ∧ OTP.purpose d = "email_verification" ∧ OTP.active 1000 d)
  ∧ (∃ u, u ∈ users (db ctx') ∧ User.email u = "bob@example.com"
          ∧ User.status u = "pending" ∧ User.emailVerified u = false).
Proof.
  vm_compute. split_and!; [done..| |].
  - eexists. split; [apply list_elem_of_here|]. by vm_compute.
  - eexists. split; [apply list_elem_of_here|]. by vm_compute.
Qed.

(** ** Accepting an invitation *)

Section AcceptProperties.
Context {setters : SchemaSetters} {strings : StringOps} {bcrypt : Bcrypt}.

(** C9. For a stored pending, unexpired invitation, valid for its schema,
    with role 'manager', a role its schema allows and the workspace schema
    does not, and a verified
    account entitled to accept it: the accept handler stores the invitation
    as accepted, then the save of the workspace with the pushed member is
    rejected by validation, and the request ends with that error (status
    400) while the invitation stays accepted and the workspace and the
    accounts are unchanged. *)
Theorem acceptInvitation_manager_not_rolled_back (now : Z)
    (salt token userId : string) (ctx : Ctx)
    (i : nat) (inv : TeamInvitation.Doc) (k : nat) (u : User.Doc)
    (j : nat) (ws : Workspace.Doc) :
  token ≠ "" →
  list_find (TeamInvitation.valid_token token now) (invitations (db ctx))
    = Some (i, inv) →
  TeamInvitation.valid inv →
  TeamInvitation.role inv = "manager" →
  (userId ≠ ""
   ∧ (list_find (λ x, User._id x = userId) (users (db ctx)) = Some (k, u))
   ∧ toLowerCase (User.email u) = toLowerCase (TeamInvitation.email inv))
  ∨ (userId = ""
     ∧ (list_find (λ x, User.email x = TeamInvitation.email inv) (users (db ctx))
        = Some (k, u))) →
  User.emailVerified u = true →
  list_find (λ w, Workspace._id w = TeamInvitation.workspaceId inv)
    (workspaces (db ctx)) = Some (j, ws) →
  let accepted := TeamInvitation.set_accepted (User._id u) now inv in
  "manager" ∈ TeamInvitation.roles
  ∧ ("manager" ∉ Workspace.roles)
  ∧ InvitationController.acceptInvitation now salt token userId ctx =
      (Throw "Workspace validation failed",
       {| db := {| otps := otps (db ctx);
                   users := users (db ctx);
                   workspaces := workspaces (db ctx);
                   invitations := <[i := accepted]> (invitations (db ctx)) |};
          statusCode := 400 |})
  ∧ <[i := accepted]> (invitations (db ctx)) !! i = Some accepted
  ∧ TeamInvitation.status accepted = TeamInvitation.accepted.
Proof.
  intros Htok Hinv Hvalid Hrole Huser Hver Hws accepted.
  assert ("manager" ∉ Workspace.roles) as Hnot.
  { unfold Workspace.roles. rewrite !elem_of_cons, elem_of_nil.
    intros [|[|[|[]]]]; done. }
  pose proof Hinv as (Hi & (_ & Hpend & Hexp) & _)%list_find_Some.
  split_and!.
  - unfold TeamInvitation.roles. in_list.
  - done.
  - unfold InvitationController.acceptInvitation.
    rewrite decide_False by done. run.
    unfold TeamInvitation.findByToken. run. rewrite Hinv. simpl.
    assert (TeamInvitation.accept now i inv (User._id u) (invitations (db ctx))
            = (Ok accepted, <[i := accepted]> (invitations (db ctx)))) as Hacc.
    { unfold TeamInvitation.accept, TeamInvitation.save.
      rewrite decide_False by (intros Hn; by apply Hn).
      rewrite decide_False by lia. by rewrite decide_True. }
    assert (¬ Workspace.valid
              (Workspace.set_members
                 (Workspace.members ws
                  ++ [{| Workspace.user := User._id u;
                         Workspace.role := TeamInvitation.role accepted |}]) ws))
      as Hinvalid.
    { intros [_ Hall]. simpl in Hall. apply Forall_app in Hall as [_ Hlast].
      rewrite Forall_singleton in Hlast. simpl in Hlast.
      rewrite Hrole in Hlast. by apply Hnot. }
    destruct Huser as [(Hid & Hu & Hmail)|(Hid & Hu)].
    + rewrite decide_True by done. run. rewrite Hu. simpl.
      rewrite decide_False by (intros Hn; by apply Hn). simpl.
      rewrite Hver. simpl. rewrite Hacc. simpl. rewrite Hws. simpl.
      unfold Workspace.save. rewrite decide_False by done. simpl.
      by destruct ctx as [[] ?].
    + rewrite decide_False by (intros Hn; by apply Hn). run. rewrite Hu. simpl.
      rewrite Hver. simpl. rewrite Hacc. simpl. rewrite Hws. simpl.
      unfold Workspace.save. rewrite decide_False by done. simpl.
      by destruct ctx as [[] ?].
  - apply list_lookup_insert_eq. by eapply lookup_lt_Some.
  - done.
Qed.

End AcceptProperties.

(** ** Removing a member *)

Section RemoveMemberProperties.

Lemma restore_workspaces (ctx : Ctx) :
  set_workspaces (workspaces (db ctx)) ctx = ctx.
Proof. by destruct ctx as [[] ?]. Qed.

(** C8 (amended). A request to remove the owner of a workspace always
    fails and changes nothing in the database: with 'Cannot remove workspace
    owner' (400) when the requester is the owner or an admin member, and
    with 'Access denied' (403) otherwise. And whoever a remove-member
    request names, the member entries of the owner are still in the stored
    workspace afterwards. *)
Theorem removeMember_owner_stays (reqUserId id : string) (ctx : Ctx)
    (i : nat) (ws : Workspace.Doc) :
  list_find (λ w, Workspace._id w = id) (workspaces (db ctx)) = Some (i, ws) →
  let privileged :=
    Workspace.owner ws = reqUserId
    ∨ Exists (λ m, Workspace.user m = reqUserId ∧ Workspace.role m = "admin")
        (Workspace.members ws) in
  (privileged →
     WorkspaceRoutes.removeMember reqUserId id (Workspace.owner ws) ctx =
       (Throw "Cannot remove workspace owner",
        {| db := db ctx; statusCode := 400 |}))
  ∧ (¬ privileged →
     WorkspaceRoutes.removeMember reqUserId id (Workspace.owner ws) ctx =
       (Throw "Access denied", {| db := db ctx; statusCode := 403 |}))
  ∧ ∀ userId,
      ∃ ws', workspaces (db (WorkspaceRoutes.removeMember reqUserId id userId ctx).2)
               !! i = Some ws'
           ∧ Workspace.owner ws' = Workspace.owner ws
           ∧ ∀ m, m ∈ Workspace.members ws →
                  Workspace.user m = Workspace.owner ws →
                  m ∈ Workspace.members ws'.
Proof.
  intros Hws privileged.
  pose proof Hws as (Hi & _ & _)%list_find_Some.
  split_and!.
  - intros Hpriv. unfold WorkspaceRoutes.removeMember. run.
    unfold Workspace.findById. run. rewrite Hws. simpl.
    rewrite restore_workspaces.
    destruct Hpriv as [Ho|Ha].
    + rewrite (bool_decide_eq_true_2 _ Ho). simpl.
      by rewrite decide_True.
    + rewrite (bool_decide_eq_true_2 _ Ha). simpl.
      rewrite andb_false_r. simpl. by rewrite decide_True.
  - intros Hnpriv. unfold WorkspaceRoutes.removeMember. run.
    unfold Workspace.findById. run. rewrite Hws. simpl.
    rewrite restore_workspaces.
    rewrite (bool_decide_eq_false_2 (Workspace.owner ws = reqUserId))
      by (intros Ho; apply Hnpriv; by left).
    rewrite (bool_decide_eq_false_2 (Exists _ _))
      by (intros Ha; apply Hnpriv; by right).
    done.
  - intros userId.
    assert (∃ ws', workspaces (db ctx) !! i = Some ws'
              ∧ Workspace.owner ws' = Workspace.owner ws
              ∧ ∀ m, m ∈ Workspace.members ws →
                     Workspace.user m = Workspace.owner ws →
                     m ∈ Workspace.members ws') as Hsame.
    { exists ws. by split_and!. }
    unfold WorkspaceRoutes.removeMember. run.
    unfold Workspace.findById. run. rewrite Hws. simpl.
    rewrite restore_workspaces.
    destruct (negb _ && negb _ && negb _); simpl; [done|].
    case_decide as Hown; simpl; [done|].
    unfold Workspace.save. case_decide; simpl; [|done].
    unfold User.pullWorkspace. run.
    exists (Workspace.set_members
              (filter (λ m, Workspace.user m ≠ userId) (Workspace.members ws)) ws).
    split_and!.
    + destruct (list_find _ (users (db ctx))) as [[??]|]; simpl;
        apply list_lookup_insert_eq; by eapply lookup_lt_Some.
    + done.
    + intros m Hm Hmo. simpl. apply list_elem_of_filter. split; [|done].
      congruence.
Qed.

End RemoveMemberProperties.

(** C8 (as stated) fails for a requester without permissions: Mallory's
    request to remove the owner is answered 'Access denied', not 'Cannot
    remove workspace owner'. *)
Lemma removeMember_outsider_access_denied :
  Scenario.outsider_removes_owner =
    (Throw "Access denied", {| db := db Scenario.team_ctx; statusCode := 403 |})
  ∧ Scenario.outsider_removes_owner.1 ≠ Throw "Cannot remove workspace owner".
Proof. by vm_compute. Qed.

(** ** Promotion of a pending registration *)

Section PromotionProperties.
Context {setters : SchemaSetters} {bcrypt : Bcrypt}.

(** C1 (what the code does). [promoteToUser] builds the account as a new
    document, so its [password] path counts as modified, the [markModified]
    calls do not change that, and the pre-save hook hashes the pending
    record's hash again: the stored credential is the bcrypt hash of the
    pending hash, not the pending hash. *)
Theorem promoteToUser_hashes_again (now : Z) (salt id email0 : string)
    (temps : list TemporaryUser.Doc) (accounts : list User.Doc)
    (k : nat) (t : TemporaryUser.Doc) :
  list_find (λ x, TemporaryUser.email x = lowercase_trim email0) temps
    = Some (k, t) →
  (∀ u, u ∈ accounts →
     User._id u ≠ id ∧ User.email u ≠ TemporaryUser.email t) →
  let stored :=
    {| User._id := id;
       User.name := TemporaryUser.name t;
       User.email := TemporaryUser.email t;
       User.password := bcrypt_hash (TemporaryUser.password t) salt;
       User.avatar := TemporaryUser.avatar t;
       User.status := "active";
       User.emailVerified := true;
       User.emailVerifiedAt := Some now;
       User.preferences := TemporaryUser.preferences t;
       User.workspaces := [] |} in
  TemporaryUser.promoteToUser now salt id email0 (temps, accounts) =
    (Ok {| User.doc := stored; User.isNew := false; User.modifiedPaths := [];
           User.slot := length accounts |},
     (delete k temps, accounts ++ [stored])).
Proof.
  intros Hfind Hfresh stored.
  unfold TemporaryUser.promoteToUser. run. rewrite Hfind. simpl.
  unfold User.save. simpl. run. unfold insertOne.
  rewrite decide_False.
  2:{ rewrite Exists_exists. intros (u & Hu & [Hc|Hc]); simpl in Hc;
        destruct (Hfresh u Hu); congruence. }
  simpl. rewrite Hfind. done.
Qed.

End PromotionProperties.

(* ================================================================== *)
(** * The properties at concrete inputs *)

(** C4 on Alice's code, queried with an address in capitals and a leading
    blank: the first call succeeds, every later one is rejected. *)
Lemma verifyOTP_outcomes_witness :
  OTP.one_per_pair [Scenario.alice_code]
  ∧ ∃ i, [Scenario.alice_code] !! i = Some Scenario.alice_code
       ∧ OTP.verifyOTP (setters := Concrete.setters) 1000 " Alice@Example.com"
           "123456" "email_verification" [Scenario.alice_code] =
           (Ok true, <[i := OTP.set_isUsed true Scenario.alice_code]>
                       [Scenario.alice_code])
       ∧ ∀ now', OTP.verifyOTP (setters := Concrete.setters) now' " Alice@Example.com"
                   "123456" "email_verification"
                   (<[i := OTP.set_isUsed true Scenario.alice_code]>
                      [Scenario.alice_code]) =
                 (Throw "OTP has already been used",
                  <[i := OTP.set_isUsed true Scenario.alice_code]>
                    [Scenario.alice_code]).
Proof.
  assert (OTP.one_per_pair [Scenario.alice_code]) as Hwf
    by apply NoDup_singleton.
  split; [exact Hwf|].
  destruct (verifyOTP_outcomes (setters := Concrete.setters) [Scenario.alice_code]
              1000 " Alice@Example.com" "123456" "email_verification" Hwf)
    as [_ Hmatch].
  apply (Hmatch Scenario.alice_code).
  - apply list_elem_of_here.
  - by vm_compute.
  - by vm_compute.
  - by vm_compute.
  - valid_doc.
Defined.

(** C5 on two issuances for Alice while her first code is stored. *)
Lemma createOTP_leaves_one_active_witness :
  "email_verification" ∈ OTP.purposes
  ∧ lowercase_trim (SchemaSetters := Concrete.setters) "alice@example.com" ≠ ""
  ∧ (0 < or_default (OTP_LENGTH Scenario.defaults) 6)%Z
  ∧ (0 < or_default (OTP_EXPIRY_MINUTES Scenario.defaults) 10)%Z
  ∧ valid_date 1000
  ∧ valid_date (1000 + or_default (OTP_EXPIRY_MINUTES Scenario.defaults) 10 * 60 * 1000)
  ∧ valid_date 2000
  ∧ valid_date (2000 + or_default (OTP_EXPIRY_MINUTES Scenario.defaults) 10 * 60 * 1000)
  ∧ OTP.one_per_pair
      (OTP.createOTP (setters := Concrete.setters) Scenario.defaults (λ i, 9 - i) 2000
         "alice@example.com" "email_verification"
         (OTP.createOTP (setters := Concrete.setters) Scenario.defaults (λ i, i) 1000
            "alice@example.com" "email_verification" [Scenario.alice_code]).2).2.
Proof.
  assert ("email_verification" ∈ OTP.purposes) as Hp by apply list_elem_of_here.
  assert (lowercase_trim (SchemaSetters := Concrete.setters) "alice@example.com"
          ≠ "") as He by (by vm_compute).
  assert (0 < or_default (OTP_LENGTH Scenario.defaults) 6)%Z as Hlen
    by (vm_compute; reflexivity).
  assert (0 < or_default (OTP_EXPIRY_MINUTES Scenario.defaults) 10)%Z as Hpos
    by (vm_compute; reflexivity).
  assert (valid_date 1000) as Hnow1 by (by vm_compute).
  assert (valid_date
            (1000 + or_default (OTP_EXPIRY_MINUTES Scenario.defaults) 10 * 60 * 1000))
    as Hexp1 by (by vm_compute).
  assert (valid_date 2000) as Hnow2 by (by vm_compute).
  assert (valid_date
            (2000 + or_default (OTP_EXPIRY_MINUTES Scenario.defaults) 10 * 60 * 1000))
    as Hexp2 by (by vm_compute).
  split; [exact Hp|]. split; [exact He|]. split; [exact Hlen|].
  split; [exact Hpos|]. split; [exact Hnow1|]. split; [exact Hexp1|].
  split; [exact Hnow2|]. split; [exact Hexp2|].
  apply (createOTP_leaves_one_active (setters := Concrete.setters) Scenario.defaults
           (λ i, i) (λ i, 9 - i) 1000 2000 "alice@example.com"
           "email_verification" [Scenario.alice_code] Hp He Hlen Hpos
           Hnow1 Hexp1 Hnow2 Hexp2).
  apply NoDup_singleton.
Defined.

(** C6 on Erin's pending invitation: a second invitation is refused, also
    when the workspace is spelled in upper case, and accepted once the first
    was declined. *)
Lemma createInvitation_conflict_then_fresh_witness :
  let coll := [Scenario.invitation_for_erin "member" 259200000] in
  let declined := (TeamInvitation.decline 0 (Scenario.invitation_for_erin "member" 259200000) coll).2 in
  let data := Scenario.data_for_erin_as "64B0000000000000000000B1" in
  TeamInvitation.cast_filter (ids := Concrete.ids)
    (TeamInvitation.d_workspaceId data) = Some "64b0000000000000000000b1"
  ∧ TeamInvitation.pending_for "erin@example.com" "64b0000000000000000000b1" 1000
      (Scenario.invitation_for_erin "member" 259200000)
  ∧ valid_date 5000
  ∧ valid_date (5000 + or_default (INVITATION_EXPIRY_HOURS Scenario.defaults) 72
                         * 60 * 60 * 1000)
  ∧ TeamInvitation.createInvitation (setters := Concrete.setters)
      (ids := Concrete.ids) Scenario.defaults
      1000 "77aa01bc" "64b0000000000000000000c2" data coll =
      (Throw "An invitation has already been sent to this email for this workspace",
       coll)
  ∧ ∃ inv, TeamInvitation.createInvitation (setters := Concrete.setters)
             (ids := Concrete.ids)
             Scenario.defaults 5000 "77aa01bc" "64b0000000000000000000c2"
             data declined = (Ok inv, declined ++ [inv])
           ∧ TeamInvitation.status inv = TeamInvitation.pending
           ∧ TeamInvitation.workspaceId inv = "64b0000000000000000000b1"
           ∧ TeamInvitation.invitedBy inv = "64b000000000000000000010"
           ∧ TeamInvitation.token inv = "77aa01bc"
           ∧ TeamInvitation.expiresAt inv = 259205000%Z.
Proof.
  intros coll declined data.
  assert (TeamInvitation.cast_filter (ids := Concrete.ids)
            (TeamInvitation.d_workspaceId data) = Some "64b0000000000000000000b1")
    as Hcast by (vm_compute; reflexivity).
  assert (TeamInvitation.pending_for "erin@example.com"
            "64b0000000000000000000b1" 1000
            (Scenario.invitation_for_erin "member" 259200000)) as Hpend
    by (by vm_compute).
  assert (valid_date 5000) as Hnow by (by vm_compute).
  assert (valid_date (5000 + or_default (INVITATION_EXPIRY_HOURS Scenario.defaults) 72
                               * 60 * 60 * 1000)) as Hexpires by (by vm_compute).
  destruct (createInvitation_conflict_then_fresh (setters := Concrete.setters)
              (ids := Concrete.ids)
              Scenario.defaults 1000 5000 3000 "77aa01bc"
              "64b0000000000000000000c2" "64b000000000000000000012"
              data coll 0
              (Scenario.invitation_for_erin "member" 259200000)
              "64b0000000000000000000b1")
    as (_ & Hconflict & Hafter).
  - exact Hcast.
  - reflexivity.
  - split; [valid_doc|]. by vm_compute.
  - exact Hpend.
  - intros [|j] x Hj; [done|]. by destruct j.
  - vm_compute. reflexivity.
  - by vm_compute.
  - by vm_compute.
  - done.
  - apply list_elem_of_here.
  - done.
  - by vm_compute.
  - exact Hnow.
  - exact Hexpires.
  - intros x ->%list_elem_of_singleton. by vm_compute.
  - split; [exact Hcast|]. split; [exact Hpend|]. split; [exact Hnow|].
    split; [exact Hexpires|]. split; [exact Hconflict|].
    destruct (Hafter declined) as (inv & Hrun & Hst & _ & Hws & Hby & Htok & Hexp).
    + by right.
    + exists inv. split_and!; [exact Hrun|exact Hst|exact Hws| |exact Htok|exact Hexp].
      rewrite Hby. vm_compute. reflexivity.
Defined.

(** C7 on Erin's invitation, accepted after its expiry. *)
Lemma accept_expired_then_token_invalid_witness :
  let d := Scenario.invitation_for_erin "member" 259200000 in
  let d' := TeamInvitation.set_status TeamInvitation.expired d in
  (TeamInvitation.expiresAt d < 300000000)%Z
  ∧ TeamInvitation.accept 300000000 0 d "64b000000000000000000012" [d] =
      (Throw "Invitation has expired", [d'])
  ∧ ∀ now', TeamInvitation.findByToken now' "5f2c9a7e" [d'] =
              (Throw "Invalid or expired invitation", [d']).
Proof.
  intros d d'.
  assert (TeamInvitation.expiresAt d < 300000000)%Z as Hexp
    by (vm_compute; reflexivity).
  split; [exact Hexp|].
  destruct (accept_expired_then_token_invalid [d] 0 d 300000000
              "64b000000000000000000012")
    as (Hacc & _ & _ & Hfind & _).
  - reflexivity.
  - valid_doc.
  - reflexivity.
  - exact Hexp.
  - apply NoDup_singleton.
  - split; [exact Hacc|exact Hfind].
Defined.

(** C10 on Alice's verified account. *)
Lemma verifyEmail_verified_account_consumes_code_witness :
  User.emailVerified Scenario.alice_verified = true
  ∧ OTP.active 1000 Scenario.alice_code
  ∧ (Scenario.verify "123456" Scenario.verified_with_code).1 =
      Throw "Email is already verified"
  ∧ OTP.isUsed <$> otps (db (Scenario.verify "123456" Scenario.verified_with_code).2)
      = [true]
  ∧ users (db (Scenario.verify "123456" Scenario.verified_with_code).2)
      = [Scenario.alice_verified]
  ∧ (Scenario.verify "123456"
       (Scenario.verify "123456" Scenario.verified_with_code).2).1 =
      Throw "OTP has already been used".
Proof.
  assert (OTP.active 1000 Scenario.alice_code) as Hact by (by vm_compute).
  destruct (verifyEmail_verified_account_consumes_code
              (setters := Concrete.setters) (bcrypt := Concrete.salted)
              1000 "salt1" "64b0000000000000000000a1"
              {| AuthController.v_email := "alice@example.com";
                 AuthController.v_otp := "123456" |}
              Scenario.verified_with_code 0 Scenario.alice_code
              0 Scenario.alice_verified)
    as (Hrun & _ & _ & Hlater).
  - done.
  - done.
  - apply NoDup_singleton.
  - reflexivity.
  - by vm_compute.
  - exact Hact.
  - by vm_compute.
  - valid_doc.
  - reflexivity.
  - reflexivity.
  - unfold Scenario.verify. rewrite Hrun. simpl.
    split_and!; [reflexivity|exact Hact|reflexivity|reflexivity|reflexivity|].
    apply (Hlater 1000%Z "salt1" "64b0000000000000000000a1").
Defined.

(** C3 (amended) on Olivia's invitation of Frank and on Bob's
    registration. *)
Lemma delivery_failure_compensation_witness :
  (InvitationController.sendInvitation (setters := Concrete.setters) (strings := Concrete.ops)
      (ids := Concrete.ids)
     Scenario.defaults 1000 "77aa01bc" "64b0000000000000000000c3"
     (Ok {| Email.success := true |}) Scenario.olivia Scenario.invite_frank
     Scenario.olivia_alone).1 =
    Ok {| success := true; message := "Invitation sent successfully" |}
  ∧ InvitationController.sendInvitation (setters := Concrete.setters) (strings := Concrete.ops)
      (ids := Concrete.ids)
      Scenario.defaults 1000 "77aa01bc" "64b0000000000000000000c3"
      (Ok {| Email.success := false |}) Scenario.olivia Scenario.invite_frank
      Scenario.olivia_alone =
      (Throw "Failed to send invitation email",
       {| db := db Scenario.olivia_alone; statusCode := 400 |})
  ∧ Scenario.register_undelivered.1 =
      Ok {| success := true;
            message := "Registration successful. Please check your email for verification code." |}.
Proof.
  assert ((InvitationController.sendInvitation (setters := Concrete.setters)
             (strings := Concrete.ops) (ids := Concrete.ids) Scenario.defaults 1000 "77aa01bc"
             "64b0000000000000000000c3" (Ok {| Email.success := true |})
             Scenario.olivia Scenario.invite_frank Scenario.olivia_alone).1 =
          Ok {| success := true; message := "Invitation sent successfully" |})
    as Hsent by (vm_compute; reflexivity).
  split; [exact Hsent|].
  destruct (delivery_failure_compensation
              (setters := Concrete.setters) (strings := Concrete.ops) (bcrypt := Concrete.salted)
              (ids := Concrete.ids)
              Scenario.defaults 1000 "77aa01bc" "64b0000000000000000000c3"
              Scenario.olivia Scenario.invite_frank Scenario.olivia_alone
              {| success := true; message := "Invitation sent successfully" |}
              (λ i, i) "salt2" "64b000000000000000000002"
              {| AuthController.name := "Bob";
                 AuthController.email := "bob@example.com";
                 AuthController.password := "hunter22" |}
              {| db := {| otps := []; users := []; workspaces := [];
                          invitations := [] |};
                 statusCode := 200 |})
    as (Hinv & _ & Hreg).
  - exact Hsent.
  - done.
  - done.
  - by vm_compute.
  - vm_compute. lia.
  - by vm_compute.
  - by vm_compute.
  - by vm_compute.
  - intros u Hu. by apply elem_of_nil in Hu.
  - split; [exact Hinv|].
    unfold Scenario.register_undelivered. by rewrite Hreg.
Defined.

(** C9 on Erin's invitation as a manager. *)
Lemma acceptInvitation_manager_not_rolled_back_witness :
  TeamInvitation.role (Scenario.invitation_for_erin "manager" 259200000) = "manager"
  ∧ (InvitationController.acceptInvitation
       (strings := Concrete.ops) (bcrypt := Concrete.salted) 1000 "salt3" "5f2c9a7e"
       "64b000000000000000000012" Scenario.invited_as_manager).1 =
      Throw "Workspace validation failed"
  ∧ TeamInvitation.status <$>
      invitations (db (InvitationController.acceptInvitation
        (strings := Concrete.ops) (bcrypt := Concrete.salted)
        1000 "salt3" "5f2c9a7e" "64b000000000000000000012"
        Scenario.invited_as_manager).2) = [TeamInvitation.accepted]
  ∧ workspaces (db (InvitationController.acceptInvitation
        (strings := Concrete.ops) (bcrypt := Concrete.salted)
        1000 "salt3" "5f2c9a7e" "64b000000000000000000012"
        Scenario.invited_as_manager).2) = [Scenario.team].
Proof.
  destruct (acceptInvitation_manager_not_rolled_back
              (strings := Concrete.ops) (bcrypt := Concrete.salted)
              1000 "salt3" "5f2c9a7e" "64b000000000000000000012"
              Scenario.invited_as_manager
              0 (Scenario.invitation_for_erin "manager" 259200000)
              1 Scenario.erin 0 Scenario.team)
    as (_ & _ & Hrun & _ & _).
  - done.
  - reflexivity.
  - valid_doc.
  - reflexivity.
  - left. split_and!; [done|reflexivity|reflexivity].
  - reflexivity.
  - reflexivity.
  - rewrite Hrun. by split_and!.
Defined.

(** C8 (amended) on Olivia's workspace: she cannot remove herself, and she
    stays when she removes Carol. *)
Lemma removeMember_owner_stays_witness :
  WorkspaceRoutes.removeMember "64b000000000000000000010"
    "64b0000000000000000000b1" "64b000000000000000000010" Scenario.team_ctx =
    (Throw "Cannot remove workspace owner",
     {| db := db Scenario.team_ctx; statusCode := 400 |})
  ∧ ∃ ws', workspaces (db (WorkspaceRoutes.removeMember "64b000000000000000000010"
                             "64b0000000000000000000b1" "64b000000000000000000011"
                             Scenario.team_ctx).2) !! 0 = Some ws'
         ∧ Workspace.owner ws' = "64b000000000000000000010".
Proof.
  destruct (removeMember_owner_stays "64b000000000000000000010"
              "64b0000000000000000000b1" Scenario.team_ctx 0 Scenario.team)
    as (Howner & _ & Hany).
  - reflexivity.
  - split.
    + apply Howner. by left.
    + destruct (Hany "64b000000000000000000011") as (ws' & Hws' & Ho & _).
      exists ws'. by split.
Defined.

(** C1 on Dana's pending registration: the stored credential is the hash
    of her pending hash. *)
Lemma promoteToUser_hashes_again_witness :
  let promoted :=
    TemporaryUser.promoteToUser (setters := Concrete.setters) (bcrypt := Concrete.salted)
      1000 "salt9" "64b000000000000000000020" "dana@example.com"
      ([Scenario.dana], [Scenario.olivia]) in
  User.password <$> promoted.2.2 = ["salt0$correcthorse"; "salt9$salt0$opensesame"]
  ∧ TemporaryUser.password Scenario.dana = "salt0$opensesame"
  ∧ promoted.2.1 = [].
Proof.
  intros promoted. unfold promoted.
  rewrite (promoteToUser_hashes_again (setters := Concrete.setters)
             (bcrypt := Concrete.salted) 1000 "salt9" "64b000000000000000000020"
             "dana@example.com" [Scenario.dana] [Scenario.olivia]
             0 Scenario.dana).
  - by split_and!.
  - reflexivity.
  - intros u ->%list_elem_of_singleton. by vm_compute.
Defined.

(* ================================================================== *)
(** * Further properties of the lifecycle code *)

(** ** One-time codes *)

Section MoreOTPProperties.
Context {setters : SchemaSetters}.

Lemma string_length_app (a b : string) :
  String.length (a +:+ b) = String.length a + String.length b.
Proof. induction a as [|c a IH]; simpl; [done|]. by rewrite IH. Qed.

Lemma list_ascii_of_string_app (a b : string) :
  list_ascii_of_string (a +:+ b) =
    list_ascii_of_string a ++ list_ascii_of_string b.
Proof. induction a as [|c a IH]; simpl; [done|]. by rewrite IH. Qed.

Lemma digit_at_digit (k : nat) :
  k < 10 →
  ∃ c, OTP.digit_at k = String c "" ∧ is_Some (Ascii.is_nat c).
Proof.
  intros Hk. do 10 (destruct k as [|k]; [by eexists|]). lia.
Qed.

Lemma generateOTP_from_digits (random : nat → nat) (i n : nat) (acc : string) :
  (∀ j, random j < 10) →
  Forall (λ c, is_Some (Ascii.is_nat c)) (list_ascii_of_string acc) →
  String.length (OTP.generateOTP_from random i n acc) = String.length acc + n
  ∧ Forall (λ c, is_Some (Ascii.is_nat c))
      (list_ascii_of_string (OTP.generateOTP_from random i n acc)).
Proof.
  intros Hr. revert i acc. induction n as [|n IH]; intros i acc Hacc; simpl.
  { split; [lia|done]. }
  destruct (digit_at_digit (random i) (Hr i)) as (c & Hc & Hdigit).
  destruct (IH (S i) (acc +:+ OTP.digit_at (random i))) as [Hlen Hall].
  { rewrite list_ascii_of_string_app, Hc. apply Forall_app. split; [done|].
    by apply Forall_singleton. }
  split; [|done]. rewrite Hlen, string_length_app, Hc. simpl. lia.
Qed.

(** X1. When every draw of [Math.floor(Math.random() * 10)] is below 10,
    [generateOTP(length)] is a string of exactly [length] characters (none
    for a negative length), each of them a decimal digit. *)
Theorem generateOTP_digits (random : nat → nat) (len : Z) :
  (∀ i, random i < 10) →
  String.length (OTP.generateOTP random len) = Z.to_nat len
  ∧ Forall (λ c, is_Some (Ascii.is_nat c))
      (list_ascii_of_string (OTP.generateOTP random len)).
Proof.
  intros Hr. unfold OTP.generateOTP.
  destruct (generateOTP_from_digits random 0 (Z.to_nat len) "" Hr) as [Hlen Hall];
    [by constructor|].
  split; [by rewrite Hlen|done].
Qed.

(** X2. [verifyOTP] changes the store only when it succeeds. A failure
    leaves every record as it was and carries one of the four messages of
    the function or the validation error of [save]; a success returns true
    and has turned [isUsed] on in exactly one record, which matched the
    (email, code, purpose) triple, was unused and unexpired and had fewer
    than five attempts. *)
Theorem verifyOTP_effect (now : Z) (e o p : string) (coll : list OTP.Doc) :
  let '(r, coll') := OTP.verifyOTP now e o p coll in
  match r with
  | Throw m =>
      coll' = coll
      ∧ m ∈ ["Invalid OTP"; "OTP has already been used"; "OTP has expired";
             "Too many failed attempts. Please request a new OTP";
             "OTP validation failed"]
  | Ok b =>
      b = true
      ∧ ∃ i d, coll !! i = Some d
             ∧ OTP.matches (lowercase_trim e) o p d
             ∧ OTP.active now d ∧ (OTP.attempts d < 5)%Z
             ∧ coll' = <[i := OTP.set_isUsed true d]> coll
  end.
Proof.
  unfold OTP.verifyOTP, OTP.save, mbind, M_bind, get, put, mret, M_ret, throw.
  destruct (list_find (λ d, _ ∧ _) coll) as [[i d]|] eqn:Hf.
  - apply list_find_Some in Hf as (Hi & [Hm Hact] & _).
    case_decide; [simpl; split; [done|in_list]|].
    case_decide; simpl; [|split; [done|in_list]].
    split; [done|]. exists i, d. split_and!; try done. lia.
  - destruct (list_find (OTP.matches _ _ _) coll) as [[j x]|];
      [destruct (OTP.isUsed x)|]; simpl; (split; [done|in_list]).
Qed.

(** What an issuance leaves for its pair: the new code, last in the
    store. *)
Lemma createOTP_issued (env : Env) (random : nat → nat) (now : Z) (e p : string)
    (coll : list OTP.Doc) :
  p ∈ OTP.purposes → lowercase_trim e ≠ "" →
  (0 < or_default (OTP_LENGTH env) 6)%Z →
  valid_date (now + or_default (OTP_EXPIRY_MINUTES env) 10 * 60 * 1000) →
  let code := OTP.generateOTP random (or_default (OTP_LENGTH env) 6) in
  let doc := {| OTP.email := lowercase_trim e; OTP.otp := code; OTP.purpose := p;
                OTP.attempts := 0; OTP.isUsed := false;
                OTP.expiresAt :=
                  (now + or_default (OTP_EXPIRY_MINUTES env) 10 * 60 * 1000)%Z |} in
  let rest := filter (λ d, ¬ OTP.for_pair (lowercase_trim e) p d) coll in
  OTP.createOTP env random now e p coll = (Ok code, rest ++ [doc])
  ∧ (∀ P : OTP.Doc → Prop, ∀ Hdec : ∀ d, Decision (P d),
       (∀ d, P d → OTP.for_pair (lowercase_trim e) p d) →
       list_find P (rest ++ [doc]) =
         if decide (P doc) then Some (length rest, doc) else None).
Proof.
  intros Hp He Hlen Hdate code doc rest. split; [by apply createOTP_run|].
  intros P Hdec HP.
  assert (list_find P rest = None) as Hnone.
  { apply list_find_None, Forall_forall.
    intros d [Hd _]%list_elem_of_filter HPd. by apply Hd, HP. }
  rewrite list_find_app_r by done. simpl. by case_decide.
Qed.

(** X3. Issue, then verify. When the instant of the issuance and the
    expiry computed from it are instants a [Date] can hold, [createOTP]
    issues a code for (email, purpose), and [verifyOTP] with that code, at
    any time from the issuance until the expiry, succeeds and marks the code
    used, whatever the store held before; a second verification is refused
    as already used. *)
Theorem createOTP_then_verifyOTP (env : Env) (random : nat → nat) (now t : Z)
    (e p : string) (coll : list OTP.Doc) :
  p ∈ OTP.purposes → lowercase_trim e ≠ "" →
  (0 < or_default (OTP_LENGTH env) 6)%Z →
  valid_date now →
  valid_date (now + or_default (OTP_EXPIRY_MINUTES env) 10 * 60 * 1000) →
  (now ≤ t < now + or_default (OTP_EXPIRY_MINUTES env) 10 * 60 * 1000)%Z →
  ∃ code coll1 coll2,
    OTP.createOTP env random now e p coll = (Ok code, coll1)
    ∧ OTP.verifyOTP t e code p coll1 = (Ok true, coll2)
    ∧ ∀ t', OTP.verifyOTP t' e code p coll2 =
              (Throw "OTP has already been used", coll2).
Proof.
  intros Hp He Hlen Hnow Hdate Ht.
  destruct (createOTP_issued env random now e p coll Hp He Hlen Hdate)
    as [Hrun Hfind].
  set (code := OTP.generateOTP random (or_default (OTP_LENGTH env) 6)) in *.
  set (doc := {| OTP.email := lowercase_trim e; OTP.otp := code |}) in *.
  set (rest := filter _ coll) in *.
  assert (OTP.matches (lowercase_trim e) code p doc) as Hm by done.
  assert ((rest ++ [doc]) !! length rest = Some doc) as Hi
    by (by apply list_lookup_middle).
  assert (∀ P : OTP.Doc → Prop, ∀ Hdec : ∀ d, Decision (P d),
            (∀ d, P d → OTP.for_pair (lowercase_trim e) p d) →
            list_find P (<[length rest := OTP.set_isUsed true doc]> (rest ++ [doc]))
            = if decide (P (OTP.set_isUsed true doc))
              then Some (length rest, OTP.set_isUsed true doc) else None)
    as Hfind2.
  { intros P Hdec HP.
    replace (<[length rest := OTP.set_isUsed true doc]> (rest ++ [doc]))
      with (rest ++ [OTP.set_isUsed true doc]).
    2:{ rewrite insert_app_r_alt, Nat.sub_diag by done. done. }
    assert (list_find P rest = None) as Hnone.
    { apply list_find_None, Forall_forall.
      intros d [Hd _]%list_elem_of_filter HPd. by apply Hd, HP. }
    rewrite list_find_app_r by done. simpl. by case_decide. }
  exists code, (rest ++ [doc]),
    (<[length rest := OTP.set_isUsed true doc]> (rest ++ [doc])).
  split_and!; [done| |].
  - unfold OTP.verifyOTP, OTP.save, mbind, M_bind, get, put, mret, M_ret, throw.
    rewrite Hfind by (intros d [(? & ? & ?) _]; by split).
    rewrite decide_True by (split; [done|split; simpl; [done|lia]]).
    simpl. rewrite decide_True; [done|].
    split_and!; simpl; [done|by apply generateOTP_nonempty|done|lia].
  - intros t'.
    unfold OTP.verifyOTP, OTP.save, mbind, M_bind, get, put, mret, M_ret, throw.
    rewrite Hfind2 by (intros d [(? & ? & ?) _]; by split).
    rewrite decide_False by (intros [_ [Hu _]]; done).
    rewrite Hfind2 by (intros d (? & ? & ?); by split).
    by rewrite decide_True.
Qed.

(** X4. An issuance invalidates every other code of its pair. After
    [createOTP] has issued a code for (email, purpose), [verifyOTP] for that
    pair with any other code, an earlier code of the pair included, is
    answered 'Invalid OTP' and changes nothing. *)
Theorem createOTP_invalidates_other_codes (env : Env) (random : nat → nat)
    (now t : Z) (e p o : string) (coll : list OTP.Doc) :
  p ∈ OTP.purposes → lowercase_trim e ≠ "" →
  (0 < or_default (OTP_LENGTH env) 6)%Z →
  o ≠ OTP.generateOTP random (or_default (OTP_LENGTH env) 6) →
  let coll1 := (OTP.createOTP env random now e p coll).2 in
  OTP.verifyOTP t e o p coll1 = (Throw "Invalid OTP", coll1).
Proof.
  intros Hp He Hlen Ho coll1.
  destruct (decide (valid_date
              (now + or_default (OTP_EXPIRY_MINUTES env) 10 * 60 * 1000)))
    as [Hdate|Hdate].
  - destruct (createOTP_issued env random now e p coll Hp He Hlen Hdate)
      as [Hrun _].
    unfold coll1. rewrite Hrun. simpl. apply verifyOTP_invalid.
    intros d [[Hd _]%list_elem_of_filter| ->%list_elem_of_singleton]%elem_of_app
      (Hme & Hmo & Hmp).
    + by apply Hd.
    + simpl in Hmo. by apply Ho.
  - unfold coll1. rewrite createOTP_invalid_date by done. simpl.
    apply verifyOTP_invalid.
    intros d [Hd _]%list_elem_of_filter (Hme & Hmo & Hmp). by apply Hd.
Qed.

(** The codes of a pair once deleted, a query for the pair sees only what
    was appended. *)
Lemma find_after_pair_deleted (q p : string) (coll : list OTP.Doc) (d : OTP.Doc)
    (P : OTP.Doc → Prop) `{!∀ x, Decision (P x)} :
  (∀ x, P x → OTP.for_pair q p x) →
  let rest := filter (λ x, ¬ OTP.for_pair q p x) coll in
  list_find P (rest ++ [d]) = if decide (P d) then Some (length rest, d) else None.
Proof.
  intros HP rest.
  assert (list_find P rest = None) as Hnone.
  { apply list_find_None, Forall_forall.
    intros x [Hx _]%list_elem_of_filter HPx. by apply Hx, HP. }
  rewrite list_find_app_r by done. simpl. by case_decide.
Qed.

(** X5. The limit of five attempts, on the model's own interface. After an
    issuance, at an instant and with an expiry that a [Date] can hold, [n]
    calls of [incrementAttempts] with the issued code leave the code
    verifiable when [n] is below five and lock it from the fifth on:
    [verifyOTP] with the right code, before the expiry, then throws
    'Too many failed attempts' (the counter is written without validation
    and may pass its maximum). *)
Theorem incrementAttempts_locks_from_five (env : Env) (random : nat → nat)
    (now t : Z) (e p : string) (coll : list OTP.Doc) (n : nat) :
  p ∈ OTP.purposes → lowercase_trim e ≠ "" →
  (0 < or_default (OTP_LENGTH env) 6)%Z →
  valid_date now →
  valid_date (now + or_default (OTP_EXPIRY_MINUTES env) 10 * 60 * 1000) →
  (now ≤ t < now + or_default (OTP_EXPIRY_MINUTES env) 10 * 60 * 1000)%Z →
  let code := OTP.generateOTP random (or_default (OTP_LENGTH env) 6) in
  let coll1 := (OTP.createOTP env random now e p coll).2 in
  let colln := Nat.iter n (λ c, (OTP.incrementAttempts e code p c).2) coll1 in
  (OTP.verifyOTP t e code p colln).1 =
    if decide (n < 5) then Ok true
    else Throw "Too many failed attempts. Please request a new OTP".
Proof.
  intros Hp He Hlen Hnow Hdate Ht code coll1 colln.
  set (q := lowercase_trim e) in *.
  set (rest := filter (λ x, ¬ OTP.for_pair q p x) coll).
  set (doc k := {| OTP.email := q; OTP.otp := code; OTP.purpose := p;
                   OTP.attempts := Z.of_nat k; OTP.isUsed := false;
                   OTP.expiresAt :=
                     (now + or_default (OTP_EXPIRY_MINUTES env) 10 * 60 * 1000)%Z |}).
  assert (colln = rest ++ [doc n]) as ->.
  { unfold colln. induction n as [|n IH]; simpl.
    - unfold coll1. by rewrite createOTP_run.
    - rewrite IH.
      unfold OTP.incrementAttempts, mbind, M_bind, get, put, mret, M_ret.
      fold q. unfold rest.
      rewrite (find_after_pair_deleted q p coll (doc n))
        by (intros x (? & ? & ?); by split).
      rewrite decide_True by done. simpl. fold rest.
      rewrite insert_app_r_alt, Nat.sub_diag by done. simpl.
      do 2 f_equal. unfold OTP.inc_attempts, doc. simpl. f_equal. lia. }
  unfold OTP.verifyOTP, OTP.save, mbind, M_bind, get, put, mret, M_ret, throw.
  fold q. unfold rest.
  rewrite (find_after_pair_deleted q p coll (doc n))
    by (intros x [(? & ? & ?) _]; by split).
  rewrite decide_True by (split; [done|split; simpl; [done|lia]]).
  simpl. destruct (decide (n < 5)) as [Hn|Hn].
  - rewrite decide_False by lia. rewrite decide_True; [done|].
    split_and!; simpl; [done|by apply generateOTP_nonempty|done|lia].
  - by rewrite decide_True by lia.
Qed.

End MoreOTPProperties.

(** ** Invitations *)

Section MoreInvitationProperties.
Context {setters : SchemaSetters} {ids : ObjectIdCast}.

(** A query is blind to a rewriting of the documents it rejects. *)
Lemma list_find_fmap_fixed {A} (P : A → Prop) `{!∀ x, Decision (P x)}
    (f : A → A) (l : list A) :
  (∀ x, P (f x) → f x = x) → (∀ x, P x → f x = x) →
  list_find P (f <$> l) = list_find P l.
Proof.
  intros Hf1 Hf2. induction l as [|x l IH]; [done|]. simpl.
  destruct (decide (P (f x))) as [Hfx|Hfx], (decide (P x)) as [Hx|Hx].
  - by rewrite Hf2.
  - destruct Hx. by rewrite <- (Hf1 x).
  - destruct Hfx. by rewrite Hf2.
  - f_equal. exact IH.
Qed.

Lemma filter_none {A} (P : A → Prop) `{!∀ x, Decision (P x)} (l : list A) :
  (∀ x, x ∈ l → ¬ P x) → filter P l = [].
Proof.
  induction l as [|x l IH]; intros Hl; [done|].
  rewrite filter_cons, decide_False by (apply Hl; left).
  apply IH. intros y Hy. apply Hl. by right.
Qed.

Lemma filter_all {A} (P : A → Prop) `{!∀ x, Decision (P x)} (l : list A) :
  (∀ x, x ∈ l → P x) → filter P l = l.
Proof.
  induction l as [|x l IH]; intros Hl; [done|].
  rewrite filter_cons, decide_True by (apply Hl; left).
  f_equal. apply IH. intros y Hy. apply Hl. by right.
Qed.

Lemma cleanupExpired_run (now : Z) (coll : list TeamInvitation.Doc) :
  TeamInvitation.cleanupExpired now coll =
    (Ok (length (filter (TeamInvitation.overdue now) coll)),
     (λ d, if decide (TeamInvitation.overdue now d)
           then TeamInvitation.set_status TeamInvitation.expired d else d) <$> coll).
Proof. done. Qed.

(** X6. [cleanupExpired] returns the number of pending invitations past
    their expiry and leaves none: each of them is stored as expired, in its
    place and otherwise as it was, every other invitation is untouched, and
    a second run at the same instant finds nothing to do. *)
Theorem cleanupExpired_effect (now : Z) (coll : list TeamInvitation.Doc) :
  let '(r, coll') := TeamInvitation.cleanupExpired now coll in
  r = Ok (length (filter (TeamInvitation.overdue now) coll))
  ∧ length coll' = length coll
  ∧ (∀ i d, coll !! i = Some d →
       coll' !! i = Some d ∧ ¬ TeamInvitation.overdue now d
       ∨ coll' !! i = Some (TeamInvitation.set_status TeamInvitation.expired d)
         ∧ TeamInvitation.overdue now d)
  ∧ (∀ d, d ∈ coll' → ¬ TeamInvitation.overdue now d)
  ∧ TeamInvitation.cleanupExpired now coll' = (Ok 0, coll').
Proof.
  rewrite cleanupExpired_run.
  set (f := λ d, if decide (TeamInvitation.overdue now d)
                 then TeamInvitation.set_status TeamInvitation.expired d else d).
  assert (∀ d, ¬ TeamInvitation.overdue now (f d)) as Hnone.
  { intros d. unfold f. case_decide; [|done]. by intros [? _]. }
  split_and!.
  - done.
  - by rewrite length_fmap.
  - intros i d Hi. rewrite list_lookup_fmap, Hi. simpl. unfold f.
    case_decide; [by right|by left].
  - intros d (x & -> & _)%list_elem_of_fmap. apply Hnone.
  - rewrite cleanupExpired_run. fold f. f_equal.
    + f_equal. rewrite filter_none; [done|].
      intros d (x & -> & _)%list_elem_of_fmap. apply Hnone.
    + rewrite <- list_fmap_compose. apply list_fmap_ext. intros i d _. simpl.
      unfold f at 1. by rewrite decide_False by apply Hnone.
Qed.

(** X7. [cleanupExpired] only records what the queries already compute.
    From the instant of the cleanup on, [findByToken] answers every token as
    it would have without the cleanup, and [createInvitation] refuses or
    accepts every request as it would have. *)
Theorem cleanupExpired_is_transparent (env : Env) (now t : Z)
    (tok generated id : string)
    (data : TeamInvitation.InvitationData) (coll : list TeamInvitation.Doc) :
  (now ≤ t)%Z →
  let coll' := (TeamInvitation.cleanupExpired now coll).2 in
  (TeamInvitation.findByToken t tok coll').1 =
    (TeamInvitation.findByToken t tok coll).1
  ∧ (TeamInvitation.createInvitation env t generated id data coll').1 =
      (TeamInvitation.createInvitation env t generated id data coll).1.
Proof.
  intros Ht coll'. unfold coll'. rewrite cleanupExpired_run. simpl.
  set (f := λ d, if decide (TeamInvitation.overdue now d)
                 then TeamInvitation.set_status TeamInvitation.expired d else d).
  assert (∀ x, TeamInvitation.status (f x) = TeamInvitation.pending → f x = x)
    as Hfx.
  { intros x. unfold f. by case_decide. }
  assert (∀ x, TeamInvitation.status x = TeamInvitation.pending →
               (t < TeamInvitation.expiresAt x)%Z → f x = x) as Hx.
  { intros x Hs He. unfold f. rewrite decide_False; [done|].
    intros [_ Hexp]. lia. }
  split.
  - unfold TeamInvitation.findByToken, mbind, M_bind, get, mret, M_ret, throw.
    rewrite (list_find_fmap_fixed (TeamInvitation.valid_token tok t) f).
    + by destruct (list_find _ coll).
    + intros x (_ & Hs & _). by apply Hfx.
    + intros x (_ & Hs & He). by apply Hx.
  - unfold TeamInvitation.createInvitation, insertOne,
      mbind, M_bind, get, mret, M_ret, throw.
    destruct (TeamInvitation.cast_filter _) as [w|]; [|done].
    rewrite (list_find_fmap_fixed (TeamInvitation.pending_for _ _ t) f).
    + destruct (list_find _ coll); [done|].
      case_decide; [|done]. simpl.
      assert (∀ d, Exists (TeamInvitation.clash d) (f <$> coll)
                   ↔ Exists (TeamInvitation.clash d) coll) as Hclash.
      { intros d. rewrite !Exists_exists. split.
        - intros (y & (x & -> & Hin)%list_elem_of_fmap & Hc). exists x.
          split; [done|]. revert Hc. unfold f. by case_decide.
        - intros (x & Hin & Hc). exists (f x).
          split; [apply list_elem_of_fmap; eauto|].
          unfold f. by case_decide. }
      destruct (decide (Exists _ (f <$> coll))) as [H1|H1],
        (decide (Exists _ coll)) as [H2|H2]; simpl; try done.
      * destruct H2. by apply Hclash.
      * destruct H1. by apply Hclash.
    + intros x (_ & _ & Hs & _). by apply Hfx.
    + intros x (_ & _ & Hs & He). by apply Hx.
Qed.

Lemma count_by_status (l : list TeamInvitation.Doc) :
  length (filter (λ d, TeamInvitation.status d = TeamInvitation.pending) l)
  + length (filter (λ d, TeamInvitation.status d = TeamInvitation.accepted) l)
  + length (filter (λ d, TeamInvitation.status d = TeamInvitation.declined) l)
  + length (filter (λ d, TeamInvitation.status d = TeamInvitation.expired) l)
  = length l.
Proof.
  induction l as [|d l IH]; [done|].
  rewrite !filter_cons.
  destruct (TeamInvitation.status d) eqn:Hs; simpl;
    repeat (case_decide; try done); simpl; lia.
Qed.

(** The counters of [getStats] on a string that spells an ObjectId. *)
Lemma getStats_cast (w workspace : string) (coll : list TeamInvitation.Doc) :
  castObjectId w = Some workspace →
  let matched := filter (λ d, TeamInvitation.workspaceId d = workspace) coll in
  let count s := length (filter (λ d, TeamInvitation.status d = s) matched) in
  ∃ stats, TeamInvitation.getStats w coll = (Ok stats, coll)
    ∧ TeamInvitation.n_pending stats = count TeamInvitation.pending
    ∧ TeamInvitation.n_accepted stats = count TeamInvitation.accepted
    ∧ TeamInvitation.n_declined stats = count TeamInvitation.declined
    ∧ TeamInvitation.n_expired stats = count TeamInvitation.expired
    ∧ TeamInvitation.n_pending stats + TeamInvitation.n_accepted stats
      + TeamInvitation.n_declined stats + TeamInvitation.n_expired stats
      = length matched.
Proof.
  intros Hcast matched count. unfold TeamInvitation.getStats. rewrite Hcast.
  eexists. split; [reflexivity|].
  assert (TeamInvitation.aggregate workspace coll =
            filter (λ stat, stat.2 ≠ 0)
              [(TeamInvitation.pending, count TeamInvitation.pending);
               (TeamInvitation.accepted, count TeamInvitation.accepted);
               (TeamInvitation.declined, count TeamInvitation.declined);
               (TeamInvitation.expired, count TeamInvitation.expired)]) as ->
    by done.
  pose proof (count_by_status matched) as Hsum. fold (count TeamInvitation.pending)
    (count TeamInvitation.accepted) (count TeamInvitation.declined)
    (count TeamInvitation.expired) in Hsum.
  rewrite !filter_cons, filter_nil. simpl.
  destruct (decide (count TeamInvitation.pending ≠ 0)),
    (decide (count TeamInvitation.accepted ≠ 0)),
    (decide (count TeamInvitation.declined ≠ 0)),
    (decide (count TeamInvitation.expired ≠ 0)); simpl; lia.
Qed.

(** X8. [getStats] changes nothing. For a string that spells an ObjectId
    its four counters are the numbers of the invitations of that workspace
    in each status (a status without invitations has no group and keeps its
    zero), and they add up to the number of invitations of the workspace;
    for any other string it throws. *)
Theorem getStats_counts (w : string) (coll : list TeamInvitation.Doc) :
  match castObjectId w with
  | Some workspace =>
      let matched := filter (λ d, TeamInvitation.workspaceId d = workspace) coll in
      let count s := length (filter (λ d, TeamInvitation.status d = s) matched) in
      ∃ stats, TeamInvitation.getStats w coll = (Ok stats, coll)
        ∧ TeamInvitation.n_pending stats = count TeamInvitation.pending
        ∧ TeamInvitation.n_accepted stats = count TeamInvitation.accepted
        ∧ TeamInvitation.n_declined stats = count TeamInvitation.declined
        ∧ TeamInvitation.n_expired stats = count TeamInvitation.expired
        ∧ TeamInvitation.n_pending stats + TeamInvitation.n_accepted stats
          + TeamInvitation.n_declined stats + TeamInvitation.n_expired stats
          = length matched
  | None => ∃ msg, TeamInvitation.getStats w coll = (Throw msg, coll)
  end.
Proof.
  destruct (castObjectId w) as [workspace|] eqn:Hcast.
  - by apply getStats_cast.
  - unfold TeamInvitation.getStats. rewrite Hcast. by eexists.
Qed.

(** X9. A resolved invitation is final for whoever loads it after the
    resolution. Once the status of a stored invitation is not pending,
    [accept] and [decline] on that document as the store holds it throw
    'Invitation is no longer pending' and change nothing; and no operation
    changes the document again: not [accept] or [decline] on any document
    as the store holds it, not [cleanupExpired], not [createInvitation]. A
    copy loaded before the resolution is not protected: [accept] on a
    pending, unexpired copy of the document, valid for its schema, by a
    user whose [_id] is an ObjectId as stored, writes the accepted copy
    over the resolved document. *)
Theorem resolved_invitation_is_final (coll : list TeamInvitation.Doc)
    (j : nat) (d : TeamInvitation.Doc) :
  coll !! j = Some d → TeamInvitation.status d ≠ TeamInvitation.pending →
  (∀ now userId,
     TeamInvitation.accept now j d userId coll =
       (Throw "Invitation is no longer pending", coll))
  ∧ TeamInvitation.decline j d coll =
      (Throw "Invitation is no longer pending", coll)
  ∧ (∀ now i this userId, coll !! i = Some this →
       (TeamInvitation.accept now i this userId coll).2 !! j = Some d)
  ∧ (∀ i this, coll !! i = Some this →
       (TeamInvitation.decline i this coll).2 !! j = Some d)
  ∧ (∀ now, (TeamInvitation.cleanupExpired now coll).2 !! j = Some d)
  ∧ (∀ env now tok id data,
       (TeamInvitation.createInvitation env now tok id data coll).2 !! j = Some d)
  ∧ (∀ now userId stale,
       TeamInvitation._id stale = TeamInvitation._id d →
       TeamInvitation.status stale = TeamInvitation.pending →
       TeamInvitation.valid_new stale →
       castObjectId userId = Some userId → valid_date now →
       (now ≤ TeamInvitation.expiresAt stale)%Z →
       (TeamInvitation.accept now j stale userId coll).2 !! j =
         Some (TeamInvitation.set_accepted userId now stale)).
Proof.
  intros Hj Hd.
  assert (∀ i this x, coll !! i = Some this →
            TeamInvitation.status this = TeamInvitation.pending →
            <[i := x]> coll !! j = Some d) as Hother.
  { intros i this x Hi Hs. rewrite list_lookup_insert_ne; [done|].
    intros ->. rewrite Hi in Hj. by simplify_eq. }
  split_and!.
  - intros now userId. unfold TeamInvitation.accept, throw.
    by rewrite decide_True.
  - unfold TeamInvitation.decline, throw. by rewrite decide_True.
  - intros now i this userId Hi.
    unfold TeamInvitation.accept, TeamInvitation.save,
      mbind, M_bind, get, put, mret, M_ret, throw.
    destruct (decide (TeamInvitation.status this ≠ TeamInvitation.pending))
      as [|Hs%dec_stable]; [done|].
    repeat case_decide; simpl; eauto.
  - intros i this Hi.
    unfold TeamInvitation.decline, TeamInvitation.save,
      mbind, M_bind, get, put, mret, M_ret, throw.
    destruct (decide (TeamInvitation.status this ≠ TeamInvitation.pending))
      as [|Hs%dec_stable]; [done|].
    repeat case_decide; simpl; eauto.
  - intros now. rewrite cleanupExpired_run. simpl.
    rewrite list_lookup_fmap, Hj. simpl.
    rewrite decide_False; [done|]. by intros [? _].
  - intros env now tok id data.
    unfold TeamInvitation.createInvitation, insertOne,
      mbind, M_bind, get, put, mret, M_ret, throw.
    destruct (TeamInvitation.cast_filter _) as [w|]; [|done].
    destruct (list_find _ coll); [done|].
    repeat case_decide; simpl; try done.
    by apply lookup_app_l_Some.
  - intros now userId stale _ Hs [Hvalid _] _ _ Hexp.
    unfold TeamInvitation.accept, TeamInvitation.save,
      mbind, M_bind, get, put, mret, M_ret, throw.
    rewrite decide_False by (intros Hn; by apply Hn).
    rewrite decide_False by lia.
    rewrite decide_True by done. simpl.
    apply list_lookup_insert_eq. by eapply lookup_lt_Some.
Qed.

Lemma one_live_per_pair_later (t t' : Z) (coll : list TeamInvitation.Doc) :
  (t ≤ t')%Z → TeamInvitation.one_live_per_pair t coll →
  TeamInvitation.one_live_per_pair t' coll.
Proof.
  intros Hle Hinv i j d1 d2 Hi Hj He Hw Hs1 Hs2 Hx1 Hx2.
  apply (Hinv i j d1 d2); try done; lia.
Qed.

(** Writing a document that is not pending keeps the invariant. *)
Lemma one_live_per_pair_insert (t : Z) (coll : list TeamInvitation.Doc)
    (i : nat) (x : TeamInvitation.Doc) :
  TeamInvitation.one_live_per_pair t coll →
  TeamInvitation.status x ≠ TeamInvitation.pending →
  TeamInvitation.one_live_per_pair t (<[i := x]> coll).
Proof.
  intros Hinv Hx a b d1 d2 Ha Hb.
  apply list_lookup_insert_Some in Ha as [(-> & -> & _)|[_ Ha]]; [done|].
  apply list_lookup_insert_Some in Hb as [(-> & -> & _)|[_ Hb]]; [done|].
  by apply Hinv.
Qed.

(** X10. No two live invitations for one address and workspace. A store in
    which each (email, workspace) has at most one pending, unexpired
    invitation stays such, at the instant of the call and at every later
    one, through [createInvitation], [accept], [decline] and
    [cleanupExpired]. *)
Theorem one_live_invitation_per_pair (now t : Z) (coll : list TeamInvitation.Doc) :
  TeamInvitation.one_live_per_pair now coll → (now ≤ t)%Z →
  (∀ env tok id data,
     TeamInvitation.one_live_per_pair t
       (TeamInvitation.createInvitation env now tok id data coll).2)
  ∧ (∀ i this userId,
       TeamInvitation.one_live_per_pair t
         (TeamInvitation.accept now i this userId coll).2)
  ∧ (∀ i this,
       TeamInvitation.one_live_per_pair t (TeamInvitation.decline i this coll).2)
  ∧ TeamInvitation.one_live_per_pair t (TeamInvitation.cleanupExpired now coll).2.
Proof.
  intros Hinv Ht. split_and!.
  - intros env tok id data. apply (one_live_per_pair_later now); [done|].
    unfold TeamInvitation.createInvitation, insertOne,
      mbind, M_bind, get, put, mret, M_ret, throw.
    destruct (TeamInvitation.cast_filter _) as [w|]; [|done].
    destruct (list_find _ coll) eqn:Hf; [done|].
    repeat case_decide; simpl; try done.
    apply list_find_None in Hf. rewrite Forall_forall in Hf.
    intros a b d1 d2 Ha Hb He Hw Hs1 Hs2 Hx1 Hx2.
    apply lookup_app_Some in Ha as [Ha|[Hla Ha]];
      apply lookup_app_Some in Hb as [Hb|[Hlb Hb]].
    + by apply (Hinv a b d1 d2).
    + apply list_lookup_singleton_Some in Hb as [Hb <-]. simpl in *.
      destruct (Hf d1); [by eapply list_elem_of_lookup_2|done].
    + apply list_lookup_singleton_Some in Ha as [Ha <-]. simpl in *.
      destruct (Hf d2); [by eapply list_elem_of_lookup_2|done].
    + apply list_lookup_singleton_Some in Ha as [Ha _].
      apply list_lookup_singleton_Some in Hb as [Hb _]. lia.
  - intros i this userId. apply (one_live_per_pair_later now); [done|].
    unfold TeamInvitation.accept, TeamInvitation.save,
      mbind, M_bind, get, put, mret, M_ret, throw.
    repeat case_decide; simpl; try done; by apply one_live_per_pair_insert.
  - intros i this. apply (one_live_per_pair_later now); [done|].
    unfold TeamInvitation.decline, TeamInvitation.save,
      mbind, M_bind, get, put, mret, M_ret, throw.
    repeat case_decide; simpl; try done; by apply one_live_per_pair_insert.
  - apply (one_live_per_pair_later now); [done|].
    rewrite cleanupExpired_run. simpl.
    intros a b d1 d2 Ha Hb He Hw Hs1 Hs2 Hx1 Hx2.
    rewrite list_lookup_fmap in Ha, Hb.
    destruct (coll !! a) as [x1|] eqn:Ha'; [|done].
    destruct (coll !! b) as [x2|] eqn:Hb'; [|done].
    simpl in Ha, Hb. simplify_eq.
    revert He Hw Hs1 Hs2 Hx1 Hx2. repeat case_decide; simpl; try done.
    intros. by apply (Hinv a b x1 x2).
Qed.

End MoreInvitationProperties.

(** ** Pending registrations and the cleanup *)

Section PendingProperties.
Context {setters : SchemaSetters} {bcrypt : Bcrypt}.

(** X11. [promoteToUser] is all or nothing. When it throws, for a missing
    pending record or for an account that holds the address or the id
    already, both collections are as they were and the pending record is
    kept; when it returns, the first pending record of the address is gone
    and one account, verified and active, was appended. The account is
    saved without validation, so no validation error is among the
    failures. *)
Theorem promoteToUser_all_or_nothing (now : Z) (salt id email0 : string)
    (temps : list TemporaryUser.Doc) (accounts : list User.Doc) :
  let '(r, (temps', accounts')) :=
    TemporaryUser.promoteToUser now salt id email0 (temps, accounts) in
  match r with
  | Throw m =>
      temps' = temps ∧ accounts' = accounts
      ∧ (m = "Temporary user not found"
           ∧ (∀ t, t ∈ temps → TemporaryUser.email t ≠ lowercase_trim email0)
         ∨ m = "E11000 duplicate key error"
           ∧ ∃ t u, t ∈ temps ∧ u ∈ accounts
                  ∧ TemporaryUser.email t = lowercase_trim email0
                  ∧ (User._id u = id ∨ User.email u = TemporaryUser.email t))
  | Ok user =>
      ∃ k t, list_find (λ x, TemporaryUser.email x = lowercase_trim email0) temps
               = Some (k, t)
           ∧ temps' = delete k temps
           ∧ accounts' = accounts ++ [User.doc user]
           ∧ User.email (User.doc user) = TemporaryUser.email t
           ∧ User._id (User.doc user) = id
           ∧ User.emailVerified (User.doc user) = true
           ∧ User.status (User.doc user) = "active"
  end.
Proof.
  unfold TemporaryUser.promoteToUser. run.
  destruct (list_find _ temps) as [[k t]|] eqn:Hf; simpl.
  - unfold User.save. simpl. run. unfold insertOne.
    apply list_find_Some in Hf as Hf'. destruct Hf' as (Hk & He & _).
    case_decide as Hc; simpl.
    + split_and!; [done..|]. right. split; [done|].
      apply Exists_exists in Hc as (u & Hu & Hc). exists t, u.
      split_and!; [by eapply list_elem_of_lookup_2|done|done|].
      by destruct Hc as [Hc|Hc]; simpl in Hc; [left|right].
    + rewrite Hf. simpl. exists k, t. by split_and!.
  - split_and!; [done..|]. left. split; [done|].
    apply list_find_None in Hf. rewrite Forall_forall in Hf. exact Hf.
Qed.

Lemma filter_other_email (e : string) (coll : list TemporaryUser.Doc) :
  ¬ Exists (λ x, e = TemporaryUser.email x)
      (filter (λ t, TemporaryUser.email t ≠ e) coll).
Proof.
  rewrite Exists_exists. intros (x & [Hx _]%list_elem_of_filter & He). done.
Qed.


Lemma cleanupExpiredData_run (now : Z) (temps : list TemporaryUser.Doc)
    (codes : list OTP.Doc) :
  let expiredEmails :=
    TemporaryUser.email <$> filter (λ t, (TemporaryUser.expiresAt t < now)%Z) temps in
  Cleanup.cleanupExpiredData now (temps, codes) =
    (Ok tt,
     (filter (λ t, ¬ (TemporaryUser.expiresAt t < now)%Z) temps,
      filter (λ d, ¬ (OTP.expiresAt d < now)%Z)
        (filter (λ d, ¬ (OTP.email d ∈ lowercase_trim <$> expiredEmails
                         ∧ OTP.purpose d = "email_verification")) codes))).
Proof.
  intros expiredEmails. unfold Cleanup.cleanupExpiredData. run.
  destruct (decide (0 < length _)) as [Hlen|Hlen]; simpl; [done|].
  assert (filter (λ t, (TemporaryUser.expiresAt t < now)%Z) temps = []) as Hnil
    by (apply length_zero_iff_nil; lia).
  f_equal. f_equal.
  - symmetry. apply filter_all. intros t Ht Hexp.
    eapply (filter_nil_not_elem_of _ _ t Hnil); done.
  - f_equal. symmetry. apply filter_all. intros d Hd [Hin _].
    unfold expiredEmails in Hin. rewrite Hnil in Hin. simpl in Hin.
    by apply elem_of_nil in Hin.
Qed.

(** X13. [cleanupExpiredData] never throws. Afterwards no pending
    registration and no code with [expiresAt] before the instant of the run
    is stored; the pending registrations that remain are exactly the
    unexpired ones, in order; and a code is deleted exactly when it is
    expired itself or is an email-verification code of the address of a
    deleted registration. *)
Theorem cleanupExpiredData_effect (now : Z) (temps : list TemporaryUser.Doc)
    (codes : list OTP.Doc) :
  let '(r, (temps', codes')) := Cleanup.cleanupExpiredData now (temps, codes) in
  r = Ok tt
  ∧ temps' = filter (λ t, ¬ (TemporaryUser.expiresAt t < now)%Z) temps
  ∧ (∀ d, d ∈ codes' → ¬ (OTP.expiresAt d < now)%Z)
  ∧ ∀ d, d ∈ codes →
      ((d ∉ codes')
       ↔ (OTP.expiresAt d < now)%Z
         ∨ OTP.purpose d = "email_verification"
           ∧ ∃ t, t ∈ temps ∧ (t ∉ temps')
                ∧ OTP.email d = lowercase_trim (TemporaryUser.email t)).
Proof.
  rewrite cleanupExpiredData_run. simpl. split_and!; [done..| |].
  - by intros d [Hd _]%list_elem_of_filter.
  - intros d Hd. rewrite !list_elem_of_filter. split.
    + intros Hgone.
      destruct (decide (OTP.expiresAt d < now)%Z) as [|Hlive]; [by left|right].
      destruct (decide (OTP.email d ∈ lowercase_trim <$>
                  (TemporaryUser.email <$>
                     filter (λ t, (TemporaryUser.expiresAt t < now)%Z) temps)
                ∧ OTP.purpose d = "email_verification")) as [[Hin Hp]|Hkeep].
      * split; [done|].
        apply list_elem_of_fmap in Hin as (e & He & Hin).
        apply list_elem_of_fmap in Hin as (t & -> & Ht).
        apply list_elem_of_filter in Ht as [Hexp Ht].
        exists t. split_and!; [done| |done].
        intros [Hnot _]%list_elem_of_filter. done.
      * destruct Hgone. by split_and!.
    + intros [Hexp|(Hp & t & Ht & Hgone & He)] (Hlive & Hkeep & _); [done|].
      apply Hkeep. split; [|done]. rewrite He.
      apply list_elem_of_fmap_2, list_elem_of_fmap_2, list_elem_of_filter.
      split; [|done].
      destruct (decide (TemporaryUser.expiresAt t < now)%Z) as [|Hl]; [done|].
      destruct Hgone. by apply list_elem_of_filter.
Qed.

(** X14. A pending registration does not survive a cleanup. The schema
    gives [expiresAt] the default [Date.now], the instant of the creation,
    and [cleanupExpiredData] deletes what has [expiresAt] before the instant
    of its run: a registration stored by [createTemporaryUser] without an
    explicit [expiresAt] is deleted by any later run, with the
    email-verification codes of its address, and [promoteToUser] then
    throws 'Temporary user not found'. *)
Theorem createTemporaryUser_then_cleanup (now t t' : Z) (salt salt' id : string)
    (userData : TemporaryUser.UserData) (temps : list TemporaryUser.Doc)
    (codes : list OTP.Doc) (accounts : list User.Doc) :
  TemporaryUser.u_name userData ≠ "" →
  lowercase_trim (TemporaryUser.u_email userData) ≠ "" →
  TemporaryUser.u_password userData ≠ "" →
  TemporaryUser.u_expiresAt userData = None →
  lowercase_trim (lowercase_trim (TemporaryUser.u_email userData)) =
    lowercase_trim (TemporaryUser.u_email userData) →
  (now < t)%Z →
  let e := lowercase_trim (TemporaryUser.u_email userData) in
  let temps1 := (TemporaryUser.createTemporaryUser now salt userData temps).2 in
  let '(temps2, codes2) := (Cleanup.cleanupExpiredData t (temps1, codes)).2 in
  (∃ stored, stored ∈ temps1 ∧ TemporaryUser.email stored = e)
  ∧ (∀ x, x ∈ temps2 → TemporaryUser.email x ≠ e)
  ∧ (∀ d, d ∈ codes2 → ¬ OTP.for_pair e "email_verification" d)
  ∧ TemporaryUser.promoteToUser t' salt' id (TemporaryUser.u_email userData)
      (temps2, accounts) =
      (Throw "Temporary user not found", (temps2, accounts)).
Proof.
  intros Hn He Hp Hx Hidem Ht e temps1.
  change (lowercase_trim e = e) in Hidem.
  rewrite cleanupExpiredData_run. simpl.
  set (rest := filter (λ x, TemporaryUser.email x ≠ e) temps).
  set (stored := {| TemporaryUser.name := TemporaryUser.u_name userData;
                    TemporaryUser.email := e;
                    TemporaryUser.password :=
                      bcrypt_hash (TemporaryUser.u_password userData) salt;
                    TemporaryUser.avatar :=
                      default "/images/default-avatar.png"
                        (TemporaryUser.u_avatar userData);
                    TemporaryUser.preferences :=
                      default default_preferences
                        (TemporaryUser.u_preferences userData);
                    TemporaryUser.expiresAt := now |}).
  assert (temps1 = rest ++ [stored]) as Htemps1.
  { unfold temps1, TemporaryUser.createTemporaryUser, insertOne,
      mbind, M_bind, get, put, mret, M_ret, throw. simpl. fold e rest.
    rewrite decide_True by done. simpl.
    rewrite decide_False by apply filter_other_email. simpl.
    unfold stored. by rewrite Hx. }
  assert (∀ x, x ∈ filter (λ x, ¬ (TemporaryUser.expiresAt x < t)%Z) temps1 →
               TemporaryUser.email x ≠ e) as Hgone.
  { intros x [Hlive Hin]%list_elem_of_filter. rewrite Htemps1 in Hin.
    apply elem_of_app in Hin as [[Hne _]%list_elem_of_filter|Hin]; [done|].
    apply list_elem_of_singleton in Hin as ->. simpl in Hlive. lia. }
  split_and!.
  - exists stored. split; [|done]. rewrite Htemps1.
    apply elem_of_app. right. by apply list_elem_of_singleton.
  - exact Hgone.
  - intros d [_ [Hkeep _]%list_elem_of_filter]%list_elem_of_filter [Hde Hdp].
    apply Hkeep. split; [|done]. rewrite Hde. rewrite <- Hidem at 1.
    apply list_elem_of_fmap_2.
    apply (list_elem_of_fmap_2 TemporaryUser.email _ stored).
    apply list_elem_of_filter. split; [simpl; lia|].
    rewrite Htemps1. apply elem_of_app. right. by apply list_elem_of_singleton.
  - unfold TemporaryUser.promoteToUser. run. fold e.
    assert (list_find (λ x, TemporaryUser.email x = e)
              (filter (λ x, ¬ (TemporaryUser.expiresAt x < t)%Z) temps1) = None)
      as ->; [|done].
    apply list_find_None, Forall_forall. exact Hgone.
Qed.

(** X15. [cleanupUserData] never throws and removes exactly the pending
    registrations of the address and its email-verification codes.
    Afterwards [promoteToUser] for the address throws 'Temporary user not
    found' and [verifyOTP] for it answers every email-verification code with
    'Invalid OTP'. *)
Theorem cleanupUserData_effect (email0 : string)
    (temps : list TemporaryUser.Doc) (codes : list OTP.Doc) :
  let e := lowercase_trim email0 in
  let '(r, (temps', codes')) := Cleanup.cleanupUserData email0 (temps, codes) in
  r = Ok tt
  ∧ temps' = filter (λ t, TemporaryUser.email t ≠ e) temps
  ∧ codes' = filter (λ d, ¬ OTP.for_pair e "email_verification" d) codes
  ∧ (∀ now salt id accounts,
       TemporaryUser.promoteToUser now salt id email0 (temps', accounts) =
         (Throw "Temporary user not found", (temps', accounts)))
  ∧ (∀ now o, OTP.verifyOTP now email0 o "email_verification" codes' =
                (Throw "Invalid OTP", codes')).
Proof.
  intros e. unfold Cleanup.cleanupUserData. run. fold e.
  split_and!; [done..| |].
  - intros now salt id accounts. unfold TemporaryUser.promoteToUser. run. fold e.
    assert (list_find (λ x, TemporaryUser.email x = e)
              (filter (λ t, TemporaryUser.email t ≠ e) temps) = None) as ->; [|done].
    apply list_find_None, Forall_forall.
    by intros x [Hx _]%list_elem_of_filter.
  - intros now o. apply verifyOTP_invalid.
    intros d [Hd _]%list_elem_of_filter (Hde & _ & Hdp). by apply Hd.
Qed.

End PendingProperties.

(** ** The auth endpoints *)

Section MoreAuthProperties.
Context {setters : SchemaSetters} {bcrypt : Bcrypt} {compare : BcryptCompare}.

(** X16. A login never writes to the database, and it is answered with
    success only for a stored account of exactly that address that is
    verified and whose stored hash [bcrypt.compare] accepts for the
    password. An unverified account is refused before the password is
    looked at: the answer is 'Please verify your email address before
    logging in', with status 401, for every password, right or wrong. *)
Theorem authUser_effect (generateToken : result string) (email0 password0 : string)
    (ctx : Ctx) :
  let '(r, ctx') := AuthController.authUser generateToken email0 password0 ctx in
  db ctx' = db ctx
  ∧ (∀ reply, r = Ok reply →
       ∃ i u, users (db ctx) !! i = Some u ∧ User.email u = email0
            ∧ User.emailVerified u = true
            ∧ bcrypt_compare password0 (User.password u) = true)
  ∧ (∀ i u, list_find (λ d, User.email d = email0) (users (db ctx)) = Some (i, u) →
       User.emailVerified u = false →
       r = Throw "Please verify your email address before logging in"
       ∧ statusCode ctx' = 401%Z).
Proof.
  unfold AuthController.authUser, User.findOne. run.
  destruct (list_find _ (users (db ctx))) as [[i u]|] eqn:Hf; simpl.
  - apply list_find_Some in Hf as (Hi & He & _).
    destruct (User.emailVerified u) eqn:Hv; simpl.
    + destruct (bcrypt_compare password0 (User.password u)) eqn:Hpw; simpl;
        [destruct generateToken as [tok|m]; simpl|].
      all: split_and!;
        [by destruct ctx as [[] ?]| |intros ?? [= <- <-]; congruence].
      all: try done.
      intros reply _. by exists i, u.
    + split_and!; [by destruct ctx as [[] ?]|done|].
      by intros ?? [= <- <-].
  - split_and!; [by destruct ctx as [[] ?]|done|done].
Qed.

Lemma filter_delete_rejected {A} (P : A → Prop) `{!∀ x, Decision (P x)}
    (l : list A) (i : nat) (x : A) :
  l !! i = Some x → ¬ P x → filter P (delete i l) = filter P l.
Proof.
  revert i. induction l as [|y l IH]; intros [|i] Hi Hx; simplify_eq/=.
  - by rewrite filter_cons, decide_False.
  - rewrite !filter_cons. by rewrite (IH i).
Qed.

(** Under the unique index on [_id], a query by the [_id] of a stored
    account returns that account. *)
Lemma find_by_id (coll : list User.Doc) (i : nat) (u : User.Doc) :
  NoDup (User._id <$> coll) → coll !! i = Some u →
  list_find (λ d, User._id d = User._id u) coll = Some (i, u).
Proof.
  intros Hnd Hi. apply list_find_Some. split_and!; [done..|].
  intros j y Hj Hlt Hid. assert (j = i); [|lia].
  apply (NoDup_lookup _ j i (User._id u) Hnd).
  - by rewrite list_lookup_fmap, Hj, <- Hid.
  - by rewrite list_lookup_fmap, Hi.
Qed.

(** The account an insertion has just appended is the one a query by its
    [_id] returns. *)
Lemma find_by_id_inserted (coll : list User.Doc) (d : User.Doc) (id : string) :
  User._id d = id → ¬ Exists (User.clash d) coll →
  list_find (λ x, User._id x = id) (coll ++ [d]) = Some (length coll, d).
Proof.
  intros <- Hfresh.
  assert (list_find (λ x, User._id x = User._id d) coll = None) as Hnone.
  { apply list_find_None, Forall_forall. intros x Hx Hid. apply Hfresh.
    apply Exists_exists. exists x. split; [done|]. by left. }
  rewrite list_find_app_r by done. simpl. by rewrite decide_True.
Qed.

Lemma delete_inserted {A} (l : list A) (x : A) : delete (length l) (l ++ [x]) = l.
Proof. induction l as [|y l IH]; [done|]. simpl. by rewrite IH. Qed.

(** X17. A registration never touches a verified account. Whatever the
    request and its outcome, the verified accounts of the store are the same
    afterwards, in the same order, and so are the workspaces and the
    invitations: the deletion that makes room for a new registration removes
    an unverified account only, and the compensation after a failed issuance
    removes the account just created. The accounts are taken with distinct
    [_id]s, as the index of the collection keeps them. *)
Theorem registerUser_keeps_verified_accounts (env : Env) (random : nat → nat)
    (now : Z) (salt id : string) (sendOTPEmail : result Email.Result)
    (body : AuthController.RegisterBody) (ctx : Ctx) :
  NoDup (User._id <$> users (db ctx)) →
  let ctx' := (AuthController.registerUser env random now salt id sendOTPEmail
                 body ctx).2 in
  filter (λ u, User.emailVerified u = true) (users (db ctx')) =
    filter (λ u, User.emailVerified u = true) (users (db ctx))
  ∧ workspaces (db ctx') = workspaces (db ctx)
  ∧ invitations (db ctx') = invitations (db ctx).
Proof.
  intros Hnd. unfold AuthController.registerUser.
  case_decide; [done|]. case_decide; [done|].
  unfold User.findOne. run.
  assert (∃ accounts,
            filter (λ u, User.emailVerified u = true) accounts =
              filter (λ u, User.emailVerified u = true) (users (db ctx))
            ∧ (match list_find (λ d, User.email d = AuthController.email body)
                       (users (db ctx)) with
               | Some (i, u) =>
                   User.emailVerified u = true
                   ∨ User.emailVerified u = false
                     ∧ (User.findByIdAndDelete (User._id u) (users (db ctx))).2
                       = accounts
               | None => users (db ctx) = accounts
               end)) as (accounts & Hacc & Hshape).
  { destruct (list_find _ (users (db ctx))) as [[i u]|] eqn:Hf;
      [|by exists (users (db ctx))].
    destruct (User.emailVerified u) eqn:Hv; [exists (users (db ctx)); auto|].
    apply list_find_Some in Hf as (Hi & _ & _).
    exists (delete i (users (db ctx))). split.
    - apply (filter_delete_rejected _ _ i u); [done|]. by rewrite Hv.
    - right. split; [done|]. unfold User.findByIdAndDelete. run.
      by rewrite (find_by_id _ i u). }
  destruct (list_find _ (users (db ctx))) as [[i u]|]; simpl.
  - destruct Hshape as [Hv|[Hv Hdel]]; rewrite Hv; simpl; [done|].
    revert Hdel. unfold User.findByIdAndDelete. run.
    destruct (list_find _ (users (db ctx))) as [[i' u']|]; simpl; intros Hdel.
    all: rewrite Hdel.
    all: unfold User.create, User.save; simpl; case_decide; simpl; [done|].
    all: unfold insertOne; run; case_decide; simpl; [done|].
    all: destruct (OTP.createOTP _ _ _ _ _ _) as [[code|m] otps1]; simpl;
      [destruct sendOTPEmail as [res|m]; simpl|].
    all: try rewrite (find_by_id_inserted _ _ id) by done; simpl.
    all: try rewrite delete_inserted.
    all: split_and!; [|done|done]; try done.
    all: rewrite filter_app, Hacc, filter_cons, decide_False by done.
    all: by rewrite app_nil_r.
  - subst accounts.
    unfold User.create, User.save; simpl; case_decide; simpl; [done|].
    unfold insertOne, User.findByIdAndDelete; run; case_decide; simpl; [done|].
    destruct (OTP.createOTP _ _ _ _ _ _) as [[code|m] otps1]; simpl;
      [destruct sendOTPEmail as [res|m]; simpl|].
    all: try rewrite (find_by_id_inserted _ _ id) by done; simpl.
    all: try rewrite delete_inserted.
    all: split_and!; [|done|done]; try done.
    all: rewrite filter_app, filter_cons, decide_False by done.
    all: by rewrite app_nil_r.
Qed.

(** The code an issuance has stored verifies once, before its expiry. *)
Lemma verifyOTP_issued (q p code : string) (t expires : Z) (e : string)
    (coll : list OTP.Doc) :
  lowercase_trim e = q → q ≠ "" → code ≠ "" → p ∈ OTP.purposes → (t < expires)%Z →
  let doc := {| OTP.email := q; OTP.otp := code; OTP.purpose := p;
                OTP.attempts := 0; OTP.isUsed := false; OTP.expiresAt := expires |} in
  let rest := filter (λ d, ¬ OTP.for_pair q p d) coll in
  OTP.verifyOTP t e code p (rest ++ [doc]) =
    (Ok true, rest ++ [OTP.set_isUsed true doc])
  ∧ ∀ t', OTP.verifyOTP t' e code p (rest ++ [OTP.set_isUsed true doc]) =
            (Throw "OTP has already been used", rest ++ [OTP.set_isUsed true doc]).
Proof.
  intros Hq Hne Hcode Hp Ht doc rest. split.
  - unfold OTP.verifyOTP, OTP.save, mbind, M_bind, get, put, mret, M_ret, throw.
    rewrite Hq. unfold rest.
    rewrite (find_after_pair_deleted q p coll doc)
      by (intros x [(? & ? & ?) _]; by split).
    rewrite decide_True by (by split_and!).
    simpl. rewrite decide_True by (by split_and!). simpl.
    by rewrite insert_app_r_alt, Nat.sub_diag.
  - intros t'.
    unfold OTP.verifyOTP, OTP.save, mbind, M_bind, get, put, mret, M_ret, throw.
    rewrite Hq. unfold rest.
    rewrite (find_after_pair_deleted q p coll (OTP.set_isUsed true doc))
      by (intros x [(? & ? & ?) _]; by split).
    rewrite decide_False by (by intros [_ [? _]]).
    rewrite (find_after_pair_deleted q p coll (OTP.set_isUsed true doc))
      by (intros x (? & ? & ?); by split).
    by rewrite decide_True.
Qed.

(** [save] on a loaded account whose [password] path was not touched:
    validation, no hashing, and the write to its position. *)
Lemma save_loaded (salt : string) (i : nat) (d' : User.Doc) (paths : list string)
    (m : User.Model) (coll : list User.Doc) :
  User.isNew m = false → User.modifiedPaths m = [] → User.slot m = i →
  "password" ∉ paths → User.valid d' →
  User.save true salt (User.with_doc d' paths m) coll =
    (Ok {| User.doc := d'; User.isNew := false; User.modifiedPaths := [];
           User.slot := i |}, <[i := d']> coll).
Proof.
  intros Hnew Hmod Hslot Hpaths Hvalid. unfold User.save. simpl.
  rewrite decide_False by (by intros [_ ?]).
  unfold User.pre_save. rewrite decide_True.
  2:{ unfold User.isModified. simpl. by rewrite Hmod. }
  simpl. rewrite Hnew, Hslot. done.
Qed.

(** X18. Register, then verify. For a new address, a registration at an
    instant [now], with an expiry [now + minutes * 60000], that a [Date] can
    hold, followed by a verify-email request with the issued code, before
    the expiry of the code, leaves the account verified and active with the hash of the
    registration untouched (the second [save] does not hash again), and a
    default workspace, named after the account, which the account owns and
    of which it is the only member, as admin, linked from the account. The
    invitations are unchanged, and the code is spent: every further request
    with it is answered 'OTP has already been used'. Whether the email of
    the registration was delivered plays no part. *)
Theorem register_then_verify (env : Env) (random : nat → nat) (now t : Z)
    (salt salt' id wsid : string) (delivered : bool)
    (body : AuthController.RegisterBody) (ctx : Ctx) :
  AuthController.name body ≠ "" → AuthController.email body ≠ "" →
  lowercase_trim (AuthController.email body) ≠ "" →
  6 ≤ String.length (AuthController.password body) →
  bcrypt_hash (AuthController.password body) salt ≠ "" →
  (0 < or_default (OTP_LENGTH env) 6)%Z →
  (∀ u, u ∈ users (db ctx) →
     User.email u ≠ AuthController.email body ∧ User._id u ≠ id) →
  (∀ w, w ∈ workspaces (db ctx) → Workspace._id w ≠ wsid) →
  valid_date now →
  valid_date (now + or_default (OTP_EXPIRY_MINUTES env) 10 * 60 * 1000) →
  (now ≤ t < now + or_default (OTP_EXPIRY_MINUTES env) 10 * 60 * 1000)%Z →
  let request :=
    {| AuthController.v_email := AuthController.email body;
       AuthController.v_otp :=
         OTP.generateOTP random (or_default (OTP_LENGTH env) 6) |} in
  let ctx1 := (AuthController.registerUser env random now salt id
                 (Ok {| Email.success := delivered |}) body ctx).2 in
  let ctx2 := (AuthController.verifyEmail t salt' wsid request ctx1).2 in
  users (db ctx2) =
    users (db ctx) ++
      [{| User._id := id;
          User.name := AuthController.name body;
          User.email := AuthController.email body;
          User.password := bcrypt_hash (AuthController.password body) salt;
          User.avatar := "/images/default-avatar.png";
          User.status := "active";
          User.emailVerified := true;
          User.emailVerifiedAt := Some t;
          User.preferences := default_preferences;
          User.workspaces := [wsid] |}]
  ∧ workspaces (db ctx2) =
      workspaces (db ctx) ++
        [{| Workspace._id := wsid;
            Workspace.name := AuthController.name body +:+ "'s Workspace";
            Workspace.description := "Your personal workspace";
            Workspace.owner := id;
            Workspace.members :=
              [{| Workspace.user := id; Workspace.role := "admin" |}] |}]
  ∧ invitations (db ctx2) = invitations (db ctx)
  ∧ ∀ t' salt'' wsid',
      (AuthController.verifyEmail t' salt'' wsid' request ctx2).1 =
        Throw "OTP has already been used".
Proof.
  intros Hn He He' Hp Hhash Hlen Hfresh Hws Hnow Hdate Ht request ctx1 ctx2.
  assert (OTP.generateOTP random (or_default (OTP_LENGTH env) 6) ≠ "") as Hcode
    by (by apply generateOTP_nonempty).
  assert ("email_verification" ∈ OTP.purposes) as Hpurpose
    by (unfold OTP.purposes; in_list).
  unfold ctx2, ctx1. rewrite registerUser_fresh by done. simpl.
  destruct (verifyOTP_issued (lowercase_trim (AuthController.email body))
              "email_verification"
              (OTP.generateOTP random (or_default (OTP_LENGTH env) 6)) t
              (now + or_default (OTP_EXPIRY_MINUTES env) 10 * 60 * 1000)%Z
              (AuthController.email body) (otps (db ctx)))
    as [Hverify Hagain]; [done..|lia|].
  unfold AuthController.verifyEmail. simpl.
  rewrite decide_False by tauto. run. rewrite Hverify. simpl.
  unfold User.findOne. run.
  assert (list_find (λ d, User.email d = AuthController.email body)
            (users (db ctx)) = None) as Hnone.
  { apply list_find_None, Forall_forall. intros u Hu. by destruct (Hfresh u Hu). }
  rewrite list_find_app_r by done. simpl. rewrite decide_True by done. simpl.
  rewrite (save_loaded _ (length (users (db ctx)))); try done.
  2:{ intros Hin. repeat (apply elem_of_cons in Hin as [Hin|Hin]; [done|]).
      by apply elem_of_nil in Hin. }
  2:{ split_and!; simpl; try done. unfold User.statuses. in_list. }
  simpl. unfold Workspace.create, insertOne.
  rewrite decide_True.
  2:{ split; simpl; [by destruct (AuthController.name body)|].
      apply Forall_singleton. simpl. unfold Workspace.roles. in_list. }
  run. rewrite decide_False.
  2:{ rewrite Exists_exists. intros (w & Hw & Hc). by apply (Hws w Hw). }
  simpl.
  rewrite (save_loaded _ (length (users (db ctx)))); try done.
  2:{ intros Hin. repeat (apply elem_of_cons in Hin as [Hin|Hin]; [done|]).
      by apply elem_of_nil in Hin. }
  2:{ split_and!; simpl; try done. unfold User.statuses. in_list. }
  simpl. rewrite list_insert_insert_eq.
  rewrite insert_app_r_alt, Nat.sub_diag by done. simpl.
  split_and!; [done..|].
  intros t' salt'' wsid'. unfold AuthController.verifyEmail. simpl.
  rewrite decide_False by tauto. run. rewrite Hagain. simpl.
  by destruct (OTP.incrementAttempts _ _ _ _) as [[[]|?] ?].
Qed.

(** X19. A resend replaces the code whether or not the email leaves. For
    an unverified account, at an instant and with an expiry that a [Date]
    can hold, [resendOTP] deletes the email-verification codes of the
    address and stores a new one; when the transport of the email
    service succeeds the answer is the success reply, when it throws the
    answer is 'Failed to send OTP email' with status 500 and the new code
    stays stored, the previous one gone: nothing is rolled back. Accounts,
    workspaces and invitations are unchanged. *)
Theorem resendOTP_replaces_code (env : Env) (random : nat → nat) (now : Z)
    (transport : result string) (email0 : string) (ctx : Ctx)
    (i : nat) (u : User.Doc) :
  email0 ≠ "" → lowercase_trim email0 ≠ "" →
  (0 < or_default (OTP_LENGTH env) 6)%Z →
  valid_date now →
  valid_date (now + or_default (OTP_EXPIRY_MINUTES env) 10 * 60 * 1000) →
  list_find (λ d, User.email d = email0) (users (db ctx)) = Some (i, u) →
  User.emailVerified u = false →
  let doc := {| OTP.email := lowercase_trim email0;
                OTP.otp := OTP.generateOTP random (or_default (OTP_LENGTH env) 6);
                OTP.purpose := "email_verification";
                OTP.attempts := 0; OTP.isUsed := false;
                OTP.expiresAt :=
                  (now + or_default (OTP_EXPIRY_MINUTES env) 10 * 60 * 1000)%Z |} in
  let '(r, ctx') :=
    AuthController.resendOTP env random now
      (EmailService.sendOTPEmail transport) email0 ctx in
  otps (db ctx') =
    filter (λ d, ¬ OTP.for_pair (lowercase_trim email0) "email_verification" d)
      (otps (db ctx)) ++ [doc]
  ∧ users (db ctx') = users (db ctx)
  ∧ workspaces (db ctx') = workspaces (db ctx)
  ∧ invitations (db ctx') = invitations (db ctx)
  ∧ match transport with
    | Ok _ =>
        r = Ok {| success := true;
                  message := "OTP sent successfully to your email address" |}
        ∧ statusCode ctx' = statusCode ctx
    | Throw _ =>
        r = Throw "Failed to send OTP email" ∧ statusCode ctx' = 500%Z
    end.
Proof.
  intros He He' Hlen Hnow Hdate Hfind Hv doc.
  unfold AuthController.resendOTP, User.findOne.
  rewrite decide_False by done. run. rewrite Hfind. simpl. rewrite Hv. simpl.
  rewrite createOTP_run by (done || (unfold OTP.purposes; in_list)). simpl.
  destruct transport as [id|m]; simpl; by split_and!.
Qed.

Lemma authUser_db (generateToken : result string) (email0 password0 : string)
    (ctx : Ctx) :
  db (AuthController.authUser generateToken email0 password0 ctx).2 = db ctx.
Proof.
  unfold AuthController.authUser, User.findOne. run.
  destruct (list_find _ (users (db ctx))) as [[i u]|]; simpl;
    [destruct (User.emailVerified u); simpl;
       [destruct (bcrypt_compare _ _); simpl;
          [destruct generateToken; simpl|]|]|];
    by destruct ctx as [[] ?].
Qed.

(** The codes after a registration or a resend: as before, or as
    [createOTP] left them. *)
Lemma registerUser_otps (env : Env) (random : nat → nat)
    (now : Z) (salt id : string) (sendOTPEmail : result Email.Result)
    (body : AuthController.RegisterBody) (ctx : Ctx) :
  let coll := otps (db (AuthController.registerUser env random now salt id
                          sendOTPEmail body ctx).2) in
  coll = otps (db ctx)
  ∨ coll = (OTP.createOTP env random now (AuthController.email body)
              "email_verification" (otps (db ctx))).2.
Proof.
  unfold AuthController.registerUser, User.findOne, User.findByIdAndDelete,
    User.create, User.save, insertOne.
  repeat (case_decide; [by left|]). run.
  destruct (list_find _ (users (db ctx))) as [[i u]|]; simpl;
    [destruct (User.emailVerified u); simpl; [by left|];
     destruct (list_find _ (users (db ctx))) as [[i' u']|]; simpl|].
  all: repeat (case_decide; simpl; [by left|]).
  all: destruct (OTP.createOTP _ _ _ _ _ _) as [[code|m] otps1]; simpl;
    [destruct sendOTPEmail; simpl|].
  all: try by right.
  all: destruct (list_find _ _) as [[? ?]|]; simpl; by right.
Qed.

Lemma resendOTP_otps (env : Env) (random : nat → nat) (now : Z)
    (sendOTPEmail : result Email.Result) (email0 : string) (ctx : Ctx) :
  let coll := otps (db (AuthController.resendOTP env random now sendOTPEmail
                          email0 ctx).2) in
  coll = otps (db ctx)
  ∨ coll = (OTP.createOTP env random now email0 "email_verification"
              (otps (db ctx))).2.
Proof.
  unfold AuthController.resendOTP, User.findOne.
  case_decide; [by left|]. run.
  destruct (list_find _ (users (db ctx))) as [[i u]|]; simpl; [|by left].
  destruct (User.emailVerified u); simpl; [by left|].
  destruct (OTP.createOTP _ _ _ _ _ _) as [[code|m] otps1]; simpl;
    [destruct sendOTPEmail as [[[]]|]; simpl|]; by right.
Qed.

(** Each endpoint keeps the codes with a moved counter spent. *)
Lemma handle_attempted_spent (env : Env) (w : AuthRoutes.World)
    (req : AuthRoutes.Request) (ctx ctx' : Ctx) (r : result Reply) :
  (∀ body, req = AuthRoutes.verify_email body →
     lowercase_trim (AuthController.v_email body) ≠ "") →
  OTP.attempted_spent (AuthRoutes.now w) (otps (db ctx)) →
  AuthRoutes.handle env w req ctx = (r, ctx') →
  (∀ t, (AuthRoutes.now w ≤ t)%Z → OTP.attempted_spent t (otps (db ctx')))
  ∧ (∀ body, req = AuthRoutes.verify_email body →
       r ≠ Throw "Too many failed attempts. Please request a new OTP").
Proof.
  intros Hbody Hinv Hrun. destruct req as [e p|body|body|e]; simpl in Hrun.
  - split; [|done]. intros t Ht. apply (attempted_spent_later (AuthRoutes.now w)); [done|].
    replace ctx' with (AuthController.authUser (AuthRoutes.generateToken w) e p ctx).2
      by (by rewrite Hrun).
    by rewrite authUser_db.
  - split; [|done]. intros t Ht. apply (attempted_spent_later (AuthRoutes.now w)); [done|].
    replace ctx' with
      (AuthController.registerUser env (AuthRoutes.random w) (AuthRoutes.now w)
         (AuthRoutes.salt w) (AuthRoutes.new_id w) (AuthRoutes.sendOTPEmail w)
         body ctx).2 by (by rewrite Hrun).
    destruct (registerUser_otps env (AuthRoutes.random w) (AuthRoutes.now w)
                (AuthRoutes.salt w) (AuthRoutes.new_id w)
                (AuthRoutes.sendOTPEmail w) body ctx) as [-> | ->]; [done|].
    by apply createOTP_attempted_spent.
  - destruct (verifyEmail_never_locked _ _ _ _ _ _ _ (Hbody body eq_refl) Hinv Hrun)
      as [Hr Hinv']. split; [done|]. by intros ? _.
  - split; [|done]. intros t Ht. apply (attempted_spent_later (AuthRoutes.now w)); [done|].
    replace ctx' with
      (AuthController.resendOTP env (AuthRoutes.random w) (AuthRoutes.now w)
         (AuthRoutes.sendOTPEmail w) e ctx).2 by (by rewrite Hrun).
    destruct (resendOTP_otps env (AuthRoutes.random w) (AuthRoutes.now w)
                (AuthRoutes.sendOTPEmail w) e ctx) as [-> | ->]; [done|].
    by apply createOTP_attempted_spent.
Qed.

(** X20. Through the auth endpoints the limit of five attempts is never
    what a verification meets. From a store whose attempted codes are all
    used or expired (an empty one, or any store the endpoints have produced
    from it), whatever sequence of login, register, verify-email and
    resend-otp requests is served in the order of the clock, no verify-email
    request is answered 'Too many failed attempts. Please request a new
    OTP'. The addresses of the verify-email requests are taken not blank
    after the setters. *)
Theorem auth_requests_never_locked (env : Env)
    (reqs : list (AuthRoutes.World * AuthRoutes.Request)) (t0 : Z) (ctx : Ctx) :
  AuthRoutes.chronological t0 reqs →
  OTP.attempted_spent t0 (otps (db ctx)) →
  (∀ w body, (w, AuthRoutes.verify_email body) ∈ reqs →
     lowercase_trim (AuthController.v_email body) ≠ "") →
  ∀ k w body, reqs !! k = Some (w, AuthRoutes.verify_email body) →
    (AuthRoutes.serve env reqs ctx).1 !! k ≠
      Some (Throw "Too many failed attempts. Please request a new OTP").
Proof.
  revert t0 ctx. induction reqs as [|[w req] reqs IH];
    intros t0 ctx Hchrono Hinv Hbodies k w' body Hk; [done|].
  destruct Hchrono as [Ht0 Hchrono]. simpl.
  destruct (AuthRoutes.handle env w req {| db := db ctx; statusCode := 200 |})
    as [r ctx'] eqn:Hrun.
  destruct (AuthRoutes.serve env reqs ctx') as [rs ctx''] eqn:Hrest.
  destruct (handle_attempted_spent env w req
              {| db := db ctx; statusCode := 200 |} ctx' r) as [Hinv' Hr];
    [| |done|].
  { intros b ->. apply (Hbodies w). left. }
  { simpl. by apply (attempted_spent_later t0). }
  destruct k as [|k]; simpl in *.
  - simplify_eq. intros [= Heq]. by apply (Hr body).
  - assert (OTP.attempted_spent (AuthRoutes.now w) (otps (db ctx'))) as Hnext
      by (apply Hinv'; lia).
    specialize (IH (AuthRoutes.now w) ctx' Hchrono Hnext).
    rewrite Hrest in IH. apply (IH (λ w0 b Hin, Hbodies w0 b (list_elem_of_further _ _ _ Hin)) k w' body Hk).
Qed.
End MoreAuthProperties.

(** ** The invitation endpoints *)

Section ControllerProperties.
Context {setters : SchemaSetters} {strings : StringOps} {bcrypt : Bcrypt}
  {ids : ObjectIdCast}.



Lemma workspaces_not_password : "password" ∉ ["workspaces"].
Proof. by intros ?%list_elem_of_singleton. Qed.

(** A token that labels one stored invitation finds nothing once that
    invitation is not pending. *)
Lemma findByToken_resolved (coll : list TeamInvitation.Doc) (i : nat)
    (x : TeamInvitation.Doc) (token : string) (now : Z) :
  (∀ j y, coll !! j = Some y → TeamInvitation.token y = token → j = i) →
  i < length coll →
  TeamInvitation.status x ≠ TeamInvitation.pending →
  TeamInvitation.findByToken now token (<[i := x]> coll) =
    (Throw "Invalid or expired invitation", <[i := x]> coll).
Proof.
  intros Huniq Hlen Hx.
  unfold TeamInvitation.findByToken, mbind, M_bind, get, mret, M_ret, throw.
  assert (list_find (TeamInvitation.valid_token token now) (<[i := x]> coll) = None)
    as ->; [|done].
  apply list_find_None, Forall_forall. intros y Hy (Htok & Hpend & _).
  apply list_elem_of_lookup in Hy as [j Hj].
  apply list_lookup_insert_Some in Hj as [(-> & -> & _)|[Hne Hj]]; [done|].
  by apply Hne, eq_sym, (Huniq j y).
Qed.

(** X22. Accepting joins the workspace, once. For a stored pending,
    unexpired invitation with a role of the workspace schema (member or
    admin; C9 is the manager case), a verified account entitled to it and
    the workspace stored valid, the handler answers 'Invitation accepted
    successfully': the invitation is stored accepted by that account at that
    instant, the workspace has one more member, that account with the
    role of the invitation, appended last, and the account links to the
    workspace unless it already did. No check is made that the account was
    not a member before. Afterwards the token is dead: every further accept
    with it is answered 'Invalid or expired invitation'. The token labels
    one stored invitation, as its unique index has it. *)
Theorem acceptInvitation_joins_workspace (now : Z)
    (salt token userId : string) (ctx : Ctx)
    (i : nat) (inv : TeamInvitation.Doc) (k : nat) (u : User.Doc)
    (j : nat) (ws : Workspace.Doc) :
  token ≠ "" →
  list_find (TeamInvitation.valid_token token now) (invitations (db ctx))
    = Some (i, inv) →
  (∀ j y, invitations (db ctx) !! j = Some y → TeamInvitation.token y = token →
          j = i) →
  TeamInvitation.valid inv →
  TeamInvitation.role inv ∈ Workspace.roles →
  (userId ≠ ""
   ∧ (list_find (λ x, User._id x = userId) (users (db ctx)) = Some (k, u))
   ∧ toLowerCase (User.email u) = toLowerCase (TeamInvitation.email inv))
  ∨ (userId = ""
     ∧ (list_find (λ x, User.email x = TeamInvitation.email inv) (users (db ctx))
        = Some (k, u))) →
  User.emailVerified u = true → User.valid u →
  list_find (λ w, Workspace._id w = TeamInvitation.workspaceId inv)
    (workspaces (db ctx)) = Some (j, ws) →
  Workspace.valid ws →
  let accepted := TeamInvitation.set_accepted (User._id u) now inv in
  let joined :=
    Workspace.set_members
      (Workspace.members ws
       ++ [{| Workspace.user := User._id u;
              Workspace.role := TeamInvitation.role inv |}]) ws in
  let linked :=
    if decide (Workspace._id ws ∈ User.workspaces u) then users (db ctx)
    else <[k := User.set_workspaces (User.workspaces u ++ [Workspace._id ws]) u]>
           (users (db ctx)) in
  let ctx' := {| db := {| otps := otps (db ctx);
                          users := linked;
                          workspaces := <[j := joined]> (workspaces (db ctx));
                          invitations := <[i := accepted]> (invitations (db ctx)) |};
                 statusCode := statusCode ctx |} in
  InvitationController.acceptInvitation now salt token userId ctx =
    (Ok {| success := true; message := "Invitation accepted successfully" |}, ctx')
  ∧ ∀ now' salt' userId',
      (InvitationController.acceptInvitation now' salt' token userId' ctx').1 =
        Throw "Invalid or expired invitation".
Proof.
  intros Htok Hinv Huniq Hvalid Hrole Huser Hver Huvalid Hws Hwvalid
    accepted joined linked ctx'.
  pose proof Hinv as (Hi & (_ & Hpend & Hexp) & _)%list_find_Some.
  pose proof Hws as (Hj & Hwid & _)%list_find_Some.
  assert (users (db ctx) !! k = Some u) as Hk.
  { by destruct Huser as [(_ & (? & _)%list_find_Some & _)
                          |(_ & (? & _)%list_find_Some)]. }
  split.
  - unfold InvitationController.acceptInvitation.
    rewrite decide_False by done. run.
    unfold TeamInvitation.findByToken. run. rewrite Hinv. simpl.
    assert (TeamInvitation.accept now i inv (User._id u) (invitations (db ctx))
            = (Ok accepted, <[i := accepted]> (invitations (db ctx)))) as Hacc.
    { unfold TeamInvitation.accept, TeamInvitation.save.
      rewrite decide_False by (intros Hn; by apply Hn).
      rewrite decide_False by lia. by rewrite decide_True. }
    assert (Workspace.valid joined) as Hjoined.
    { destruct Hwvalid as [Hname Hall]. split; [done|]. simpl.
      apply Forall_app. split; [done|]. by apply Forall_singleton. }
    assert (∀ ctx0 : Ctx,
              users (db ctx0) = users (db ctx) →
              (if decide (Workspace._id joined ∉ User.workspaces u)
               then <[k := User.set_workspaces
                             (User.workspaces u ++ [Workspace._id joined]) u]>
                      (users (db ctx0))
               else users (db ctx0)) = linked) as Hlinked.
    { intros ctx0 ->. unfold linked. simpl.
      destruct (decide (Workspace._id ws ∈ User.workspaces u)).
      - by rewrite decide_False by (intros Hn; by apply Hn).
      - by rewrite decide_True. }
    unfold ctx'. rewrite <- (Hlinked ctx eq_refl).
    destruct Huser as [(Hid & Hu & Hmail)|(Hid & Hu)].
    + rewrite decide_True by done. run. rewrite Hu. simpl.
      rewrite decide_False by (intros Hn; by apply Hn). simpl.
      rewrite Hver. simpl. rewrite Hacc. simpl. rewrite Hws. simpl.
      unfold Workspace.save. rewrite decide_True by done. run.
      destruct (decide (Workspace._id ws ∉ User.workspaces u)); simpl.
      * rewrite (save_loaded _ k)
          by (done || apply workspaces_not_password || exact Huvalid).
        simpl. by destruct ctx as [[] ?].
      * by destruct ctx as [[] ?].
    + rewrite decide_False by (intros Hn; by apply Hn). run. rewrite Hu. simpl.
      rewrite Hver. simpl. rewrite Hacc. simpl. rewrite Hws. simpl.
      unfold Workspace.save. rewrite decide_True by done. run.
      destruct (decide (Workspace._id ws ∉ User.workspaces u)); simpl.
      * rewrite (save_loaded _ k)
          by (done || apply workspaces_not_password || exact Huvalid).
        simpl. by destruct ctx as [[] ?].
      * by destruct ctx as [[] ?].
  - intros now' salt' userId'.
    unfold InvitationController.acceptInvitation.
    rewrite decide_False by done. run.
    rewrite findByToken_resolved; [done|done| |done].
    by eapply lookup_lt_Some.
Qed.

(** X23. Declining needs the token only and closes it. For a stored
    pending, unexpired invitation the handler answers 'Invitation declined
    successfully' and stores the invitation as declined, touching nothing
    else; afterwards accepting and declining with the token are both
    answered 'Invalid or expired invitation' with status 400 and change
    nothing. *)
Theorem declineInvitation_closes_token (now : Z) (token : string) (ctx : Ctx)
    (i : nat) (inv : TeamInvitation.Doc) :
  token ≠ "" →
  list_find (TeamInvitation.valid_token token now) (invitations (db ctx))
    = Some (i, inv) →
  (∀ j y, invitations (db ctx) !! j = Some y → TeamInvitation.token y = token →
          j = i) →
  TeamInvitation.valid inv →
  let declined := TeamInvitation.set_status TeamInvitation.declined inv in
  let ctx' := {| db := {| otps := otps (db ctx);
                          users := users (db ctx);
                          workspaces := workspaces (db ctx);
                          invitations := <[i := declined]> (invitations (db ctx)) |};
                 statusCode := statusCode ctx |} in
  InvitationController.declineInvitation now token ctx =
    (Ok {| success := true; message := "Invitation declined successfully" |}, ctx')
  ∧ (∀ now' salt userId,
       InvitationController.acceptInvitation now' salt token userId ctx' =
         (Throw "Invalid or expired invitation",
          {| db := db ctx'; statusCode := 400 |}))
  ∧ (∀ now',
       InvitationController.declineInvitation now' token ctx' =
         (Throw "Invalid or expired invitation",
          {| db := db ctx'; statusCode := 400 |})).
Proof.
  intros Htok Hinv Huniq Hvalid declined ctx'.
  pose proof Hinv as (Hi & (_ & Hpend & Hexp) & _)%list_find_Some.
  assert (i < length (invitations (db ctx))) as Hlen by (by eapply lookup_lt_Some).
  split_and!.
  - unfold InvitationController.declineInvitation.
    rewrite decide_False by done. run.
    unfold TeamInvitation.findByToken. run. rewrite Hinv. simpl.
    unfold TeamInvitation.decline, TeamInvitation.save.
    rewrite decide_False by (intros Hn; by apply Hn).
    rewrite decide_True by done. run. by destruct ctx as [[] ?].
  - intros now' salt userId. unfold InvitationController.acceptInvitation.
    rewrite decide_False by done. run.
    by rewrite findByToken_resolved.
  - intros now'. unfold InvitationController.declineInvitation.
    rewrite decide_False by done. run.
    by rewrite findByToken_resolved.
Qed.

End ControllerProperties.

(** ** The workspace routes *)

Section WorkspaceProperties.
Context {setters : SchemaSetters} {strings : StringOps} {bcrypt : Bcrypt}
  {validator : Validator} {ids : ObjectIdCast}.

(** A query finds a rewritten document in the place of the original when
    both pass its filter. *)
Lemma list_find_insert_same {A} (P : A → Prop) `{!∀ x, Decision (P x)}
    (l : list A) (i : nat) (x y : A) :
  list_find P l = Some (i, x) → P y →
  list_find P (<[i := y]> l) = Some (i, y).
Proof.
  intros (Hi & Hx & Hfirst)%list_find_Some Hy. apply list_find_Some.
  split_and!; [|done|].
  - apply list_lookup_insert_eq. by eapply lookup_lt_Some.
  - intros j z Hj Hlt. rewrite list_lookup_insert_ne in Hj by lia.
    by apply (Hfirst j).
Qed.

(** With the account of every member stored, [some] on the populated
    members is [some] on the members. *)
Lemma some_populated_all (accounts : list User.Doc)
    (test : Workspace.Member → bool) (members : list Workspace.Member) :
  Forall (λ m, Exists (λ u, User._id u = Workspace.user m) accounts) members →
  WorkspaceRoutes.some_populated accounts test members =
    Ok (bool_decide (Exists (λ m, test m = true) members)).
Proof.
  induction 1 as [|m members Hm _ IH]; simpl; [done|].
  rewrite decide_True by done. destruct (test m) eqn:Ht.
  - by rewrite bool_decide_eq_true_2 by (by left).
  - rewrite IH. f_equal. apply bool_decide_ext. rewrite Exists_cons.
    split; [by right|]. intros [?|?]; [congruence|done].
Qed.

(** X24. A permitted removal removes that member and nobody else. The two
    route parameters are ObjectIds as stored, so that the casts of
    [findById] and [findByIdAndUpdate] leave them as they are. When the
    requester is the owner, an admin member or the member to remove, and the
    member is not the owner, the handler answers 'Member removed
    successfully' (whether or not the user was a member): the workspace
    keeps its [_id] and owner, its members are the former ones without the
    entries of that user, in their order, and the workspace is pulled from
    the workspaces of the account with that [_id], if there is one. Codes
    and invitations are unchanged. The workspace is stored valid. *)
Theorem removeMember_effect (reqUserId id userId : string) (ctx : Ctx)
    (k : nat) (ws : Workspace.Doc) :
  castObjectId id = Some id →
  castObjectId userId = Some userId →
  list_find (λ d, Workspace._id d = id) (workspaces (db ctx)) = Some (k, ws) →
  Workspace.valid ws →
  Workspace.owner ws = reqUserId
  ∨ Exists (λ m, Workspace.user m = reqUserId ∧ Workspace.role m = "admin")
      (Workspace.members ws)
  ∨ userId = reqUserId →
  Workspace.owner ws ≠ userId →
  let '(r, ctx') := WorkspaceRoutes.removeMember reqUserId id userId ctx in
  r = Ok {| success := true; message := "Member removed successfully" |}
  ∧ (∃ ws', workspaces (db ctx') = <[k := ws']> (workspaces (db ctx))
          ∧ Workspace._id ws' = Workspace._id ws
          ∧ Workspace.owner ws' = Workspace.owner ws
          ∧ Workspace.members ws' =
              filter (λ m, Workspace.user m ≠ userId) (Workspace.members ws)
          ∧ ∀ m, m ∈ Workspace.members ws' → Workspace.user m ≠ userId)
  ∧ users (db ctx') =
      match list_find (λ u, User._id u = userId) (users (db ctx)) with
      | Some (j, u) =>
          <[j := User.set_workspaces
                   (filter (λ w, w ≠ Workspace._id ws) (User.workspaces u)) u]>
            (users (db ctx))
      | None => users (db ctx)
      end
  ∧ otps (db ctx') = otps (db ctx)
  ∧ invitations (db ctx') = invitations (db ctx)
  ∧ statusCode ctx' = statusCode ctx.
Proof.
  intros _ _ Hws Hvalid Hperm Hnot.
  unfold WorkspaceRoutes.removeMember, Workspace.findById. run.
  rewrite Hws. simpl.
  assert (negb (bool_decide (Workspace.owner ws = reqUserId))
          && negb (bool_decide
                     (Exists (λ m, Workspace.user m = reqUserId
                                   ∧ Workspace.role m = "admin")
                        (Workspace.members ws)))
          && negb (bool_decide (userId = reqUserId)) = false) as ->.
  { destruct Hperm as [?|[?|?]].
    - by rewrite (bool_decide_eq_true_2 (Workspace.owner ws = reqUserId)).
    - rewrite (bool_decide_eq_true_2 (Exists _ _)) by done.
      by rewrite andb_false_r.
    - rewrite (bool_decide_eq_true_2 (userId = reqUserId)) by done.
      by rewrite andb_false_r. }
  rewrite decide_False by done.
  unfold Workspace.save. rewrite decide_True.
  2:{ destruct Hvalid as [Hname Hall]. split; [done|]. simpl.
      apply Forall_forall. intros m [_ Hm]%list_elem_of_filter.
      rewrite Forall_forall in Hall. by apply Hall. }
  run. unfold User.pullWorkspace. run.
  destruct (list_find _ (users (db ctx))) as [[j u]|]; simpl.
  all: split_and!; try done.
  all: eexists; split_and!; try done.
  all: by intros m [? _]%list_elem_of_filter.
Qed.


(** X25. Add, then remove: a round trip. When an owner or admin adds an
    account that is not yet a member (address accepted by the validator,
    role one of the three or absent), the handler answers 'Member added
    successfully' with the member appended under the given role or 'member'
    and the workspace linked from the account; removing that member
    afterwards answers 'Member removed successfully' and restores the
    database exactly as it was before the addition. The accounts have
    distinct [_id]s, every member's account is stored, the account did not
    link to the workspace before and is not its owner. *)
Theorem addMember_then_removeMember (salt : string) (reqUserId id : string)
    (body : WorkspaceRoutes.AddMemberBody) (ctx : Ctx)
    (k : nat) (ws : Workspace.Doc) (j : nat) (u : User.Doc) :
  isEmail (WorkspaceRoutes.email body) = true →
  ¬ WorkspaceRoutes.role_rejected (WorkspaceRoutes.role body) →
  list_find (λ d, Workspace._id d = id) (workspaces (db ctx)) = Some (k, ws) →
  Workspace.valid ws →
  Forall (λ m, Exists (λ a, User._id a = Workspace.user m) (users (db ctx)))
    (Workspace.members ws) →
  Workspace.owner ws = reqUserId
  ∨ Exists (λ m, Workspace.user m = reqUserId ∧ Workspace.role m = "admin")
      (Workspace.members ws) →
  list_find (λ d, User.email d = normalizeEmail (WorkspaceRoutes.email body))
    (users (db ctx)) = Some (j, u) →
  User.valid u →
  NoDup (User._id <$> users (db ctx)) →
  ¬ Exists (λ m, Workspace.user m = User._id u) (Workspace.members ws) →
  Workspace._id ws ∉ User.workspaces u →
  Workspace.owner ws ≠ User._id u →
  let member := {| Workspace.user := User._id u;
                   Workspace.role := default "member" (WorkspaceRoutes.role body) |} in
  let ctx1 :=
    {| db := {| otps := otps (db ctx);
                users := <[j := User.set_workspaces
                                  (User.workspaces u ++ [Workspace._id ws]) u]>
                           (users (db ctx));
                workspaces :=
                  <[k := Workspace.set_members (Workspace.members ws ++ [member]) ws]>
                    (workspaces (db ctx));
                invitations := invitations (db ctx) |};
       statusCode := statusCode ctx |} in
  WorkspaceRoutes.addMember salt reqUserId id body ctx =
    (Ok {| success := true; message := "Member added successfully" |}, ctx1)
  ∧ WorkspaceRoutes.removeMember reqUserId id (User._id u) ctx1 =
      (Ok {| success := true; message := "Member removed successfully" |}, ctx).
Proof.
  intros Hemail Hrole Hws Hvalid Hall Hperm Hu Huvalid Hnd Hnew Hlink Hnot
    member ctx1.
  pose proof Hws as (Hk & Hid & _)%list_find_Some.
  pose proof Hu as (Hj & _ & _)%list_find_Some.
  assert (default "member" (WorkspaceRoutes.role body) ∈ Workspace.roles) as Hr.
  { unfold Workspace.roles. destruct (WorkspaceRoutes.role body) as [r|]; simpl.
    - simpl in Hrole. by apply dec_stable in Hrole.
    - in_list. }
  split.
  - unfold WorkspaceRoutes.addMember, Workspace.findById, User.findOne.
    rewrite decide_False by (intros [?|?]; [congruence|done]).
    run. rewrite Hws. simpl.
    rewrite some_populated_all by done. simpl.
    assert (negb (bool_decide (Workspace.owner ws = reqUserId))
            && negb (bool_decide
                 (Exists (λ m, bool_decide (Workspace.user m = reqUserId)
                               && bool_decide (Workspace.role m = "admin") = true)
                    (Workspace.members ws))) = false) as ->.
    { destruct Hperm as [?|Hadmin].
      - by rewrite (bool_decide_eq_true_2 (Workspace.owner ws = reqUserId)).
      - rewrite (bool_decide_eq_true_2 (Exists _ _)); [by rewrite andb_false_r|].
        apply Exists_exists in Hadmin as (m & Hm & Hmu & Hmr).
        apply Exists_exists. exists m. split; [done|].
        by rewrite !bool_decide_eq_true_2. }
    simpl. rewrite Hu. simpl.
    rewrite some_populated_all by done. simpl.
    rewrite bool_decide_eq_false_2.
    2:{ intros (m & Hm & Hmu%bool_decide_eq_true)%Exists_exists. apply Hnew.
        apply Exists_exists. by exists m. }
    simpl.
    rewrite (save_loaded _ j)
      by (done || apply workspaces_not_password || exact Huvalid).
    simpl. unfold Workspace.save. rewrite decide_True.
    2:{ destruct Hvalid as [Hname Hms]. split; [done|]. simpl.
        apply Forall_app. split; [done|]. by apply Forall_singleton. }
    run. by destruct ctx as [[] ?].
  - unfold WorkspaceRoutes.removeMember, Workspace.findById. run.
    rewrite (list_find_insert_same _ _ k ws) by done. simpl.
    assert (negb (bool_decide (Workspace.owner ws = reqUserId))
            && negb (bool_decide
                       (Exists (λ m, Workspace.user m = reqUserId
                                     ∧ Workspace.role m = "admin")
                          (Workspace.members ws ++ [member])))
            && negb (bool_decide (User._id u = reqUserId)) = false) as ->.
    { destruct Hperm as [?|Hadmin].
      - by rewrite (bool_decide_eq_true_2 (Workspace.owner ws = reqUserId)).
      - rewrite (bool_decide_eq_true_2 (Exists _ _));
          [by rewrite andb_false_r|].
        apply Exists_app. by left. }
    rewrite decide_False by done.
    assert (filter (λ m, Workspace.user m ≠ User._id u)
              (Workspace.members ws ++ [member]) = Workspace.members ws) as Hback.
    { rewrite filter_app, filter_cons, decide_False by (intros Hn; by apply Hn).
      rewrite filter_nil, app_nil_r. apply filter_all.
      intros m Hm Hmu. apply Hnew, Exists_exists. by exists m. }
    rewrite Hback.
    unfold Workspace.save. rewrite decide_True by (by destruct ws).
    run. unfold User.pullWorkspace. run.
    rewrite list_insert_insert_eq.
    rewrite (list_find_insert_same _ _ j u) by (by apply find_by_id || done).
    simpl. rewrite list_insert_insert_eq.
    rewrite filter_app, filter_cons, decide_False by (intros Hn; by apply Hn).
    rewrite filter_nil, app_nil_r.
    rewrite (filter_all _ (User.workspaces u)) by (intros w Hw ->; done).
    unfold ctx1, set_users, set_workspaces. simpl.
    replace (User.set_workspaces (User.workspaces u)
               (User.set_workspaces (User.workspaces u ++ [Workspace._id ws]) u))
      with u by (by destruct u).
    replace (Workspace.set_members (Workspace.members ws)
               (Workspace.set_members (Workspace.members ws ++ [member]) ws))
      with ws by (by destruct ws).
    rewrite !list_insert_id by done. by destruct ctx as [[] ?].
Qed.


(** Under the unique index on [_id], a deleted workspace is not found
    again. *)
Lemma find_deleted (coll : list Workspace.Doc) (k : nat) (ws : Workspace.Doc) :
  NoDup (Workspace._id <$> coll) → coll !! k = Some ws →
  list_find (λ d, Workspace._id d = Workspace._id ws) (delete k coll) = None.
Proof.
  intros Hnd Hk. apply list_find_None, Forall_forall.
  intros x (i & Hi)%list_elem_of_lookup Hid.
  assert ((if decide (i < k) then i else S i) = k) as Heq.
  { apply (NoDup_lookup _ _ k (Workspace._id ws) Hnd).
    - rewrite list_lookup_fmap, <- Hid. case_decide.
      + rewrite list_lookup_delete_lt in Hi by done. by rewrite Hi.
      + rewrite list_lookup_delete_ge in Hi by lia. by rewrite Hi.
    - by rewrite list_lookup_fmap, Hk. }
  case_decide; lia.
Qed.

(** X26. Deleting a workspace leaves its invitations live. The delete
    handler removes the workspace document and nothing else: accounts and
    invitations are as before. A pending invitation to the deleted
    workspace is then still found by its token, and accepting it stores the
    invitation as accepted before the handler fails on the missing
    workspace, with status 400 and no member added anywhere. The workspaces
    have distinct [_id]s. *)
Theorem deleteWorkspace_then_acceptInvitation (reqUserId id : string) (now : Z)
    (salt token : string) (ctx : Ctx) (k : nat) (ws : Workspace.Doc)
    (i : nat) (inv : TeamInvitation.Doc) (j : nat) (u : User.Doc) :
  list_find (λ d, Workspace._id d = id) (workspaces (db ctx)) = Some (k, ws) →
  NoDup (Workspace._id <$> workspaces (db ctx)) →
  Workspace.owner ws = reqUserId →
  token ≠ "" →
  list_find (TeamInvitation.valid_token token now) (invitations (db ctx))
    = Some (i, inv) →
  TeamInvitation.valid inv →
  TeamInvitation.workspaceId inv = id →
  list_find (λ x, User.email x = TeamInvitation.email inv) (users (db ctx))
    = Some (j, u) →
  User.emailVerified u = true →
  let ctx1 := {| db := {| otps := otps (db ctx);
                          users := users (db ctx);
                          workspaces := delete k (workspaces (db ctx));
                          invitations := invitations (db ctx) |};
                 statusCode := statusCode ctx |} in
  let accepted := TeamInvitation.set_accepted (User._id u) now inv in
  WorkspaceRoutes.deleteWorkspace reqUserId id ctx =
    (Ok {| success := true; message := "Workspace deleted successfully" |}, ctx1)
  ∧ ∃ error,
      InvitationController.acceptInvitation now salt token "" ctx1 =
        (Throw error,
         {| db := {| otps := otps (db ctx);
                     users := users (db ctx);
                     workspaces := delete k (workspaces (db ctx));
                     invitations := <[i := accepted]> (invitations (db ctx)) |};
            statusCode := 400 |}).
Proof.
  intros Hws Hnd Howner Htok Hinv Hvalid Hwid Hu Hver ctx1 accepted.
  pose proof Hws as (Hk & Hid & _)%list_find_Some.
  pose proof Hinv as (Hi & (_ & Hpend & Hexp) & _)%list_find_Some.
  split.
  - unfold WorkspaceRoutes.deleteWorkspace, Workspace.findById,
      Workspace.findByIdAndDelete.
    run. rewrite Hws. simpl.
    destruct (decide (Workspace.owner ws ≠ reqUserId)) as [|_]; [done|].
    simpl. rewrite Hws. simpl. by destruct ctx as [[] ?].
  - eexists. unfold InvitationController.acceptInvitation.
    rewrite decide_False by done. run.
    unfold TeamInvitation.findByToken. run. rewrite Hinv. simpl.
    rewrite Hu. simpl. rewrite Hver. simpl.
    unfold TeamInvitation.accept, TeamInvitation.save.
    rewrite decide_False by (intros Hn; by apply Hn).
    rewrite decide_False by lia. rewrite decide_True by done. run.
    rewrite Hwid, <- Hid. rewrite find_deleted by done. simpl.
    reflexivity.
Qed.

End WorkspaceProperties.

(** ** The mock database *)

Section MockDatabaseProperties.

(** [set] with a key the [Map] does not hold appends the entry. *)
Lemma map_set_new {V} (k : string) (v : V) (m : list (string * V)) :
  k ∉ m.*1 → MockDatabase.map_set k v m = m ++ [(k, v)].
Proof.
  induction m as [|[k' v'] m IH]; intros Hk; simpl; [done|].
  rewrite decide_False.
  - rewrite IH; [done|]. intros Hin. apply Hk. by right.
  - intros ->. apply Hk. left.
Qed.

Lemma map_get_app_new {V} (k k' : string) (v : V) (m : list (string * V)) :
  k ∉ m.*1 →
  MockDatabase.map_get k' (m ++ [(k, v)]) =
    if decide (k' = k) then Some v else MockDatabase.map_get k' m.
Proof.
  intros Hk. unfold MockDatabase.map_get.
  destruct (list_find (λ kv, kv.1 = k') m) as [[i [k0 v0]]|] eqn:Hf.
  - pose proof Hf as (Hi & Hk0 & _)%list_find_Some. simpl in Hk0. subst k0.
    rewrite (list_find_app_l _ _ _ _ _ Hf). simpl.
    rewrite decide_False; [done|]. intros ->. apply Hk.
    apply list_elem_of_fmap. exists (k, v0). split; [done|].
    by eapply list_elem_of_lookup_2.
  - rewrite list_find_app_r by done. simpl.
    destruct (decide (k = k')) as [->|Hne].
    + by rewrite decide_True.
    + by rewrite decide_False by done.
Qed.

(** The key [generateId] is about to return is not in use. *)
Lemma generated_key_fresh (s : MockDatabase.State) :
  MockDatabase.keys_generated s →
  "users_" +:+ pretty (MockDatabase.counters_users s) ∉ (MockDatabase.users s).*1.
Proof.
  intros Hinv Hin. destruct (Hinv _ Hin) as (n & Hn & Heq).
  simpl in Heq. simplify_eq. lia.
Qed.

(** X27. [createUser] of the mock database never overwrites a user. In a
    database whose user keys were all generated (an empty or cleared one,
    and every one reached from it by [createUser]) and whose counter is
    below 2^53, the new user is stored under a key no user had, as the last
    entry; it is found under that key, every other key finds what it found
    before, the workspaces are untouched, and the keys are again all
    generated. *)
Theorem createUser_fresh_key (userData : MockDatabase.User.Data)
    (s : MockDatabase.State) :
  MockDatabase.keys_generated s →
  (MockDatabase.counters_users s < 2 ^ 53)%N →
  let '(r, s') := MockDatabase.createUser userData s in
  ∃ key user,
    r = Ok (key, user)
    ∧ (key ∉ (MockDatabase.users s).*1)
    ∧ MockDatabase.users s' = MockDatabase.users s ++ [(key, user)]
    ∧ (MockDatabase.findUserById key s').1 = Ok (Some user)
    ∧ (∀ id, id ≠ key →
         (MockDatabase.findUserById id s').1 = (MockDatabase.findUserById id s).1)
    ∧ MockDatabase.workspaces s' = MockDatabase.workspaces s
    ∧ MockDatabase.keys_generated s'.
Proof.
  intros Hinv Hbound.
  pose proof (generated_key_fresh s Hinv) as Hfresh.
  unfold MockDatabase.createUser, MockDatabase.generateId,
    mbind, M_bind, get, put, mret, M_ret. simpl.
  rewrite map_set_new by done.
  eexists _, _. split_and!; [done|done|done| | |done|].
  - unfold MockDatabase.findUserById, mbind, M_bind, get, mret, M_ret. simpl.
    rewrite map_get_app_new by done. by rewrite decide_True.
  - intros id Hid.
    unfold MockDatabase.findUserById, mbind, M_bind, get, mret, M_ret. simpl.
    rewrite map_get_app_new by done. by rewrite decide_False.
  - intros k Hk. simpl in *. unfold MockDatabase.incr.
    rewrite decide_True by done. rewrite fmap_app in Hk.
    apply elem_of_app in Hk as [Hk|Hk].
    + destruct (Hinv k Hk) as (n & Hn & ->). exists n. split; [lia|done].
    + apply list_elem_of_singleton in Hk as ->.
      exists (MockDatabase.counters_users s). split; [lia|done].
Qed.

(** X28. In the mock database a user created with an [_id] of its own is
    not found under it. [createUser] stores the user under the generated
    key [users_n] while the [_id] of [userData] replaces the generated one
    in the object: when the given [_id] is not of the form [users_n], as
    'user_1' of the default user is not, the user is found under the
    generated key and [findUserById] of the user's own [_id] returns
    null. *)
Theorem createUser_id_is_not_key (userData : MockDatabase.User.Data)
    (s : MockDatabase.State) (i : string) :
  MockDatabase.keys_generated s →
  MockDatabase.User.d_id userData = Some i →
  (∀ n : N, i ≠ "users_" +:+ pretty n) →
  let '(r, s') := MockDatabase.createUser userData s in
  ∃ key user,
    r = Ok (key, user)
    ∧ MockDatabase.User._id user = i
    ∧ key ≠ i
    ∧ (MockDatabase.findUserById key s').1 = Ok (Some user)
    ∧ (MockDatabase.findUserById (MockDatabase.User._id user) s').1 = Ok None.
Proof.
  intros Hinv Hid Hform.
  pose proof (generated_key_fresh s Hinv) as Hfresh.
  unfold MockDatabase.createUser, MockDatabase.generateId,
    mbind, M_bind, get, put, mret, M_ret. simpl.
  rewrite map_set_new by done. rewrite Hid. simpl.
  eexists _, _. split_and!; [done|done| | |].
  - intros Heq. by apply (Hform (MockDatabase.counters_users s)).
  - unfold MockDatabase.findUserById, mbind, M_bind, get, mret, M_ret. simpl.
    rewrite map_get_app_new by done. by rewrite decide_True.
  - unfold MockDatabase.findUserById, mbind, M_bind, get, mret, M_ret. simpl.
    rewrite map_get_app_new by done.
    rewrite decide_False by (intros Heq; by apply (Hform (MockDatabase.counters_users s))).
    unfold MockDatabase.map_get.
    assert (list_find (λ kv, kv.1 = i) (MockDatabase.users s) = None) as ->; [|done].
    apply list_find_None, Forall_forall. intros [k v] Hkv Hk. simpl in Hk. subst k.
    destruct (Hinv i) as (n & _ & Heq).
    + apply list_elem_of_fmap. by exists (i, v).
    + by apply (Hform n).
Qed.

Lemma map_delete_new {V} (k : string) (v : V) (m : list (string * V)) :
  k ∉ m.*1 → MockDatabase.map_delete k (m ++ [(k, v)]) = m.
Proof.
  intros Hk. unfold MockDatabase.map_delete.
  rewrite filter_app, filter_cons, decide_False by (intros Hn; by apply Hn).
  rewrite filter_nil, app_nil_r. apply filter_all.
  intros [k' v'] Hin Heq. simpl in Heq. subst k'. apply Hk.
  apply list_elem_of_fmap. by exists (k, v').
Qed.

Lemma map_get_absent {V} (k : string) (m : list (string * V)) :
  k ∉ m.*1 → MockDatabase.map_get k m = None.
Proof.
  intros Hk. unfold MockDatabase.map_get.
  assert (list_find (λ kv, kv.1 = k) m = None) as ->; [|done].
  apply list_find_None, Forall_forall. intros [k' v'] Hin Heq.
  simpl in Heq. subst k'. apply Hk.
  apply list_elem_of_fmap. by exists (k, v').
Qed.

(** The key [generateId] is about to return for a workspace is not in
    use. *)
Lemma generated_workspace_key_fresh (s : MockDatabase.State) :
  MockDatabase.workspace_keys_generated s →
  "workspaces_" +:+ pretty (MockDatabase.counters_workspaces s)
    ∉ (MockDatabase.workspaces s).*1.
Proof.
  intros Hinv Hin. destruct (Hinv _ Hin) as (n & Hn & Heq).
  simpl in Heq. simplify_eq. lia.
Qed.

Arguments MockDatabase.map_get : simpl never.
Arguments MockDatabase.map_delete : simpl never.

(** X29. Create, then delete, in the mock database. In a database whose
    workspace keys were all generated and whose counter is below 2^53,
    [createWorkspace] stores the workspace under a new key, where
    [findWorkspaceById] finds it, and [findWorkspacesByUser] of its owner
    returns what it returned before followed by the new workspace;
    [deleteWorkspace] of that key answers true and leaves the workspaces and
    the users as they were before the creation, after which the key finds
    nothing, a second deletion answers false, and no later
    [createWorkspace] is given that key again. *)
Theorem createWorkspace_then_deleteWorkspace
    (workspaceData data' : MockDatabase.Workspace.Data) (s : MockDatabase.State) :
  MockDatabase.workspace_keys_generated s →
  (MockDatabase.counters_workspaces s < 2 ^ 53)%N →
  let owner := MockDatabase.Workspace.d_owner workspaceData in
  ∃ key workspace s1 s2 found,
    MockDatabase.createWorkspace workspaceData s = (Ok (key, workspace), s1)
    ∧ (MockDatabase.findWorkspaceById key s1).1 = Ok (Some workspace)
    ∧ (MockDatabase.findWorkspacesByUser owner s).1 = Ok found
    ∧ (MockDatabase.findWorkspacesByUser owner s1).1 = Ok (found ++ [workspace])
    ∧ MockDatabase.deleteWorkspace key s1 = (Ok true, s2)
    ∧ MockDatabase.workspaces s2 = MockDatabase.workspaces s
    ∧ MockDatabase.users s2 = MockDatabase.users s
    ∧ (MockDatabase.findWorkspaceById key s2).1 = Ok None
    ∧ (MockDatabase.deleteWorkspace key s2).1 = Ok false
    ∧ ∀ key' workspace' s3,
        MockDatabase.createWorkspace data' s2 = (Ok (key', workspace'), s3) →
        key' ≠ key.
Proof.
  intros Hinv Hbound owner.
  pose proof (generated_workspace_key_fresh s Hinv) as Hfresh.
  set (key := "workspaces_" +:+ pretty (MockDatabase.counters_workspaces s)) in *.
  set (workspace :=
         {| MockDatabase.Workspace._id :=
              default key (MockDatabase.Workspace.d_id workspaceData);
            MockDatabase.Workspace.name :=
              MockDatabase.Workspace.d_name workspaceData;
            MockDatabase.Workspace.owner := owner;
            MockDatabase.Workspace.members :=
              MockDatabase.Workspace.d_members workspaceData |}).
  set (counted :=
         {| MockDatabase.users := MockDatabase.users s;
            MockDatabase.workspaces := MockDatabase.workspaces s;
            MockDatabase.counters_users := MockDatabase.counters_users s;
            MockDatabase.counters_workspaces :=
              MockDatabase.incr (MockDatabase.counters_workspaces s) |}).
  exists key, workspace,
    (MockDatabase.set_workspaces
       (MockDatabase.workspaces s ++ [(key, workspace)]) counted),
    counted, (filter (λ w, MockDatabase.Workspace.owner w = owner
                           ∨ Exists (λ m, MockDatabase.Workspace.user m = owner)
                               (MockDatabase.Workspace.members w))
                (MockDatabase.workspaces s).*2).
  unfold MockDatabase.createWorkspace, MockDatabase.deleteWorkspace,
    MockDatabase.findWorkspaceById, MockDatabase.findWorkspacesByUser,
    MockDatabase.generateId, mbind, M_bind, get, put, mret, M_ret. simpl.
  fold key. rewrite !map_set_new by done.
  rewrite !map_get_app_new, !decide_True by done. simpl.
  rewrite map_delete_new by done.
  rewrite !map_get_absent by done. simpl.
  split_and!; try done.
  - rewrite fmap_app, filter_app. simpl.
    rewrite filter_cons, decide_True by (by left). by rewrite filter_nil.
  - intros key' workspace' s3 [= <- _ _].
    unfold MockDatabase.incr. rewrite decide_True by done.
    intros Heq. unfold key in Heq. simplify_eq. lia.
Qed.

End MockDatabaseProperties.

(** * The further properties at concrete inputs *)

(** X1 on the draws 0, 1, 2, ...: the code 012345. *)
Lemma generateOTP_digits_witness :
  OTP.generateOTP (λ i, i `mod` 10) 6 = "012345"
  ∧ String.length (OTP.generateOTP (λ i, i `mod` 10) 6) = 6
  ∧ Forall (λ c, is_Some (Ascii.is_nat c))
      (list_ascii_of_string (OTP.generateOTP (λ i, i `mod` 10) 6)).
Proof.
  split; [reflexivity|].
  apply (generateOTP_digits (λ i, i `mod` 10) 6).
  intros i. apply Nat.mod_upper_bound. lia.
Defined.

(** X3 on a new code for Alice, issued while her first code is stored. *)
Lemma createOTP_then_verifyOTP_witness :
  ∃ code coll1 coll2,
    OTP.createOTP (setters := Concrete.setters) Scenario.defaults (λ i, i) 1000
      " Alice@Example.com" "email_verification" [Scenario.alice_code]
      = (Ok code, coll1)
    ∧ OTP.verifyOTP (setters := Concrete.setters) 2000 " Alice@Example.com" code
        "email_verification" coll1 = (Ok true, coll2)
    ∧ ∀ t', OTP.verifyOTP (setters := Concrete.setters) t' " Alice@Example.com"
              code "email_verification" coll2 =
              (Throw "OTP has already been used", coll2).
Proof.
  apply (createOTP_then_verifyOTP (setters := Concrete.setters) Scenario.defaults
           (λ i, i) 1000 2000 " Alice@Example.com" "email_verification"
           [Scenario.alice_code]).
  - apply list_elem_of_here.
  - by vm_compute.
  - vm_compute. reflexivity.
  - by vm_compute.
  - by vm_compute.
  - simpl. lia.
Defined.

(** X4 on Alice's first code, presented after a new one was issued. *)
Lemma createOTP_invalidates_other_codes_witness :
  let coll1 := (OTP.createOTP (setters := Concrete.setters) Scenario.defaults
                  (λ i, i) 1000 "alice@example.com" "email_verification"
                  [Scenario.alice_code]).2 in
  "123456" ≠ OTP.generateOTP (λ i, i) (or_default (OTP_LENGTH Scenario.defaults) 6)
  ∧ OTP.verifyOTP (setters := Concrete.setters) 2000 "alice@example.com" "123456"
      "email_verification" coll1 = (Throw "Invalid OTP", coll1).
Proof.
  intros coll1.
  assert ("123456" ≠ OTP.generateOTP (λ i, i)
                       (or_default (OTP_LENGTH Scenario.defaults) 6)) as Hother
    by (by vm_compute).
  split; [exact Hother|].
  apply (createOTP_invalidates_other_codes (setters := Concrete.setters)
           Scenario.defaults (λ i, i) 1000 2000 "alice@example.com"
           "email_verification" "123456" [Scenario.alice_code]).
  - apply list_elem_of_here.
  - by vm_compute.
  - vm_compute. reflexivity.
  - exact Hother.
Defined.

(** X5 on a code for Alice after four and after five increments. *)
Lemma incrementAttempts_locks_from_five_witness :
  let coll1 := (OTP.createOTP (setters := Concrete.setters) Scenario.defaults
                  (λ i, i) 1000 "alice@example.com" "email_verification" []).2 in
  let bump c := (OTP.incrementAttempts (setters := Concrete.setters)
                   "alice@example.com" "012345" "email_verification" c).2 in
  (OTP.verifyOTP (setters := Concrete.setters) 2000 "alice@example.com" "012345"
     "email_verification" (Nat.iter 4 bump coll1)).1 = Ok true
  ∧ (OTP.verifyOTP (setters := Concrete.setters) 2000 "alice@example.com" "012345"
       "email_verification" (Nat.iter 5 bump coll1)).1 =
      Throw "Too many failed attempts. Please request a new OTP".
Proof.
  intros coll1 bump. split.
  - apply (incrementAttempts_locks_from_five (setters := Concrete.setters)
             Scenario.defaults (λ i, i) 1000 2000 "alice@example.com"
             "email_verification" [] 4).
    + apply list_elem_of_here.
    + by vm_compute.
    + vm_compute. reflexivity.
    + by vm_compute.
    + by vm_compute.
    + simpl. lia.
  - apply (incrementAttempts_locks_from_five (setters := Concrete.setters)
             Scenario.defaults (λ i, i) 1000 2000 "alice@example.com"
             "email_verification" [] 5).
    + apply list_elem_of_here.
    + by vm_compute.
    + vm_compute. reflexivity.
    + by vm_compute.
    + by vm_compute.
    + simpl. lia.
Defined.

(** X7 on Erin's invitation, cleaned up after its expiry. *)
Lemma cleanupExpired_is_transparent_witness :
  let coll := [Scenario.invitation_for_erin "member" 259200000] in
  let coll' := (TeamInvitation.cleanupExpired 300000000 coll).2 in
  coll' = [TeamInvitation.set_status TeamInvitation.expired
             (Scenario.invitation_for_erin "member" 259200000)]
  ∧ (TeamInvitation.findByToken 300000001 "5f2c9a7e" coll').1 =
      (TeamInvitation.findByToken 300000001 "5f2c9a7e" coll).1
  ∧ (TeamInvitation.createInvitation (setters := Concrete.setters)
       (ids := Concrete.ids) Scenario.defaults
       300000001 "77aa01bc" "64b0000000000000000000c2" Scenario.data_for_erin
       coll').1 =
      (TeamInvitation.createInvitation (setters := Concrete.setters)
       (ids := Concrete.ids) Scenario.defaults
         300000001 "77aa01bc" "64b0000000000000000000c2" Scenario.data_for_erin
         coll).1.
Proof.
  intros coll coll'. split; [reflexivity|].
  apply (cleanupExpired_is_transparent (setters := Concrete.setters)
       (ids := Concrete.ids)
           Scenario.defaults 300000000 300000001 "5f2c9a7e" "77aa01bc"
           "64b0000000000000000000c2" Scenario.data_for_erin coll).
  lia.
Defined.

(** X8 on Erin's invitation: the workspace spelled in upper case, and a
    string that spells no ObjectId. *)
Lemma getStats_counts_witness :
  let coll := [Scenario.invitation_for_erin "member" 259200000] in
  (∃ stats,
     TeamInvitation.getStats (ids := Concrete.ids) "64B0000000000000000000B1" coll =
       (Ok stats, coll)
     ∧ TeamInvitation.n_pending stats = 1 ∧ TeamInvitation.n_accepted stats = 0)
  ∧ ∃ msg, TeamInvitation.getStats (ids := Concrete.ids) "team" coll =
             (Throw msg, coll).
Proof.
  intros coll.
  assert (castObjectId (ObjectIdCast := Concrete.ids) "64B0000000000000000000B1"
          = Some "64b0000000000000000000b1") as Hcast by (vm_compute; reflexivity).
  assert (castObjectId (ObjectIdCast := Concrete.ids) "team" = None) as Hnone
    by (vm_compute; reflexivity).
  pose proof (getStats_counts (ids := Concrete.ids) "64B0000000000000000000B1" coll)
    as Hstats.
  pose proof (getStats_counts (ids := Concrete.ids) "team" coll) as Hthrow.
  rewrite Hcast in Hstats. rewrite Hnone in Hthrow.
  split; [|exact Hthrow].
  destruct Hstats as (stats & Hrun & Hpending & Haccepted & _).
  exists stats. split; [exact Hrun|]. split; [exact Hpending|exact Haccepted].
Defined.

(** X9 on Erin's invitation once declined, and on the copy of it that was
    loaded while it was pending. *)
Lemma resolved_invitation_is_final_witness :
  let erin := Scenario.invitation_for_erin "member" 259200000 in
  let d := TeamInvitation.set_status TeamInvitation.declined erin in
  TeamInvitation.accept 1000 0 d "64b000000000000000000012" [d] =
    (Throw "Invitation is no longer pending", [d])
  ∧ TeamInvitation.decline 0 d [d] =
      (Throw "Invitation is no longer pending", [d])
  ∧ (TeamInvitation.cleanupExpired 300000000 [d]).2 !! 0 = Some d
  ∧ (TeamInvitation.createInvitation (setters := Concrete.setters)
       (ids := Concrete.ids) Scenario.defaults
       1000 "77aa01bc" "64b0000000000000000000c2" Scenario.data_for_erin [d]).2 !! 0
    = Some d
  ∧ (TeamInvitation.accept 1000 0 erin "64b000000000000000000012" [d]).2 !! 0 =
      Some (TeamInvitation.set_accepted "64b000000000000000000012" 1000 erin).
Proof.
  intros erin d.
  destruct (resolved_invitation_is_final (setters := Concrete.setters)
              (ids := Concrete.ids) [d] 0 d)
    as (Haccept & Hdecline & _ & _ & Hcleanup & Hcreate & Hstale).
  - reflexivity.
  - by vm_compute.
  - split_and!.
    + apply Haccept.
    + exact Hdecline.
    + apply Hcleanup.
    + apply Hcreate.
    + apply Hstale.
      * reflexivity.
      * reflexivity.
      * split; [valid_doc|]. by vm_compute.
      * vm_compute. reflexivity.
      * by vm_compute.
      * vm_compute. discriminate.
Defined.

(** X10 on the store that holds Erin's pending invitation: a second
    invitation of Erin to the same workspace is refused, one to another
    workspace is stored, and the first is accepted, declined or cleaned
    up. *)
Lemma one_live_invitation_per_pair_witness :
  let erin := Scenario.invitation_for_erin "member" 259200000 in
  let coll := [erin] in
  let again :=
    (TeamInvitation.createInvitation (setters := Concrete.setters)
       (ids := Concrete.ids) Scenario.defaults
       1000 "77aa01bc" "64b0000000000000000000c2" Scenario.data_for_erin coll).2 in
  let elsewhere :=
    (TeamInvitation.createInvitation (setters := Concrete.setters)
       (ids := Concrete.ids) Scenario.defaults
       1000 "77aa01bc" "64b0000000000000000000c2"
       (Scenario.data_for_erin_as "64b0000000000000000000b2") coll).2 in
  TeamInvitation.one_live_per_pair 1000 coll
  ∧ length again = 1 ∧ TeamInvitation.one_live_per_pair 2000 again
  ∧ length elsewhere = 2 ∧ TeamInvitation.one_live_per_pair 2000 elsewhere
  ∧ TeamInvitation.one_live_per_pair 2000
      (TeamInvitation.accept 1000 0 erin "64b000000000000000000012" coll).2
  ∧ TeamInvitation.one_live_per_pair 2000 (TeamInvitation.decline 0 erin coll).2
  ∧ TeamInvitation.one_live_per_pair 2000
      (TeamInvitation.cleanupExpired 1000 coll).2.
Proof.
  intros erin coll again elsewhere.
  assert (TeamInvitation.one_live_per_pair 1000 coll) as Hinv.
  { intros i j d1 d2 Hi Hj _ _ _ _ _ _.
    apply list_lookup_singleton_Some in Hi as [-> _].
    by apply list_lookup_singleton_Some in Hj as [-> _]. }
  destruct (one_live_invitation_per_pair (setters := Concrete.setters)
              (ids := Concrete.ids) 1000 2000 coll)
    as (Hcreate & Haccept & Hdecline & Hcleanup).
  - exact Hinv.
  - lia.
  - split; [exact Hinv|]. split; [reflexivity|]. split; [apply Hcreate|].
    split; [reflexivity|]. split; [apply Hcreate|].
    split; [apply Haccept|]. split; [apply Hdecline|exact Hcleanup].
Defined.

(** X14 on Dana's registration, cleaned up one second after it was made. *)
Lemma createTemporaryUser_then_cleanup_witness :
  let temps1 := (TemporaryUser.createTemporaryUser (setters := Concrete.setters)
                   (bcrypt := Concrete.salted) 1000 "salt4" Scenario.dana_data
                   []).2 in
  let '(temps2, codes2) :=
    (Cleanup.cleanupExpiredData (setters := Concrete.setters) 2000
       (temps1, [])).2 in
  length temps1 = 1 ∧ temps2 = []
  ∧ TemporaryUser.promoteToUser (setters := Concrete.setters)
      (bcrypt := Concrete.salted) 3000 "salt5" "64b000000000000000000005"
      " Dana@Example.com" (temps2, []) =
      (Throw "Temporary user not found", (temps2, [])).
Proof.
  pose proof (createTemporaryUser_then_cleanup (setters := Concrete.setters)
                (bcrypt := Concrete.salted) 1000 2000 3000 "salt4" "salt5"
                "64b000000000000000000005" Scenario.dana_data [] [] []) as H.
  simpl in H. simpl.
  destruct H as (_ & _ & _ & Hpromote).
  - done.
  - by vm_compute.
  - done.
  - done.
  - by vm_compute.
  - lia.
  - split; [reflexivity|]. split; [reflexivity|]. exact Hpromote.
Defined.

(** X17 on a second registration of Alice's address while Olivia's verified
    account is stored: Alice's pending account is replaced, Olivia's is
    kept. *)
Lemma registerUser_keeps_verified_accounts_witness :
  let ctx := {| db := {| otps := []; users := [Scenario.olivia; Scenario.alice];
                         workspaces := []; invitations := [] |};
                statusCode := 200 |} in
  let ctx' := (AuthController.registerUser (setters := Concrete.setters)
                 (bcrypt := Concrete.salted) Scenario.defaults (λ i, i) 1000
                 "salt6" "64b000000000000000000006"
                 (Ok {| Email.success := true |})
                 {| AuthController.name := "Alice";
                    AuthController.email := "alice@example.com";
                    AuthController.password := "secret2" |} ctx).2 in
  User._id <$> users (db ctx') =
    ["64b000000000000000000010"; "64b000000000000000000006"]
  ∧ filter (λ u, User.emailVerified u = true) (users (db ctx')) = [Scenario.olivia].
Proof.
  intros ctx ctx'. split; [reflexivity|].
  destruct (registerUser_keeps_verified_accounts (setters := Concrete.setters)
              (bcrypt := Concrete.salted) Scenario.defaults (λ i, i) 1000
              "salt6" "64b000000000000000000006"
              (Ok {| Email.success := true |})
              {| AuthController.name := "Alice";
                 AuthController.email := "alice@example.com";
                 AuthController.password := "secret2" |} ctx) as (Hverified & _).
  - apply (bool_decide_unpack (NoDup (User._id <$> users (db ctx)))).
    vm_compute. exact I.
  - exact Hverified.
Defined.

(** X18 on Bob: he registers, the email is not delivered, and he verifies
    with the code 012345 a second later. *)
Lemma register_then_verify_witness :
  let request := {| AuthController.v_email := "bob@example.com";
                    AuthController.v_otp := "012345" |} in
  let ctx1 := (AuthController.registerUser (setters := Concrete.setters)
                 (bcrypt := Concrete.salted) Scenario.defaults (λ i, i) 1000
                 "salt2" "64b000000000000000000002"
                 (Ok {| Email.success := false |}) Scenario.bob Scenario.nobody).2 in
  let ctx2 := (AuthController.verifyEmail (setters := Concrete.setters)
                 (bcrypt := Concrete.salted) 2000 "salt7"
                 "64b0000000000000000000a2" request ctx1).2 in
  (User.emailVerified <$> users (db ctx2)) = [true]
  ∧ (User.workspaces <$> users (db ctx2)) = [["64b0000000000000000000a2"]]
  ∧ (Workspace.owner <$> workspaces (db ctx2)) = ["64b000000000000000000002"]
  ∧ ∀ t' salt' wsid',
      (AuthController.verifyEmail (setters := Concrete.setters)
         (bcrypt := Concrete.salted) t' salt' wsid' request ctx2).1 =
        Throw "OTP has already been used".
Proof.
  intros request ctx1 ctx2.
  destruct (register_then_verify (setters := Concrete.setters)
              (bcrypt := Concrete.salted) Scenario.defaults (λ i, i) 1000 2000
              "salt2" "salt7" "64b000000000000000000002"
              "64b0000000000000000000a2" false Scenario.bob Scenario.nobody)
    as (Husers & Hws & _ & Hspent).
  - done.
  - done.
  - by vm_compute.
  - vm_compute. lia.
  - by vm_compute.
  - vm_compute. reflexivity.
  - intros u Hu. by apply elem_of_nil in Hu.
  - intros w Hw. by apply elem_of_nil in Hw.
  - by vm_compute.
  - by vm_compute.
  - simpl. lia.
  - split_and!.
    + exact (f_equal (fmap User.emailVerified) Husers).
    + exact (f_equal (fmap User.workspaces) Husers).
    + exact (f_equal (fmap Workspace.owner) Hws).
    + exact Hspent.
Defined.

(** X19 on Alice, who asks for a new code while the transport of the email
    service fails. *)
Lemma resendOTP_replaces_code_witness :
  let '(r, ctx') :=
    AuthController.resendOTP (setters := Concrete.setters) Scenario.defaults
      (λ i, i) 1000 (EmailService.sendOTPEmail (Throw "ECONNREFUSED"))
      "alice@example.com" Scenario.registered in
  r = Throw "Failed to send OTP email"
  ∧ (OTP.otp <$> otps (db ctx')) = ["012345"]
  ∧ statusCode ctx' = 500%Z.
Proof.
  pose proof (resendOTP_replaces_code (setters := Concrete.setters)
                Scenario.defaults (λ i, i) 1000 (Throw "ECONNREFUSED")
                "alice@example.com" Scenario.registered 0 Scenario.alice) as H.
  destruct (AuthController.resendOTP _ _ _ _ _ _) as [r ctx'].
  destruct H as (Hotps & _ & _ & _ & Hr & Hstatus).
  - done.
  - by vm_compute.
  - vm_compute. reflexivity.
  - by vm_compute.
  - by vm_compute.
  - reflexivity.
  - reflexivity.
  - split; [exact Hr|]. split; [by rewrite Hotps|exact Hstatus].
Defined.

(** X20 on Bob's requests, served from the empty database. *)
Lemma auth_requests_never_locked_witness :
  (AuthRoutes.serve (setters := Concrete.setters) (bcrypt := Concrete.salted)
     (compare := Concrete.compare) Scenario.defaults Scenario.bob_requests
     Scenario.nobody).1 !! 3 ≠
    Some (Throw "Too many failed attempts. Please request a new OTP").
Proof.
  apply (auth_requests_never_locked (setters := Concrete.setters)
           (bcrypt := Concrete.salted) (compare := Concrete.compare)
           Scenario.defaults Scenario.bob_requests 0 Scenario.nobody)
    with (w := Scenario.world 4000 "64b0000000000000000000a3")
         (body := {| AuthController.v_email := "bob@example.com";
                     AuthController.v_otp := "999999" |}).
  - simpl. lia.
  - by intros d Hd%elem_of_nil.
  - intros w body Hin. unfold Scenario.bob_requests in Hin.
    repeat (apply elem_of_cons in Hin as [Hin|Hin]; [by simplify_eq; vm_compute|]).
    by apply elem_of_nil in Hin.
  - reflexivity.
Defined.


(** X22 on Erin, invited as a member, who accepts while logged out. *)
Lemma acceptInvitation_joins_workspace_witness :
  let '(r, ctx') :=
    InvitationController.acceptInvitation (strings := Concrete.ops)
      (bcrypt := Concrete.salted) 1000 "salt8" "5f2c9a7e" ""
      Scenario.invited_as_member in
  r = Ok {| success := true; message := "Invitation accepted successfully" |}
  ∧ (Workspace.members <$> workspaces (db ctx')) =
      [Workspace.members Scenario.team
       ++ [{| Workspace.user := "64b000000000000000000012";
              Workspace.role := "member" |}]]
  ∧ (TeamInvitation.status <$> invitations (db ctx')) = [TeamInvitation.accepted]
  ∧ (InvitationController.acceptInvitation (strings := Concrete.ops)
       (bcrypt := Concrete.salted) 2000 "salt9" "5f2c9a7e" "" ctx').1 =
      Throw "Invalid or expired invitation".
Proof.
  destruct (acceptInvitation_joins_workspace (strings := Concrete.ops)
              (bcrypt := Concrete.salted) 1000 "salt8" "5f2c9a7e" ""
              Scenario.invited_as_member
              0 (Scenario.invitation_for_erin "member" 259200000)
              1 Scenario.erin 0 Scenario.team) as [Hrun Hdead].
  - done.
  - reflexivity.
  - intros [|j] y Hj Htok; [done|]. by destruct j.
  - valid_doc.
  - unfold Workspace.roles. simpl. in_list.
  - right. split; reflexivity.
  - reflexivity.
  - split_and!; simpl; try done. unfold User.statuses. in_list.
  - reflexivity.
  - split; [done|]. repeat constructor; simpl; unfold Workspace.roles; in_list.
  - rewrite Hrun. split_and!; [reflexivity..|]. apply Hdead.
Defined.

(** X23 on Erin's invitation, declined with its token. *)
Lemma declineInvitation_closes_token_witness :
  let '(r, ctx') :=
    InvitationController.declineInvitation 1000 "5f2c9a7e"
      Scenario.invited_as_member in
  r = Ok {| success := true; message := "Invitation declined successfully" |}
  ∧ (TeamInvitation.status <$> invitations (db ctx')) = [TeamInvitation.declined]
  ∧ (InvitationController.acceptInvitation (strings := Concrete.ops)
       (bcrypt := Concrete.salted) 2000 "salt9" "5f2c9a7e" "" ctx').1 =
      Throw "Invalid or expired invitation".
Proof.
  destruct (declineInvitation_closes_token (strings := Concrete.ops)
              (bcrypt := Concrete.salted) 1000 "5f2c9a7e"
              Scenario.invited_as_member
              0 (Scenario.invitation_for_erin "member" 259200000))
    as (Hrun & Haccept & _).
  - done.
  - reflexivity.
  - intros [|j] y Hj Htok; [done|]. by destruct j.
  - valid_doc.
  - rewrite Hrun. split_and!; [reflexivity..|]. by rewrite Haccept.
Defined.

(** X24 on the team: Olivia, the owner, removes Carol. *)
Lemma removeMember_effect_witness :
  let '(r, ctx') :=
    WorkspaceRoutes.removeMember "64b000000000000000000010"
      "64b0000000000000000000b1" "64b000000000000000000011"
      Scenario.team_with_accounts in
  r = Ok {| success := true; message := "Member removed successfully" |}
  ∧ (Workspace.members <$> workspaces (db ctx')) =
      [[{| Workspace.user := "64b000000000000000000010";
           Workspace.role := "admin" |}]]
  ∧ (User.workspaces <$> users (db ctx')) =
      [["64b0000000000000000000b1"]; []; []].
Proof.
  pose proof (removeMember_effect (ids := Concrete.ids) "64b000000000000000000010"
                "64b0000000000000000000b1" "64b000000000000000000011"
                Scenario.team_with_accounts 0 Scenario.team) as H.
  destruct (WorkspaceRoutes.removeMember _ _ _ _) as [r ctx'] eqn:Hrun.
  destruct H as (Hr & _).
  - vm_compute. reflexivity.
  - vm_compute. reflexivity.
  - reflexivity.
  - split; [done|]. repeat constructor; simpl; unfold Workspace.roles; in_list.
  - by left.
  - done.
  - split; [exact Hr|]. by injection Hrun as _ <-.
Defined.

(** X25 on the team: Olivia adds Erin as a guest and removes her again. *)
Lemma addMember_then_removeMember_witness :
  let '(r, ctx1) :=
    WorkspaceRoutes.addMember (validator := Concrete.validator)
      (bcrypt := Concrete.salted) "salt10" "64b000000000000000000010"
      "64b0000000000000000000b1" Scenario.add_erin Scenario.team_with_accounts in
  r = Ok {| success := true; message := "Member added successfully" |}
  ∧ (Workspace.role <$> mjoin (Workspace.members <$> workspaces (db ctx1))) =
      ["admin"; "member"; "guest"]
  ∧ WorkspaceRoutes.removeMember "64b000000000000000000010"
      "64b0000000000000000000b1" "64b000000000000000000012" ctx1 =
      (Ok {| success := true; message := "Member removed successfully" |},
       Scenario.team_with_accounts).
Proof.
  destruct (addMember_then_removeMember (validator := Concrete.validator)
              (bcrypt := Concrete.salted) "salt10" "64b000000000000000000010"
              "64b0000000000000000000b1" Scenario.add_erin
              Scenario.team_with_accounts 0 Scenario.team 2 Scenario.erin)
    as [Hadd Hremove].
  - reflexivity.
  - simpl. intros Hin. apply Hin. in_list.
  - reflexivity.
  - split; [done|]. repeat constructor; simpl; unfold Workspace.roles; in_list.
  - apply Forall_cons. split; [by apply Exists_cons_hd|].
    apply Forall_cons. split; [by apply Exists_cons_tl, Exists_cons_hd|].
    apply Forall_nil_2.
  - by left.
  - reflexivity.
  - split_and!; simpl; try done. unfold User.statuses. in_list.
  - apply (bool_decide_unpack
             (NoDup (User._id <$> users (db Scenario.team_with_accounts)))).
    vm_compute. exact I.
  - intros Hex. apply Exists_exists in Hex as (m & Hm & Hu).
    unfold Scenario.team in Hm. simpl in Hm.
    repeat (apply elem_of_cons in Hm as [->|Hm]; [done|]).
    by apply elem_of_nil in Hm.
  - simpl. by intros Hin%elem_of_nil.
  - done.
  - rewrite Hadd. split_and!; [reflexivity..|]. exact Hremove.
Defined.

(** X26 on the team: Olivia deletes the workspace, then Erin accepts her
    invitation to it. *)
Lemma deleteWorkspace_then_acceptInvitation_witness :
  let '(r, ctx1) :=
    WorkspaceRoutes.deleteWorkspace "64b000000000000000000010"
      "64b0000000000000000000b1" Scenario.invited_as_member in
  let '(r', ctx2) :=
    InvitationController.acceptInvitation (strings := Concrete.ops)
      (bcrypt := Concrete.salted) 1000 "salt8" "5f2c9a7e" "" ctx1 in
  r = Ok {| success := true; message := "Workspace deleted successfully" |}
  ∧ workspaces (db ctx1) = []
  ∧ User.workspaces <$> users (db ctx1) = [["64b0000000000000000000b1"]; []]
  ∧ (∃ error, r' = Throw error)
  ∧ TeamInvitation.status <$> invitations (db ctx2) = [TeamInvitation.accepted]
  ∧ statusCode ctx2 = 400%Z.
Proof.
  destruct (deleteWorkspace_then_acceptInvitation (strings := Concrete.ops)
              (bcrypt := Concrete.salted) "64b000000000000000000010"
              "64b0000000000000000000b1" 1000 "salt8" "5f2c9a7e"
              Scenario.invited_as_member 0 Scenario.team
              0 (Scenario.invitation_for_erin "member" 259200000)
              1 Scenario.erin) as (Hdelete & error & Haccept).
  - reflexivity.
  - apply NoDup_singleton.
  - reflexivity.
  - done.
  - reflexivity.
  - valid_doc.
  - reflexivity.
  - reflexivity.
  - reflexivity.
  - rewrite Hdelete, Haccept. split_and!; try reflexivity. by exists error.
Defined.

(** X27 on the database the constructor builds, which holds the default
    user under the key users_1, and a second user. *)
Lemma createUser_fresh_key_witness :
  let '(r, s') := MockDatabase.createUser Scenario.second_user MockDatabase.new in
  (MockDatabase.users MockDatabase.new).*1 = ["users_1"]
  ∧ ∃ user, r = Ok ("users_2", user)
          ∧ MockDatabase.users s' =
              MockDatabase.users MockDatabase.new ++ [("users_2", user)]
          ∧ (MockDatabase.findUserById "users_2" s').1 = Ok (Some user)
          ∧ (MockDatabase.findUserById "users_1" s').1 =
              (MockDatabase.findUserById "users_1" MockDatabase.new).1
          ∧ MockDatabase.keys_generated s'.
Proof.
  pose proof (createUser_fresh_key Scenario.second_user MockDatabase.new) as H.
  destruct (MockDatabase.createUser _ _) as [r s'] eqn:Hrun.
  destruct H as (key & user & Hr & _ & Husers & Hfound & Hothers & _ & Hkeys).
  - intros k Hk. apply list_elem_of_singleton in Hk as ->.
    exists 1%N. split; reflexivity.
  - reflexivity.
  - split; [reflexivity|].
    exists user. injection Hrun as Hr' Hs'. subst r.
    assert (key = "users_2") as -> by (by simplify_eq).
    split; [exact Hr|]. split; [exact Husers|]. split; [exact Hfound|].
    split; [|exact Hkeys]. by apply Hothers.
Defined.

(** X28 on the default user of the mock database, and what it means for
    the database the constructor builds: the default user, found by its
    address, is not found by its [_id]. *)
Lemma createUser_id_is_not_key_witness :
  let '(r, s') := MockDatabase.createUser Scenario.default_user MockDatabase.empty in
  (∃ user, r = Ok ("users_1", user)
         ∧ MockDatabase.User._id user = "user_1"
         ∧ (MockDatabase.findUserById "users_1" s').1 = Ok (Some user)
         ∧ (MockDatabase.findUserById "user_1" s').1 = Ok None)
  ∧ (∃ user, (MockDatabase.findUserByEmail "test@example.com"
                MockDatabase.new).1 = Ok (Some user)
           ∧ MockDatabase.User._id user = "user_1")
  ∧ (MockDatabase.findUserById "user_1" MockDatabase.new).1 = Ok None.
Proof.
  pose proof (createUser_id_is_not_key Scenario.default_user MockDatabase.empty
                "user_1") as H.
  destruct (MockDatabase.createUser _ _) as [r s'] eqn:Hrun.
  destruct H as (key & user & Hr & Hid & _ & Hkey & Hown).
  - by intros k Hk%elem_of_nil.
  - reflexivity.
  - intros n Heq. simpl in Heq. discriminate.
  - split; [|split; [by eexists|reflexivity]].
    exists user. injection Hrun as Hr' Hs'. subst r.
    assert (key = "users_1") as -> by (by simplify_eq).
    rewrite Hid in Hown. by split_and!.
Defined.

(** X29 on the database the constructor builds and a second workspace of
    the default user. *)
Lemma createWorkspace_then_deleteWorkspace_witness :
  ∃ workspace s1 s2,
    MockDatabase.createWorkspace Scenario.second_workspace MockDatabase.new =
      (Ok ("workspaces_2", workspace), s1)
    ∧ (∃ first, (MockDatabase.findWorkspacesByUser "user_1" s1).1 =
                  Ok [first; workspace])
    ∧ MockDatabase.deleteWorkspace "workspaces_2" s1 = (Ok true, s2)
    ∧ MockDatabase.workspaces s2 = MockDatabase.workspaces MockDatabase.new.
Proof.
  destruct (createWorkspace_then_deleteWorkspace Scenario.second_workspace
              Scenario.second_workspace MockDatabase.new)
    as (key & workspace & s1 & s2 & found & Hcreate & _ & Hfound & Hboth
        & Hdelete & Hback & _).
  - intros k Hk. apply list_elem_of_singleton in Hk as ->.
    exists 1%N. split; reflexivity.
  - reflexivity.
  - assert (key = "workspaces_2") as -> by (by injection Hcreate as <- _ _).
    exists workspace, s1, s2.
    split; [exact Hcreate|]. split; [|split; [exact Hdelete|exact Hback]].
    injection Hfound as <-. eexists. exact Hboth.
Defined.
